(** * Shortcuts pak: the shortcut name codec, the shortcut writer, the
      inventory scanner and the artwork compositor, embedded from the Go
      source and verified against the written specification.

    A Go [string] is a sequence of bytes: it is embedded as [list ascii].
    A Go [int] is embedded as [Z]; where a product could leave the 64-bit
    range the wrap-around is written out with [wrap64].  The file system is
    an explicit state threaded through every function that touches it; the
    operating-system calls are the fields of the class [OS], so that
    statements about error handling hold for every behaviour of the system,
    and [memfs] is an executable instance of that class. *)

From Stdlib Require Import ZArith Lia List Ascii String Sorting.Sorted.
From stdpp Require Import base option list gmap strings.

Local Open Scope Z_scope.
Local Open Scope list_scope.

(** ** Go strings *)

Abbreviation gostring := (list ascii).

(** A string literal of the source, as its bytes. *)
Definition str (s : string) : gostring := list_ascii_of_string s.

(** The byte value of a character. *)
Definition code (c : ascii) : N := N_of_ascii c.

Module strings.

(** [strings.HasPrefix(s, prefix)]. *)
Fixpoint HasPrefix (s prefix : gostring) {struct prefix} : bool :=
  match prefix, s with
  | [], _ => true
  | p :: ps, c :: cs => Ascii.eqb p c && HasPrefix cs ps
  | _ :: _, [] => false
  end.

(** [strings.TrimPrefix(s, prefix)]: [s] without the leading [prefix], or
    [s] itself when it does not start with it. *)
Definition TrimPrefix (s prefix : gostring) : gostring :=
  if HasPrefix s prefix then drop (length prefix) s else s.

(** [strings.HasSuffix(s, suffix)]. *)
Definition HasSuffix (s suffix : gostring) : bool :=
  HasPrefix (rev s) (rev suffix).

(** [strings.TrimSuffix(s, suffix)]. *)
Definition TrimSuffix (s suffix : gostring) : gostring :=
  if HasSuffix s suffix then take (length s - length suffix)%nat s else s.

(** [strings.LastIndex(s, sep)]: the index of the last instance of [sep] in
    [s], or -1.  [lastIndexFrom s sep i] scans the suffix [s] of the subject
    that starts at index [i]. *)
Fixpoint lastIndexFrom (s sep : gostring) (i : Z) : Z :=
  match s with
  | [] => if HasPrefix [] sep then i else -1
  | _ :: s' =>
      let r := lastIndexFrom s' sep (i + 1) in
      if 0 <=? r then r else if HasPrefix s sep then i else -1
  end.

Definition LastIndex (s sep : gostring) : Z := lastIndexFrom s sep 0.

(** The slice expression [s[lo:hi]]. *)
Definition slice (s : gostring) (lo hi : Z) : gostring :=
  take (Z.to_nat (hi - lo)) (drop (Z.to_nat lo) s).

(** White space as [unicode.IsSpace] defines it, read off the UTF-8 bytes:
    U+0009..U+000D, U+0020, U+0085, U+00A0, U+1680, U+2000..U+200A, U+2028,
    U+2029, U+202F, U+205F, U+3000.  Every one of these has a single valid
    encoding, and a byte sequence that does not decode is [RuneError], which
    is no space. *)
Definition asciiSpace (c : ascii) : bool :=
  let n := code c in
  ((9 <=? n) && (n <=? 13) || (n =? 32))%N.

Definition space2 (a b : ascii) : bool :=
  ((code a =? 194) && ((code b =? 133) || (code b =? 160)))%N.

Definition space3 (a b c : ascii) : bool :=
  let x := code a in let y := code b in let z := code c in
  ((x =? 225) && (y =? 154) && (z =? 128)
   || (x =? 226) && (y =? 128)
      && ((128 <=? z) && (z <=? 138) || (z =? 168) || (z =? 169) || (z =? 175))
   || (x =? 226) && (y =? 129) && (z =? 159)
   || (x =? 227) && (y =? 128) && (z =? 128))%N.

(** The first byte of a white-space rune of more than one byte. *)
Definition spaceLead (c : ascii) : bool :=
  ((code c =? 194) || (code c =? 225) || (code c =? 226) || (code c =? 227))%N.

(** Width in bytes of the white-space rune [s] starts with; 0 if it starts
    with none. *)
Definition leadSpace (s : gostring) : nat :=
  match s with
  | a :: r =>
      if asciiSpace a then 1%nat
      else match r with
           | b :: r' =>
               if space2 a b then 2%nat
               else match r' with
                    | c :: _ => if space3 a b c then 3%nat else 0%nat
                    | [] => 0%nat
                    end
           | [] => 0%nat
           end
  | [] => 0%nat
  end.

(** The same for the rune [s] ends with; the argument is [s] reversed, as
    [utf8.DecodeLastRuneInString] walks backwards from the end. *)
Definition trailSpace (r : gostring) : nat :=
  match r with
  | c :: r1 =>
      if asciiSpace c then 1%nat
      else match r1 with
           | b :: r2 =>
               if space2 b c then 2%nat
               else match r2 with
                    | a :: _ => if space3 a b c then 3%nat else 0%nat
                    | [] => 0%nat
                    end
           | [] => 0%nat
           end
  | [] => 0%nat
  end.

Fixpoint trimLeftN (n : nat) (s : gostring) : gostring :=
  match n with
  | O => s
  | S n' =>
      match leadSpace s with
      | O => s
      | w => trimLeftN n' (drop w s)
      end
  end.

Fixpoint trimRightN (n : nat) (r : gostring) : gostring :=
  match n with
  | O => r
  | S n' =>
      match trailSpace r with
      | O => r
      | w => trimRightN n' (drop w r)
      end
  end.

Definition TrimLeftSpace (s : gostring) : gostring := trimLeftN (length s) s.

Definition TrimRightSpace (s : gostring) : gostring :=
  rev (trimRightN (length s) (rev s)).

(** [strings.TrimSpace(s)]: leading and trailing white space removed. *)
Definition TrimSpace (s : gostring) : gostring :=
  TrimRightSpace (TrimLeftSpace s).

End strings.

(** ** Constants of the codec *)

(** U+FEFF, bytes EF BB BF. *)
Definition shortcutPrefix : gostring := ["239"; "187"; "191"]%char.

(** U+2605 followed by a space, bytes E2 98 85 20. *)
Definition legacyShortcutPrefix : gostring := ["226"; "152"; "133"; " "]%char.

Definition bridgeEmuTag : gostring := str "SHORTCUT".

Inductive ShortcutPosition : Set :=
  | ShortcutPositionBottom
  | ShortcutPositionTop
  | ShortcutPositionAlpha.

Definition topPrefix : gostring := str "0) ".

Definition shortcutMarkerFile : gostring := str ".shortcut".

(** ** The name codec *)

Definition extractTag (name : gostring) : gostring :=
  let idx := strings.LastIndex name (str "(") in
  if idx <? 0 then []
  else
    let end_ := strings.LastIndex name (str ")") in
    if end_ <=? idx then []
    else strings.TrimSpace (strings.slice name (idx + 1) end_).

Definition extractDisplayName (name : gostring) : gostring :=
  let idx := strings.LastIndex name (str "(") in
  if idx <? 0 then name
  else strings.TrimSpace (strings.slice name 0 idx).

(** [fmt.Sprintf("%s (%s)", displayName, tag)] and the position prefix. *)
Definition buildFolderName (pos : ShortcutPosition) (displayName tag : gostring)
  : gostring :=
  let base := displayName ++ str " (" ++ tag ++ str ")" in
  match pos with
  | ShortcutPositionTop => topPrefix ++ base
  | ShortcutPositionAlpha => base
  | ShortcutPositionBottom => shortcutPrefix ++ base
  end.

(** The folder name of the first generation of the program:
    [fmt.Sprintf("%s %s (%s)", shortcutPrefix, displayName, tag)] with the
    star U+2605 as [shortcutPrefix]. *)
Definition legacyFolderName (displayName tag : gostring) : gostring :=
  legacyShortcutPrefix ++ displayName ++ str " (" ++ tag ++ str ")".

(** U+200B, bytes E2 80 8B: the invisible prefix that the comments of the
    source and the bundled manual still name for the Bottom position. *)
Definition zeroWidthSpace : gostring := ["226"; "128"; "139"]%char.

(** ** Go integers

    [int] is 64 bits wide on the devices the program is built for. *)

Definition wrap64 (z : Z) : Z := (z + 2 ^ 63) mod 2 ^ 64 - 2 ^ 63.

Module int.
Definition add (a b : Z) : Z := wrap64 (a + b).
Definition sub (a b : Z) : Z := wrap64 (a - b).
Definition mul (a b : Z) : Z := wrap64 (a * b).
(** Integer division truncates toward zero; the divisor is never 0 where the
    source divides. *)
Definition quo (a b : Z) : Z := wrap64 (Z.quot a b).
End int.

(** ** Paths

    Every path the program hands to the operating system is absolute and
    clean: it is built by [filepath.Join] from a constant root or from the
    working directory.  Such a path is embedded as the list of its elements
    below the root. *)

Abbreviation path := (list gostring).

Module filepath.

(** [strings.Split(s, "/")]. *)
Fixpoint splitElems (s : gostring) : list gostring :=
  match s with
  | [] => [[]]
  | c :: s' =>
      if Ascii.eqb c "/" then [] :: splitElems s'
      else match splitElems s' with
           | e :: es => (c :: e) :: es
           | [] => [[c]]
           end
  end.

(** One element of the lexical processing of [filepath.Clean]: empty and
    "." elements vanish, ".." removes the element before it and is dropped
    at the root. *)
Definition cleanStep (p : path) (e : gostring) : path :=
  if bool_decide (e = []) || bool_decide (e = str ".") then p
  else if bool_decide (e = str "..") then removelast p
  else p ++ [e].

(** [filepath.Join(dir, elem)] for an absolute clean [dir]. *)
Definition Join (dir : path) (elem : gostring) : path :=
  fold_left cleanStep (splitElems elem) dir.

(** [filepath.Base(p)]: the last element; "/" for the root. *)
Definition Base (p : path) : gostring := List.last p (str "/").

(** The path as the string the program sees. *)
Fixpoint joinElems (p : path) : gostring :=
  match p with
  | [] => []
  | e :: p' => str "/" ++ e ++ joinElems p'
  end.

Definition String (p : path) : gostring :=
  match p with
  | [] => str "/"
  | _ => joinElems p
  end.

(** [filepath.Ext(name)]: the suffix from the last dot of the last element,
    empty when there is no dot.  [extRev] walks the reversed name. *)
Fixpoint extRev (r acc : gostring) : gostring :=
  match r with
  | [] => []
  | c :: r' =>
      if Ascii.eqb c "/" then []
      else if Ascii.eqb c "." then c :: acc
      else extRev r' (c :: acc)
  end.

Definition Ext (name : gostring) : gostring := extRev (rev name) [].

End filepath.

(** ** Errors *)

Inductive errno : Set := ENOENT | ENOTDIR | EISDIR | EACCES | EBADF.

(** A Go [error]: a system error naming the operation and the path, a PNG
    decoding error, or an error wrapped by [fmt.Errorf("...: %w", err)]. *)
Inductive error : Type :=
  | PathError (op : string) (p : path) (e : errno)
  | FormatError (msg : string)
  | Errorf (msg : string) (err : error).

(** ** The operating system *)

Module DirEntry.
Record t : Type := mk { Name : gostring; IsDir : bool }.
End DirEntry.

(** The calls of package [os] the program makes.  The calls that write
    return the new state of the file system together with their error
    ([None] is Go's [nil]); the calls that read leave it as it is.  A file
    opened by [os.Create] is written through [os_Write], named by its
    path. *)
Class OS (FS : Type) : Type := {
  os_MkdirAll : path -> FS -> option error * FS;
  os_WriteFile : path -> gostring -> FS -> option error * FS;
  os_Create : path -> FS -> option error * FS;
  os_Write : path -> gostring -> FS -> option error * FS;
  os_Stat : path -> FS -> option error;
  os_ReadFile : path -> FS -> error + gostring;
  os_ReadDir : path -> FS -> error + list DirEntry.t;
}.

(** ** Library code outside the repository *)

Module sort.

Fixpoint insert {A : Type} (less : A -> A -> bool) (x : A) (l : list A) : list A :=
  match l with
  | [] => [x]
  | y :: l' => if less x y then x :: l else y :: insert less x l'
  end.

(** [sort.Slice(x, less)].  Go promises an ordering by [less] and no
    stability; an insertion sort stands for it here, and only the order of
    the result is ever relied upon. *)
Definition Slice {A : Type} (x : list A) (less : A -> A -> bool) : list A :=
  fold_right (insert less) [] x.

End sort.

(** The operator [<] on strings: byte-wise lexicographic order. *)
Fixpoint stringLess (a b : gostring) : bool :=
  match a, b with
  | _, [] => false
  | [], _ :: _ => true
  | x :: a', y :: b' =>
      if (code x <? code y)%N then true
      else if (code y <? code x)%N then false
      else stringLess a' b'
  end.

Module image.

Module Point.
Record t : Set := mk { X : Z; Y : Z }.
End Point.

Module Rectangle.
Record t : Set := mk { Min : Point.t; Max : Point.t }.
Definition Dx (r : t) : Z := int.sub (Point.X (Max r)) (Point.X (Min r)).
Definition Dy (r : t) : Z := int.sub (Point.Y (Max r)) (Point.Y (Min r)).
End Rectangle.

(** [image.Rect(x0, y0, x1, y1)]; the corners are put in order. *)
Definition Rect (x0 y0 x1 y1 : Z) : Rectangle.t :=
  let '(x0, x1) := if x1 <? x0 then (x1, x0) else (x0, x1) in
  let '(y0, y1) := if y1 <? y0 then (y1, y0) else (y0, y1) in
  Rectangle.mk (Point.mk x0 y0) (Point.mk x1 y1).

Module NRGBA.
(** [Pix] holds the pixels as R, G, B, A bytes; the pixel at (x, y) starts
    at [(y - Rect.Min.Y) * Stride + (x - Rect.Min.X) * 4]. *)
Record t : Set := mk { Pix : list Z; Stride : Z; Rect : Rectangle.t }.
Definition Bounds (p : t) : Rectangle.t := Rect p.
Definition PixOffset (p : t) (x y : Z) : Z :=
  int.add
    (int.mul (int.sub y (Point.Y (Rectangle.Min (Rect p)))) (Stride p))
    (int.mul (int.sub x (Point.X (Rectangle.Min (Rect p)))) 4).
(** [p.NRGBAAt(x, y)]: the four bytes R, G, B, A of the pixel at (x, y),
    and zeros outside the bounds. *)
Definition NRGBAAt (p : t) (x y : Z) : list Z :=
  let r := Rect p in
  if (Point.X (Rectangle.Min r) <=? x) && (x <? Point.X (Rectangle.Max r))
     && (Point.Y (Rectangle.Min r) <=? y) && (y <? Point.Y (Rectangle.Max r))
  then take 4 (drop (Z.to_nat (PixOffset p x y)) (Pix p))
  else [0; 0; 0; 0].
(** The layout [NewNRGBA] gives an image of [w] by [h] pixels at the
    origin. *)
Definition laidOut (w h : Z) (p : t) : Prop :=
  Rect p = Rectangle.mk (Point.mk 0 0) (Point.mk w h)
  /\ Stride p = 4 * w
  /\ Z.of_nat (length (Pix p)) = 4 * w * h.
End NRGBA.

(** [image.NewNRGBA(r)]: a zeroed pixel buffer of 4 bytes per pixel. *)
Definition NewNRGBA (r : Rectangle.t) : NRGBA.t :=
  NRGBA.mk
    (replicate (Z.to_nat (4 * Rectangle.Dx r * Rectangle.Dy r)) 0)
    (4 * Rectangle.Dx r) r.

(** The opaque black image of [w] by [h] pixels. *)
Definition solidBlack (w h : Z) : NRGBA.t :=
  NRGBA.mk (mjoin (replicate (Z.to_nat (w * h)) [0; 0; 0; 255]))
    (4 * w) (Rect 0 0 w h).

End image.

Inductive DrawOp : Set := Over | Src.

(** What the program takes from the Go libraries and cannot be read off the
    repository: Unicode lower-casing, the PNG codec, the scaling and drawing
    routines of [golang.org/x/image/draw], and the three places where the
    compositor computes in [float64]. *)
Class Extern : Type := {
  strings_ToLower : gostring -> gostring;
  Image : Type;
  Image_Bounds : Image -> image.Rectangle.t;
  png_Decode : gostring -> error + Image;
  png_Encode : image.NRGBA.t -> gostring;
  xdraw_Scale : image.NRGBA.t -> image.Rectangle.t -> Image ->
                image.Rectangle.t -> DrawOp -> image.NRGBA.t;
  xdraw_Draw : image.NRGBA.t -> image.Rectangle.t -> image.NRGBA.t ->
               image.Point.t -> DrawOp -> image.NRGBA.t;
  (** [int(float64(n) * 0.45)] and [int(float64(n) * 0.60)] *)
  float_times_045 : Z -> Z;
  float_times_060 : Z -> Z;
  (** [newW, newH] of the scale-to-cover step, from screen and source sizes *)
  float_cover : Z -> Z -> Z -> Z -> Z * Z;
}.

(** ** Data types of the program *)

Inductive Platform : Set := PlatformMac | PlatformTG5040 | PlatformTG5050.

Definition Platform_string (p : Platform) : gostring :=
  match p with
  | PlatformMac => str "mac"
  | PlatformTG5040 => str "tg5040"
  | PlatformTG5050 => str "tg5050"
  end.

(** The globals [platform] and [isBrick] set at start-up, the working
    directory [os.Getwd] returns and the value of [SDCARD_PATH]. *)
Record Env : Type := {
  platform : Platform;
  isBrick : bool;
  cwd : path;
  SDCARD_PATH : gostring;
}.

Module ConsoleDir.
Record t : Type := mk {
  Name : gostring; Tag : gostring; Path : path; Display : gostring;
  IsDisabled : bool }.
End ConsoleDir.

Module ROMFile.
Record t : Type := mk {
  Name : gostring; Path : path; Display : gostring;
  IsMultiDisc : bool; IsCueFolder : bool; IsDisabled : bool }.
End ROMFile.

Module ToolPak.
Record t : Type := mk { Name : gostring; Path : path; Display : gostring }.
End ToolPak.

Module Shortcut.
Record t : Type := mk {
  Name : gostring; Tag : gostring; Display : gostring; Path : path;
  IsTool : bool; TargetPath : gostring }.
End Shortcut.

Module AppSettings.
Record t : Set := mk {
  CopyArtwork : bool; UseGlobalBg : bool; ForceBlackBg : bool;
  ShowHidden : bool }.
End AppSettings.

(** ** The program

    Calls to [log.Printf] are left out: the log is not part of any
    statement below. *)

Section Program.

Context {FS : Type} {os : OS FS} {ext : Extern} (env : Env).

Definition romsPath : path := [str "mnt"; str "SDCARD"; str "Roms"].
Definition toolsPath : path := [str "mnt"; str "SDCARD"; str "Tools"].
Definition emusUserPath : path := [str "mnt"; str "SDCARD"; str "Emus"].

(** [(roms, tools, emus)] *)
Definition getBasePaths : path * path * path :=
  match platform env with
  | PlatformMac =>
      let mock := filepath.Join (cwd env) (str "mock_sdcard") in
      (filepath.Join mock (str "Roms"),
       filepath.Join (filepath.Join mock (str "Tools")) (str "tg5040"),
       filepath.Join (filepath.Join mock (str "Emus")) (str "tg5040"))
  | p =>
      (romsPath,
       filepath.Join toolsPath (Platform_string p),
       filepath.Join emusUserPath (Platform_string p))
  end.

Definition romsDir : path := fst (fst getBasePaths).
Definition toolsDir : path := snd (fst getBasePaths).

(** *** String utilities *)

Definition isHidden (name : gostring) : bool :=
  strings.HasPrefix name (str ".")
  || strings.HasSuffix name (str ".disabled")
  || bool_decide (name = str "map.txt").

Definition isMacDotfile (name : gostring) : bool :=
  if negb (strings.HasPrefix name (str ".")) then false
  else bool_decide (extractTag name = []).

Definition dirHasVisibleContent (p : path) (fs : FS) : bool :=
  match os_ReadDir p fs with
  | inl _ => false
  | inr entries => existsb (fun e => negb (isHidden (DirEntry.Name e))) entries
  end.

Definition isShortcutFolder (folderPath : path) (fs : FS) : bool :=
  let name := filepath.Base folderPath in
  if strings.HasPrefix name shortcutPrefix
     || strings.HasPrefix name legacyShortcutPrefix
  then true
  else
    match os_Stat (filepath.Join folderPath shortcutMarkerFile) fs with
    | None => true
    | Some _ => false
    end.

Definition stripExtension (name : gostring) : gostring :=
  let ext := filepath.Ext name in
  if (2 <=? length ext)%nat && (length ext <=? 5)%nat
  then strings.TrimSuffix name ext
  else name.

Definition readShortcutMarker (folderPath : path) (fs : FS) : gostring :=
  match os_ReadFile (filepath.Join folderPath shortcutMarkerFile) fs with
  | inl _ => []
  | inr data => strings.TrimSpace data
  end.

Definition writeShortcutMarker (folderPath : path) (displayName : gostring)
    (fs : FS) : option error * FS :=
  let markerPath := filepath.Join folderPath shortcutMarkerFile in
  os_WriteFile markerPath displayName fs.

(** *** Scanning *)

(** The body of the loop of [scanConsoleDirs]: the entry it appends for a
    directory entry, [None] where the loop continues. *)
Definition scanConsoleDirs_entry (showHidden : bool) (fs : FS)
    (e : DirEntry.t) : option ConsoleDir.t :=
  if negb (DirEntry.IsDir e) then None
  else
    let name := DirEntry.Name e in
    let fullPath := filepath.Join romsDir name in
    if isShortcutFolder fullPath fs then None
    else if (if negb showHidden
             then isHidden name || negb (dirHasVisibleContent fullPath fs)
             else isMacDotfile name || bool_decide (name = str "map.txt"))
    then None
    else
      let isDisabled := strings.HasSuffix name (str ".disabled") in
      let baseName :=
        if isDisabled then strings.TrimSuffix name (str ".disabled") else name in
      let tag := extractTag baseName in
      if bool_decide (tag = []) then None
      else Some (ConsoleDir.mk name tag fullPath
                   (extractDisplayName baseName) isDisabled).

Definition scanConsoleDirs (showHidden : bool) (fs : FS)
  : list ConsoleDir.t * option error :=
  match os_ReadDir romsDir fs with
  | inl err => ([], Some (Errorf "reading roms dir" err))
  | inr entries =>
      let consoles := omap (scanConsoleDirs_entry showHidden fs) entries in
      (sort.Slice consoles (fun a b =>
         stringLess (strings_ToLower (ConsoleDir.Display a))
                    (strings_ToLower (ConsoleDir.Display b))),
       None)
  end.

Definition scanROMs_entry (consoleDir : path) (showHidden : bool) (fs : FS)
    (e : DirEntry.t) : option ROMFile.t :=
  let name := DirEntry.Name e in
  if (if negb showHidden then isHidden name
      else strings.HasPrefix name (str ".") || bool_decide (name = str "map.txt"))
  then None
  else
    let isDisabled := strings.HasSuffix name (str ".disabled") in
    let baseName :=
      if isDisabled then strings.TrimSuffix name (str ".disabled") else name in
    if DirEntry.IsDir e then
      let dirPath := filepath.Join consoleDir name in
      match os_Stat (filepath.Join dirPath (baseName ++ str ".m3u")) fs with
      | None => Some (ROMFile.mk name dirPath baseName true false isDisabled)
      | Some _ =>
          match os_Stat (filepath.Join dirPath (baseName ++ str ".cue")) fs with
          | None => Some (ROMFile.mk name dirPath baseName false true isDisabled)
          | Some _ => None
          end
      end
    else
      Some (ROMFile.mk name (filepath.Join consoleDir name)
              (stripExtension baseName) false false isDisabled).

Definition scanROMs (consoleDir : path) (showHidden : bool) (fs : FS)
  : list ROMFile.t * option error :=
  match os_ReadDir consoleDir fs with
  | inl err => ([], Some (Errorf "reading rom dir" err))
  | inr entries =>
      let roms := omap (scanROMs_entry consoleDir showHidden fs) entries in
      (sort.Slice roms (fun a b =>
         stringLess (strings_ToLower (ROMFile.Display a))
                    (strings_ToLower (ROMFile.Display b))),
       None)
  end.

Definition scanTools_entry (showHidden : bool) (e : DirEntry.t)
  : option ToolPak.t :=
  if negb (DirEntry.IsDir e) then None
  else
    let name := DirEntry.Name e in
    if negb showHidden && isHidden name then None
    else if showHidden && strings.HasPrefix name (str ".") then None
    else
      let isDisabled := strings.HasSuffix name (str ".pak.disabled") in
      if negb (strings.HasSuffix name (str ".pak")) && negb isDisabled then None
      else
        let baseName :=
          if isDisabled
          then strings.TrimSuffix (strings.TrimSuffix name (str ".disabled"))
                 (str ".pak")
          else strings.TrimSuffix name (str ".pak") in
        let display :=
          if isDisabled then baseName ++ str "  [disabled]" else baseName in
        Some (ToolPak.mk baseName (filepath.Join toolsDir name) display).

Definition scanTools (showHidden : bool) (fs : FS)
  : list ToolPak.t * option error :=
  match os_ReadDir toolsDir fs with
  | inl err => ([], Some (Errorf "reading tools dir" err))
  | inr entries =>
      let tools := omap (scanTools_entry showHidden) entries in
      (sort.Slice tools (fun a b =>
         stringLess (strings_ToLower (ToolPak.Display a))
                    (strings_ToLower (ToolPak.Display b))),
       None)
  end.

(** The display name [scanShortcuts] falls back to when the marker file
    gives none: the name without its tag, without the U+FEFF prefix and
    without the legacy prefix, stripped in that order. *)
Definition displayFromName (name : gostring) : gostring :=
  let display := extractDisplayName name in
  let display := strings.TrimPrefix display shortcutPrefix in
  strings.TrimPrefix display legacyShortcutPrefix.

Definition scanShortcuts_entry (fs : FS) (e : DirEntry.t)
  : option Shortcut.t :=
  if negb (DirEntry.IsDir e) then None
  else
    let fullPath := filepath.Join romsDir (DirEntry.Name e) in
    if negb (isShortcutFolder fullPath fs) then None
    else
      let name := DirEntry.Name e in
      let tag := extractTag name in
      let isTool := bool_decide (tag = bridgeEmuTag) in
      let display := readShortcutMarker fullPath fs in
      let display :=
        if bool_decide (display = []) then displayFromName name else display in
      let targetPath :=
        if isTool then
          match os_ReadFile (filepath.Join fullPath (str "target")) fs with
          | inr data => strings.TrimSpace data
          | inl _ => []
          end
        else
          match os_ReadFile (filepath.Join fullPath (name ++ str ".m3u")) fs with
          | inr data =>
              filepath.String (filepath.Join fullPath (strings.TrimSpace data))
          | inl _ => []
          end in
      Some (Shortcut.mk name tag display fullPath isTool targetPath).

Definition scanShortcuts (fs : FS) : list Shortcut.t * option error :=
  match os_ReadDir romsDir fs with
  | inl err => ([], Some (Errorf "reading roms dir" err))
  | inr entries =>
      let shortcuts := omap (scanShortcuts_entry fs) entries in
      (sort.Slice shortcuts (fun a b =>
         stringLess (strings_ToLower (Shortcut.Display a))
                    (strings_ToLower (Shortcut.Display b))),
       None)
  end.

(** *** Artwork *)

Definition screenDimensions : Z * Z :=
  if isBrick env then (1024, 768) else (1280, 720).

(** The path a string names: below the root when it starts with a slash,
    below the working directory otherwise. *)
Definition absPath (s : gostring) : path :=
  filepath.Join (if strings.HasPrefix s (str "/") then [] else cwd env) s.

Definition globalBgPath : path :=
  let sdcard := SDCARD_PATH env in
  if bool_decide (sdcard = []) then
    match platform env with
    | PlatformMac =>
        filepath.Join (filepath.Join (cwd env) (str "mock_sdcard")) (str "bg.png")
    | _ => [str "mnt"; str "SDCARD"; str "bg.png"]
    end
  else filepath.Join (absPath sdcard) (str "bg.png").

Definition loadPNGImage (p : path) (fs : FS) : error + Image :=
  match os_ReadFile p fs with
  | inl err => inl err
  | inr data => png_Decode data
  end.

(** The assignment [pix[i] = v].  An index out of range panics in Go; here
    it leaves the slice as it is. *)
Definition setPix (pix : list Z) (i : Z) (v : Z) : list Z :=
  if 0 <=? i then <[Z.to_nat i := v]> pix else pix.

(** [for i := 0; i < len(pix); i += 4 { pix[i], ..., pix[i+3] = 0, 0, 0, 0xff }] *)
Fixpoint fillBlackLoop (fuel : nat) (i : Z) (pix : list Z) : list Z :=
  match fuel with
  | O => pix
  | S fuel' =>
      if i <? Z.of_nat (length pix) then
        let pix := setPix pix i 0 in
        let pix := setPix pix (i + 1) 0 in
        let pix := setPix pix (i + 2) 0 in
        let pix := setPix pix (i + 3) 255 in
        fillBlackLoop fuel' (i + 4) pix
      else pix
  end.

Definition fillBlack (canvas : image.NRGBA.t) : image.NRGBA.t :=
  let pix := image.NRGBA.Pix canvas in
  image.NRGBA.mk (fillBlackLoop (length pix) 0 pix)
    (image.NRGBA.Stride canvas) (image.NRGBA.Rect canvas).

(** The test in the inner loop of [applyRoundedCorners]: with [dx] and [dy]
    the distances of the pixel past the corner edge,
    [dx*dx + dy*dy > radius*radius]. *)
Definition applyRoundedCorners_outside (w h radius x y : Z) : bool :=
  let dx :=
    if x <? radius then int.sub radius x
    else if int.sub w radius <=? x then int.sub x (int.sub (int.sub w radius) 1)
    else 0 in
  let dy :=
    if y <? radius then int.sub radius y
    else if int.sub h radius <=? y then int.sub y (int.sub (int.sub h radius) 1)
    else 0 in
  int.mul radius radius <? int.add (int.mul dx dx) (int.mul dy dy).

(** The body of the inner loop of [applyRoundedCorners]. *)
Definition applyRoundedCorners_pixel (w h radius : Z) (y : Z)
    (img : image.NRGBA.t) (x : Z) : image.NRGBA.t :=
  if applyRoundedCorners_outside w h radius x y then
    let off := image.NRGBA.PixOffset img x y in
    let pix := image.NRGBA.Pix img in
    let pix := setPix pix off 0 in
    let pix := setPix pix (off + 1) 0 in
    let pix := setPix pix (off + 2) 0 in
    let pix := setPix pix (off + 3) 0 in
    image.NRGBA.mk pix (image.NRGBA.Stride img) (image.NRGBA.Rect img)
  else img.

Definition applyRoundedCorners (img : image.NRGBA.t) (radius : Z)
  : image.NRGBA.t :=
  let b := image.NRGBA.Bounds img in
  let w := image.Rectangle.Dx b in
  let h := image.Rectangle.Dy b in
  if (radius <=? 0) || (w =? 0) || (h =? 0) then img
  else
    foldl (fun img y => foldl (applyRoundedCorners_pixel w h radius y) img (seqZ 0 w))
      img (seqZ 0 h).

Definition thumbnailFit (srcW srcH maxW maxH : Z) : Z * Z :=
  if (srcW =? 0) || (srcH =? 0) then (maxW, maxH)
  else
    let newW := maxW in
    let newH := int.quo (int.mul srcH maxW) srcW in
    if maxH <? newH then (int.quo (int.mul srcW maxH) srcH, maxH)
    else (newW, newH).

Definition generateArtworkBg (artSrcPath destFolder : path)
    (useGlobalBg forceBlack : bool) (fs : FS) : FS :=
  (* [None]: the function returns before it draws anything *)
  let art : option (option Image) :=
    match os_Stat artSrcPath fs with
    | None =>
        match loadPNGImage artSrcPath fs with
        | inl _ => None
        | inr img => Some (Some img)
        end
    | Some _ => if negb forceBlack then None else Some None
    end in
  match art with
  | None => fs
  | Some artImg =>
      let '(screenW, screenH) := screenDimensions in
      let canvas := image.NewNRGBA (image.Rect 0 0 screenW screenH) in
      let canvas := fillBlack canvas in
      let canvas :=
        if useGlobalBg then
          match loadPNGImage globalBgPath fs with
          | inr bgImg =>
              let srcW := image.Rectangle.Dx (Image_Bounds bgImg) in
              let srcH := image.Rectangle.Dy (Image_Bounds bgImg) in
              let '(newW, newH) := float_cover screenW screenH srcW srcH in
              let scaledBg := image.NewNRGBA (image.Rect 0 0 newW newH) in
              let scaledBg :=
                xdraw_Scale scaledBg (image.NRGBA.Bounds scaledBg)
                  bgImg (Image_Bounds bgImg) Src in
              let offX := int.quo (int.sub newW screenW) 2 in
              let offY := int.quo (int.sub newH screenH) 2 in
              xdraw_Draw canvas (image.NRGBA.Bounds canvas) scaledBg
                (image.Point.mk offX offY) Src
          | inl _ => canvas
          end
        else canvas in
      let canvas :=
        match artImg with
        | Some artImg =>
            let maxW := float_times_045 screenW in
            let maxH := float_times_060 screenH in
            let '(artW, artH) :=
              thumbnailFit (image.Rectangle.Dx (Image_Bounds artImg))
                (image.Rectangle.Dy (Image_Bounds artImg)) maxW maxH in
            let scaledArt := image.NewNRGBA (image.Rect 0 0 artW artH) in
            let scaledArt :=
              xdraw_Scale scaledArt (image.NRGBA.Bounds scaledArt)
                artImg (Image_Bounds artImg) Over in
            let scaledArt := applyRoundedCorners scaledArt 40 in
            let rightMargin := 30 in
            let targetX := Z.max 0 (int.sub (int.sub screenW artW) rightMargin) in
            let centerY := int.sub (int.quo screenH 2) (int.quo artH 2) in
            let artDst :=
              image.Rect targetX centerY
                (int.add targetX artW) (int.add centerY artH) in
            xdraw_Draw canvas artDst scaledArt (image.Point.mk 0 0) Over
        | None => canvas
        end in
      let mediaDir := filepath.Join destFolder (str ".media") in
      match os_MkdirAll mediaDir fs with
      | (Some _, fs) => fs
      | (None, fs) =>
          let bg := filepath.Join mediaDir (str "bg.png") in
          match os_Create bg fs with
          | (Some _, fs) => fs
          | (None, fs) => snd (os_Write bg (png_Encode canvas) fs)
          end
      end
  end.

(** *** Shortcut creation *)

(** The [switch] of [createROMShortcut]: the relative path from the
    shortcut folder to the target. *)
Definition createROMShortcut_relPath (consoleDirName : gostring)
    (rom : ROMFile.t) : gostring :=
  if ROMFile.IsMultiDisc rom then
    str "../" ++ consoleDirName ++ str "/" ++ ROMFile.Name rom
      ++ str "/" ++ ROMFile.Name rom ++ str ".m3u"
  else if ROMFile.IsCueFolder rom then
    str "../" ++ consoleDirName ++ str "/" ++ ROMFile.Name rom
      ++ str "/" ++ ROMFile.Name rom ++ str ".cue"
  else str "../" ++ consoleDirName ++ str "/" ++ ROMFile.Name rom.

Definition createROMShortcut (displayName tag consoleDirName : gostring)
    (rom : ROMFile.t) (pos : ShortcutPosition) (settings : AppSettings.t)
    (fs : FS) : option error * FS :=
  let folderName := buildFolderName pos displayName tag in
  let folderPath := filepath.Join romsDir folderName in
  match os_MkdirAll folderPath fs with
  | (Some err, fs) => (Some (Errorf "creating shortcut dir" err), fs)
  | (None, fs) =>
      let relPath := createROMShortcut_relPath consoleDirName rom in
      let m3uPath := filepath.Join folderPath (folderName ++ str ".m3u") in
      match os_WriteFile m3uPath relPath fs with
      | (Some err, fs) => (Some (Errorf "writing m3u" err), fs)
      | (None, fs) =>
          (* a failure to write the marker is logged as a warning *)
          let fs := snd (writeShortcutMarker folderPath displayName fs) in
          let fs :=
            if AppSettings.CopyArtwork settings then
              let artworkSrc :=
                filepath.Join
                  (filepath.Join (filepath.Join romsDir consoleDirName) (str ".media"))
                  (displayName ++ str ".png") in
              generateArtworkBg artworkSrc folderPath
                (AppSettings.UseGlobalBg settings)
                (AppSettings.ForceBlackBg settings) fs
            else fs in
          (None, fs)
      end
  end.

Definition createToolShortcut (displayName pakPath : gostring)
    (pos : ShortcutPosition) (settings : AppSettings.t) (fs : FS)
  : option error * FS :=
  let folderName := buildFolderName pos displayName bridgeEmuTag in
  let folderPath := filepath.Join romsDir folderName in
  match os_MkdirAll folderPath fs with
  | (Some err, fs) => (Some (Errorf "creating shortcut dir" err), fs)
  | (None, fs) =>
      let targetPath := filepath.Join folderPath (str "target") in
      match os_WriteFile targetPath pakPath fs with
      | (Some err, fs) => (Some (Errorf "writing target" err), fs)
      | (None, fs) =>
          let m3uPath := filepath.Join folderPath (folderName ++ str ".m3u") in
          match os_WriteFile m3uPath (str "target") fs with
          | (Some err, fs) => (Some (Errorf "writing m3u" err), fs)
          | (None, fs) =>
              let fs := snd (writeShortcutMarker folderPath displayName fs) in
              let fs :=
                if AppSettings.CopyArtwork settings then
                  let artworkSrc :=
                    filepath.Join (filepath.Join toolsDir (str ".media"))
                      (displayName ++ str ".png") in
                  generateArtworkBg artworkSrc folderPath
                    (AppSettings.UseGlobalBg settings)
                    (AppSettings.ForceBlackBg settings) fs
                else fs in
              (None, fs)
          end
      end
  end.

Definition shortcutExists (displayName tag : gostring) (fs : FS) : bool :=
  existsb
    (fun pos =>
       let folderPath :=
         filepath.Join romsDir (buildFolderName pos displayName tag) in
       match os_Stat folderPath fs with None => true | Some _ => false end)
    [ShortcutPositionBottom; ShortcutPositionTop; ShortcutPositionAlpha].

End Program.

(** ** A file system in memory

    [memfs] is an instance of [OS] that can be run.  A file system is a
    finite map from paths to nodes, the root being a directory that is
    always there, and a set of paths at which the system refuses to create
    or write anything (a read-only or protected place). *)

Module memfs.

Inductive node : Type := File (data : gostring) | Dir.

Record t : Type := mk { nodes : gmap path node; denied : gset path }.

Definition nodeAt (fs : t) (p : path) : option node :=
  match p with
  | [] => Some Dir
  | _ => nodes fs !! p
  end.

Definition put (p : path) (n : node) (fs : t) : t :=
  mk (<[p := n]> (nodes fs)) (denied fs).

(** [os.MkdirAll]: walks down from the root, creating what is missing; it
    fails at a file in the way and at a place where it may not write. *)
Fixpoint mkdirAllFrom (done : path) (rest : list gostring) (fs : t)
  : option error * t :=
  match rest with
  | [] => (None, fs)
  | e :: rest' =>
      let q := done ++ [e] in
      match nodes fs !! q with
      | Some Dir => mkdirAllFrom q rest' fs
      | Some (File _) => (Some (PathError "mkdir" q ENOTDIR), fs)
      | None =>
          if bool_decide (q ∈ denied fs)
          then (Some (PathError "mkdir" q EACCES), fs)
          else mkdirAllFrom q rest' (put q Dir fs)
      end
  end.

Definition MkdirAll (p : path) (fs : t) : option error * t :=
  mkdirAllFrom [] p fs.

(** [os.WriteFile]: the parent must be a directory and the path must not
    be one; the file is created or replaced. *)
Definition WriteFile (p : path) (data : gostring) (fs : t) : option error * t :=
  if bool_decide (p ∈ denied fs) then (Some (PathError "open" p EACCES), fs)
  else
    match nodeAt fs (removelast p) with
    | Some Dir =>
        match nodeAt fs p with
        | Some Dir => (Some (PathError "open" p EISDIR), fs)
        | _ => (None, put p (File data) fs)
        end
    | Some (File _) => (Some (PathError "open" p ENOTDIR), fs)
    | None => (Some (PathError "open" p ENOENT), fs)
    end.

(** [os.Create]: the file is created empty or truncated. *)
Definition Create (p : path) (fs : t) : option error * t := WriteFile p [] fs.

(** A write to the file opened at [p]: the bytes are appended. *)
Definition Write (p : path) (data : gostring) (fs : t) : option error * t :=
  match nodeAt fs p with
  | Some (File old) =>
      if bool_decide (p ∈ denied fs) then (Some (PathError "write" p EACCES), fs)
      else (None, put p (File (old ++ data)) fs)
  | _ => (Some (PathError "write" p EBADF), fs)
  end.

Definition Stat (p : path) (fs : t) : option error :=
  match nodeAt fs p with
  | Some _ => None
  | None => Some (PathError "stat" p ENOENT)
  end.

Definition ReadFile (p : path) (fs : t) : error + gostring :=
  match nodeAt fs p with
  | Some (File data) => inr data
  | Some Dir => inl (PathError "read" p EISDIR)
  | None => inl (PathError "open" p ENOENT)
  end.

Definition childEntry (p : path) (kn : path * node) : option DirEntry.t :=
  match fst kn with
  | [] => None
  | k =>
      if bool_decide (removelast k = p)
      then Some (DirEntry.mk (List.last k [])
                   (match snd kn with Dir => true | File _ => false end))
      else None
  end.

(** [os.ReadDir]: the entries of a directory, sorted by file name. *)
Definition ReadDir (p : path) (fs : t) : error + list DirEntry.t :=
  match nodeAt fs p with
  | Some Dir =>
      inr (sort.Slice (omap (childEntry p) (map_to_list (nodes fs)))
             (fun a b => stringLess (DirEntry.Name a) (DirEntry.Name b)))
  | Some (File _) => inl (PathError "open" p ENOTDIR)
  | None => inl (PathError "open" p ENOENT)
  end.

(** [keeps except fs fs']: going from [fs] to [fs'] every directory stays a
    directory and every file keeps its content, the files at the paths in
    [except] apart; the refused places are the same. *)
Definition keeps (except : list path) (fs fs' : t) : Prop :=
  denied fs' = denied fs /\
  forall k n, nodes fs !! k = Some n -> n = Dir \/ k ∉ except ->
              nodes fs' !! k = Some n.

(** The file system with the given directories and files and nothing
    refused. *)
Definition ofList (l : list (path * node)) : t := mk (list_to_map l) ∅.

End memfs.

#[export] Instance memfs_OS : OS memfs.t := {
  os_MkdirAll := memfs.MkdirAll;
  os_WriteFile := memfs.WriteFile;
  os_Create := memfs.Create;
  os_Write := memfs.Write;
  os_Stat := memfs.Stat;
  os_ReadFile := memfs.ReadFile;
  os_ReadDir := memfs.ReadDir;
}.

(** ** Library operations to run examples with

    Lower-casing of the ASCII letters; an image known by its bounds only,
    stored in a file as two bytes (width, height); a PNG encoder that writes
    the pixel bytes as they are; scaling and drawing that leave the
    destination as it is; the [float64] products computed on integers. *)

Definition asciiLower (c : ascii) : ascii :=
  if ((65 <=? code c) && (code c <=? 90))%N then ascii_of_N (code c + 32) else c.

Definition refExtern : Extern := {|
  strings_ToLower := map asciiLower;
  Image := image.Rectangle.t;
  Image_Bounds := fun r => r;
  png_Decode := fun data =>
    match data with
    | [w; h] => inr (image.Rect 0 0 (Z.of_N (code w)) (Z.of_N (code h)))
    | _ => inl (FormatError "png: invalid format")
    end;
  png_Encode := fun img =>
    map (fun z => ascii_of_N (Z.to_N z)) (image.NRGBA.Pix img);
  xdraw_Scale := fun dst _ _ _ _ => dst;
  xdraw_Draw := fun dst _ _ _ _ => dst;
  float_times_045 := fun n => n * 45 / 100;
  float_times_060 := fun n => n * 60 / 100;
  float_cover := fun sw sh _ _ => (sw, sh);
|}.

Definition deviceEnv : Env :=
  {| platform := PlatformTG5040; isBrick := false;
     cwd := [str "mnt"; str "SDCARD"]; SDCARD_PATH := [] |}.

Definition brickEnv : Env :=
  {| platform := PlatformTG5040; isBrick := true;
     cwd := [str "mnt"; str "SDCARD"]; SDCARD_PATH := [] |}.

Definition noArtwork : AppSettings.t := AppSettings.mk false true false false.

(** An SD card with one console directory holding one game. *)
Definition sdcard0 : memfs.t :=
  memfs.ofList
    [([str "mnt"], memfs.Dir);
     ([str "mnt"; str "SDCARD"], memfs.Dir);
     ([str "mnt"; str "SDCARD"; str "Roms"], memfs.Dir);
     ([str "mnt"; str "SDCARD"; str "Roms"; str "Sega Genesis (MD)"], memfs.Dir);
     ([str "mnt"; str "SDCARD"; str "Roms"; str "Sega Genesis (MD)";
       str "Battletoads.md"], memfs.File (str "rom"))].

Definition battletoads : ROMFile.t :=
  ROMFile.mk (str "Battletoads.md")
    [str "mnt"; str "SDCARD"; str "Roms"; str "Sega Genesis (MD)";
     str "Battletoads.md"]
    (str "Battletoads") false false false.

(** The same card on which the system refuses the marker file of the
    shortcut "0) Battletoads (MD)". *)
Definition sdcardNoMarker : memfs.t :=
  memfs.mk (memfs.nodes sdcard0)
    {[ [str "mnt"; str "SDCARD"; str "Roms"; str "0) Battletoads (MD)";
        str ".shortcut"] ]}.

(** The same card with the folder "Roms" refused below it. *)
Definition sdcardReadOnly : memfs.t :=
  memfs.mk (memfs.nodes sdcard0)
    {[ [str "mnt"; str "SDCARD"; str "Roms"; str "0) Battletoads (MD)"] ]}.

(** A card that holds a folder of the U+200B generation whose marker file
    is missing. *)
Definition sdcardZWS : memfs.t :=
  memfs.ofList
    [([str "mnt"], memfs.Dir);
     ([str "mnt"; str "SDCARD"], memfs.Dir);
     ([str "mnt"; str "SDCARD"; str "Roms"], memfs.Dir);
     ([str "mnt"; str "SDCARD"; str "Roms";
       zeroWidthSpace ++ str "Battletoads (MD)"], memfs.Dir);
     ([str "mnt"; str "SDCARD"; str "Roms";
       zeroWidthSpace ++ str "Battletoads (MD)";
       zeroWidthSpace ++ str "Battletoads (MD).m3u"],
      memfs.File (str "../Sega Genesis (MD)/Battletoads.md"))].

(** The card after the Bottom shortcut for Battletoads has been created. *)
Definition sdcardShortcut : memfs.t :=
  snd (createROMShortcut (ext := refExtern) deviceEnv (str "Battletoads")
         (str "MD") (str "Sega Genesis (MD)") battletoads
         ShortcutPositionBottom noArtwork sdcard0).

Definition battletoadsFolder : path :=
  romsPath ++ [shortcutPrefix ++ str "Battletoads (MD)"].

Definition battletoadsArt : path :=
  romsPath ++ [str "Sega Genesis (MD)"; str ".media"; str "Battletoads.png"].

(** A card with a console that holds a plain game, a multi-disc game with
    its playlist, a cue folder, a folder without either and a disabled
    game, and with two tool paks, one of them disabled. *)
Definition sdcardFull : memfs.t :=
  memfs.ofList
    [([str "mnt"], memfs.Dir);
     ([str "mnt"; str "SDCARD"], memfs.Dir);
     ([str "mnt"; str "SDCARD"; str "Roms"], memfs.Dir);
     ([str "mnt"; str "SDCARD"; str "Roms"; str "Sony PlayStation (PS)"],
      memfs.Dir);
     ([str "mnt"; str "SDCARD"; str "Roms"; str "Sony PlayStation (PS)";
       str "Wipeout.chd"], memfs.File (str "rom"));
     ([str "mnt"; str "SDCARD"; str "Roms"; str "Sony PlayStation (PS)";
       str "Riven"], memfs.Dir);
     ([str "mnt"; str "SDCARD"; str "Roms"; str "Sony PlayStation (PS)";
       str "Riven"; str "Riven.m3u"], memfs.File (str "disc1.chd"));
     ([str "mnt"; str "SDCARD"; str "Roms"; str "Sony PlayStation (PS)";
       str "Doom"], memfs.Dir);
     ([str "mnt"; str "SDCARD"; str "Roms"; str "Sony PlayStation (PS)";
       str "Doom"; str "Doom.cue"], memfs.File (str "track"));
     ([str "mnt"; str "SDCARD"; str "Roms"; str "Sony PlayStation (PS)";
       str "Saves"], memfs.Dir);
     ([str "mnt"; str "SDCARD"; str "Roms"; str "Sony PlayStation (PS)";
       str "Tekken.chd.disabled"], memfs.File (str "rom"));
     ([str "mnt"; str "SDCARD"; str "Tools"], memfs.Dir);
     ([str "mnt"; str "SDCARD"; str "Tools"; str "tg5040"], memfs.Dir);
     ([str "mnt"; str "SDCARD"; str "Tools"; str "tg5040"; str "Clock.pak"],
      memfs.Dir);
     ([str "mnt"; str "SDCARD"; str "Tools"; str "tg5040";
       str "Files.pak.disabled"], memfs.Dir)].

(** ** The bridge emulator

    The constant [bridgeLaunchScript]; its double quotes and line ends
    are spelled by their byte. *)
Definition bridgeLaunchScript : gostring :=
  let q := ["034"%char] in
  let nl := ["010"%char] in
  str "#!/bin/sh" ++ nl
  ++ str "# SHORTCUT.pak - Bridge emulator for tool shortcuts." ++ nl
  ++ str "TARGET=$(cat " ++ q ++ str "$1" ++ q ++ str ")" ++ nl
  ++ str "if [ -x " ++ q ++ str "$TARGET/launch.sh" ++ q ++ str " ]; then" ++ nl
  ++ str "    exec " ++ q ++ str "$TARGET/launch.sh" ++ q ++ nl
  ++ str "fi" ++ nl.

Section Bridge.

Context {FS : Type} {os : OS FS} (env : Env).

Definition emusDir : path := snd (getBasePaths env).

(** The errors are logged and the function returns. *)
Definition ensureBridgeEmu (fs : FS) : FS :=
  match platform env with
  | PlatformMac => fs
  | _ =>
      let pakDir := filepath.Join emusDir (str "SHORTCUT.pak") in
      let launchPath := filepath.Join pakDir (str "launch.sh") in
      match os_Stat launchPath fs with
      | None => fs
      | Some _ =>
          match os_MkdirAll pakDir fs with
          | (Some _, fs) => fs
          | (None, fs) => snd (os_WriteFile launchPath bridgeLaunchScript fs)
          end
      end
  end.

End Bridge.

(** ** Artwork of an existing shortcut *)

Section ArtSource.

Context {FS : Type} {os : OS FS} (env : Env).


End ArtSource.

(** ** Well-formed cards

    What every real file system guarantees and a finite map does not: the
    names in a path are proper names (not empty, not "." or "..", without a
    slash) and everything lies in a directory. *)
Definition properName (e : gostring) : bool :=
  negb (bool_decide ("/"%char ∈ e)) && negb (bool_decide (e = []))
  && negb (bool_decide (e = str ".")) && negb (bool_decide (e = str "..")).

Definition wellFormed (fs : memfs.t) : bool :=
  forallb
    (fun kn : path * memfs.node =>
       match fst kn with
       | [] => false
       | k =>
           forallb properName k
           && match memfs.nodeAt fs (removelast k) with
              | Some memfs.Dir => true
              | _ => false
              end
       end)
    (map_to_list (memfs.nodes fs)).

(** The entry [scanShortcuts] makes of a folder [name] of the roms
    directory whose marker file holds [d]. *)
Definition markedShortcut (env : Env) (name d : gostring) (fs : memfs.t)
  : Shortcut.t :=
  Shortcut.mk name (extractTag name) d (romsDir env ++ [name])
    (bool_decide (extractTag name = bridgeEmuTag))
    (if bool_decide (extractTag name = bridgeEmuTag) then
       match memfs.ReadFile ((romsDir env ++ [name]) ++ [str "target"]) fs with
       | inr data => strings.TrimSpace data
       | inl _ => []
       end
     else
       match memfs.ReadFile
               (filepath.Join (romsDir env ++ [name]) (name ++ str ".m3u")) fs with
       | inr data =>
           filepath.String
             (filepath.Join (romsDir env ++ [name]) (strings.TrimSpace data))
       | inl _ => []
       end).

(** ** Removal of the generated backgrounds

    [os.Remove] removes a file or an empty directory.  Its error is a
    [*PathError] around one of these numbers; [removeAllMedia] logs it,
    unless it says that the file is not there, and goes on. *)
Module syscall.
Inductive Errno : Set := ENOENT | ENOTEMPTY | EACCES | EBUSY.
End syscall.

Class OSRemove (FS : Type) : Type := {
  os_Remove : path -> FS -> option syscall.Errno * FS;
}.

Section Media.

Context {FS : Type} {os : OS FS} {osr : OSRemove FS} {ext : Extern} (env : Env).

(** The body of the loop of [removeAllMedia]. *)
Definition removeAllMedia_step (fs : FS) (sc : Shortcut.t) : FS :=
  let bgPath :=
    filepath.Join (filepath.Join (Shortcut.Path sc) (str ".media")) (str "bg.png") in
  let fs := snd (os_Remove bgPath fs) in
  snd (os_Remove (filepath.Join (Shortcut.Path sc) (str ".media")) fs).

Definition removeAllMedia (fs : FS) : option error * FS :=
  match scanShortcuts env fs with
  | (_, Some err) => (Some (Errorf "scanning shortcuts" err), fs)
  | (shortcuts, None) => (None, foldl removeAllMedia_step fs shortcuts)
  end.

End Media.

(** [os.Remove] on the file system in memory: the root stays, a path
    where nothing may be written stays, a directory goes only when
    nothing lies in it. *)
Definition memfs_hasChild (p : path) (fs : memfs.t) : bool :=
  existsb
    (fun kn : path * memfs.node =>
       match fst kn with
       | [] => false
       | k => bool_decide (removelast k = p)
       end)
    (map_to_list (memfs.nodes fs)).

Definition memfs_Remove (p : path) (fs : memfs.t)
  : option syscall.Errno * memfs.t :=
  match p with
  | [] => (Some syscall.EBUSY, fs)
  | _ =>
      match memfs.nodes fs !! p with
      | None => (Some syscall.ENOENT, fs)
      | Some n =>
          if bool_decide (p ∈ memfs.denied fs) then (Some syscall.EACCES, fs)
          else
            match n with
            | memfs.Dir =>
                if memfs_hasChild p fs then (Some syscall.ENOTEMPTY, fs)
                else (None, memfs.mk (delete p (memfs.nodes fs)) (memfs.denied fs))
            | memfs.File _ =>
                (None, memfs.mk (delete p (memfs.nodes fs)) (memfs.denied fs))
            end
      end
  end.

#[export] Instance memfs_OSRemove : OSRemove memfs.t := {
  os_Remove := memfs_Remove;
}.

(** The card of [sdcardShortcut] with a generated background and a
    screenshot beside it in the folder [.media] of the shortcut. *)
Definition sdcardMedia : memfs.t :=
  memfs.put (battletoadsFolder ++ [str ".media"; str "shot.png"])
    (memfs.File (str "shot"))
    (memfs.put (battletoadsFolder ++ [str ".media"; str "bg.png"])
       (memfs.File (str "bg"))
       (memfs.put (battletoadsFolder ++ [str ".media"]) memfs.Dir sdcardShortcut)).

(** The card of [sdcard0] with artwork of 64 by 32 pixels for Battletoads,
    in the encoding of [refExtern]. *)
Definition sdcardArt : memfs.t :=
  memfs.put battletoadsArt (memfs.File ["064"; "032"]%char) sdcard0.

(** * Verification *)

Set Warnings "-clear-no-such-hyp".

(** * Facts about the string functions *)

Section StringFacts.

Implicit Types s p r a b : gostring.

Lemma HasPrefix_app p r : strings.HasPrefix (p ++ r) p = true.
Proof.
  induction p as [|c p IH]; simpl; [done|].
  by rewrite Ascii.eqb_refl, IH.
Qed.

Lemma HasPrefix_inv s p : strings.HasPrefix s p = true -> exists r, s = p ++ r.
Proof.
  revert s; induction p as [|c p IH]; intros s H; simpl in *.
  - by exists s.
  - destruct s as [|d s]; [done|].
    apply andb_true_iff in H as [Hc Hs].
    apply Ascii.eqb_eq in Hc as ->.
    destruct (IH _ Hs) as [r ->]. by exists r.
Qed.

Lemma TrimPrefix_app p r : strings.TrimPrefix (p ++ r) p = r.
Proof.
  unfold strings.TrimPrefix. rewrite HasPrefix_app.
  by rewrite drop_app_length.
Qed.

Lemma TrimPrefix_miss s p :
  strings.HasPrefix s p = false -> strings.TrimPrefix s p = s.
Proof. unfold strings.TrimPrefix. by intros ->. Qed.

Lemma HasPrefix_head_ne c d s p :
  c <> d -> strings.HasPrefix (d :: s) (c :: p) = false.
Proof.
  intros Hne. simpl. destruct (Ascii.eqb_spec c d); [done|reflexivity].
Qed.

(** The last index of a byte that occurs in the subject. *)
Lemma lastIndexFrom_absent c s i :
  c ∉ s -> strings.lastIndexFrom s [c] i = -1.
Proof.
  revert i; induction s as [|d s IH]; intros i Hc; simpl; [done|].
  rewrite IH by set_solver. simpl.
  destruct (Ascii.eqb_spec c d) as [->|]; [set_solver|done].
Qed.

Lemma lastIndexFrom_last c a b i :
  c ∉ b -> 0 <= i ->
  strings.lastIndexFrom (a ++ c :: b) [c] i = i + Z.of_nat (length a).
Proof.
  intros Hc. revert i; induction a as [|d a IH]; intros i Hi; simpl.
  - rewrite lastIndexFrom_absent by done. simpl.
    rewrite Ascii.eqb_refl. simpl. lia.
  - rewrite IH by lia.
    destruct (Z.leb_spec 0 (i + 1 + Z.of_nat (length a))); lia.
Qed.

Lemma LastIndex_last c a b :
  c ∉ b -> strings.LastIndex (a ++ c :: b) [c] = Z.of_nat (length a).
Proof.
  intros. unfold strings.LastIndex. rewrite lastIndexFrom_last; [lia|done|lia].
Qed.

Lemma slice_prefix a b : strings.slice (a ++ b) 0 (Z.of_nat (length a)) = a.
Proof.
  unfold strings.slice. rewrite Z.sub_0_r, Nat2Z.id.
  change (Z.to_nat 0) with 0%nat. rewrite drop_0. by rewrite take_app_length.
Qed.

Lemma slice_middle a b c :
  strings.slice (a ++ b ++ c) (Z.of_nat (length a))
    (Z.of_nat (length a) + Z.of_nat (length b)) = b.
Proof.
  unfold strings.slice.
  replace (Z.of_nat (length a) + Z.of_nat (length b) - Z.of_nat (length a))
    with (Z.of_nat (length b)) by lia.
  rewrite !Nat2Z.id, drop_app_length. by rewrite take_app_length.
Qed.

End StringFacts.

Section TrimSpaceFacts.

Implicit Types s r q : gostring.

Lemma space2_lead a b : strings.space2 a b = true -> strings.spaceLead a = true.
Proof.
  unfold strings.space2, strings.spaceLead.
  destruct (code a =? 194)%N; [done|discriminate].
Qed.

Lemma space3_lead a b c : strings.space3 a b c = true -> strings.spaceLead a = true.
Proof.
  unfold strings.space3, strings.spaceLead. cbv zeta.
  destruct (code a =? 194)%N, (code a =? 225)%N, (code a =? 226)%N,
    (code a =? 227)%N; simpl; try done.
Qed.

Lemma trimLeftN_fix n s : strings.leadSpace s = 0%nat -> strings.trimLeftN n s = s.
Proof. intros H. destruct n; simpl; [done|]. by rewrite H. Qed.

Lemma trimRightN_fix n r : strings.trailSpace r = 0%nat -> strings.trimRightN n r = r.
Proof. intros H. destruct n; simpl; [done|]. by rewrite H. Qed.

Lemma TrimSpace_fix s :
  strings.leadSpace s = 0%nat -> strings.trailSpace (rev s) = 0%nat ->
  strings.TrimSpace s = s.
Proof.
  intros Hl Hr. unfold strings.TrimSpace, strings.TrimLeftSpace.
  rewrite trimLeftN_fix by done. unfold strings.TrimRightSpace.
  rewrite trimRightN_fix by done. apply rev_involutive.
Qed.

Lemma length_trimLeftN n s : (length (strings.trimLeftN n s) <= length s)%nat.
Proof.
  revert s; induction n as [|n IH]; intros s; simpl; [done|].
  destruct (strings.leadSpace s); [done|].
  etrans; [apply IH|]. rewrite length_drop. lia.
Qed.

Lemma length_trimRightN n r : (length (strings.trimRightN n r) <= length r)%nat.
Proof.
  revert r; induction n as [|n IH]; intros r; simpl; [done|].
  destruct (strings.trailSpace r); [done|].
  etrans; [apply IH|]. rewrite length_drop. lia.
Qed.

Lemma length_TrimRightSpace s : (length (strings.TrimRightSpace s) <= length s)%nat.
Proof.
  unfold strings.TrimRightSpace. rewrite length_rev.
  etrans; [apply length_trimRightN|]. by rewrite length_rev.
Qed.

(** A string that [TrimSpace] leaves as it is neither starts nor ends with
    a white-space rune. *)
Lemma TrimSpace_id_inv s :
  strings.TrimSpace s = s ->
  strings.leadSpace s = 0%nat /\ strings.trailSpace (rev s) = 0%nat.
Proof.
  intros H. apply (f_equal length) in H.
  destruct (strings.leadSpace s) as [|w] eqn:El.
  - split; [done|].
    unfold strings.TrimSpace, strings.TrimLeftSpace in H.
    rewrite trimLeftN_fix in H by done.
    destruct (strings.trailSpace (rev s)) as [|v] eqn:Er; [done|exfalso].
    unfold strings.TrimRightSpace in H. rewrite length_rev in H.
    destruct s as [|c s]; [done|]. cbn [length strings.trimRightN] in H.
    rewrite Er in H.
    pose proof (length_trimRightN (length s) (drop (S v) (rev (c :: s)))) as Hle.
    rewrite length_drop, length_rev in Hle. cbn [length] in Hle. lia.
  - exfalso. destruct s as [|c s]; [done|].
    unfold strings.TrimSpace, strings.TrimLeftSpace in H.
    cbn [length strings.trimLeftN] in H. rewrite El in H.
    pose proof (length_TrimRightSpace
                  (strings.trimLeftN (length s) (drop (S w) (c :: s)))) as H1.
    pose proof (length_trimLeftN (length s) (drop (S w) (c :: s))) as H2.
    rewrite length_drop in H2. cbn [length] in *. lia.
Qed.

Lemma asciiSpace_space : strings.asciiSpace " " = true.
Proof. reflexivity. Qed.

(** A space appended to a string is trimmed away again. *)
Lemma TrimSpace_snoc_space s :
  strings.leadSpace (s ++ [" "%char]) = 0%nat ->
  strings.trailSpace (rev s) = 0%nat ->
  strings.TrimSpace (s ++ [" "%char]) = s.
Proof.
  intros Hl Hr. unfold strings.TrimSpace, strings.TrimLeftSpace.
  rewrite trimLeftN_fix by done. unfold strings.TrimRightSpace.
  rewrite rev_app_distr, length_app, Nat.add_comm. simpl.
  rewrite trimRightN_fix by done. apply rev_involutive.
Qed.

Lemma leadSpace_snoc_space s :
  s <> [] -> strings.leadSpace s = 0%nat ->
  strings.leadSpace (s ++ [" "%char]) = 0%nat.
Proof.
  intros Hne H. destruct s as [|a [|b [|c s]]]; [done| | |]; simpl in *.
  - destruct (strings.asciiSpace a); [done|].
    unfold strings.space2. cbn. by rewrite andb_false_r.
  - destruct (strings.asciiSpace a); [done|].
    destruct (strings.space2 a b); [done|].
    unfold strings.space3. cbn. by rewrite !andb_false_r.
  - done.
Qed.

(** What follows a string that does not end with white space cannot turn
    its end into white space, unless it brings the first byte of a rune. *)
Lemma trailSpace_app r q :
  r <> [] -> strings.trailSpace r = 0%nat ->
  (forall c, c ∈ take 2 q -> strings.spaceLead c = false) ->
  strings.trailSpace (r ++ q) = 0%nat.
Proof.
  intros Hne H Hq. destruct r as [|c [|b [|a r]]]; [done| | |]; simpl in *.
  - destruct (strings.asciiSpace c); [done|].
    destruct q as [|b q]; [done|].
    destruct (strings.space2 b c) eqn:E2.
    { apply space2_lead in E2. rewrite Hq in E2; [done|set_solver]. }
    destruct q as [|a q]; [done|].
    destruct (strings.space3 a b c) eqn:E3; [|done].
    apply space3_lead in E3. rewrite Hq in E3; [done|]. simpl. set_solver.
  - destruct (strings.asciiSpace c); [done|].
    destruct (strings.space2 b c); [done|].
    destruct q as [|a q]; [done|].
    destruct (strings.space3 a b c) eqn:E3; [|done].
    apply space3_lead in E3. rewrite Hq in E3; [done|]. simpl. set_solver.
  - done.
Qed.

End TrimSpaceFacts.

(** * The name codec *)

Section CodecFacts.

Implicit Types x d t name : gostring.

Lemma paren_open_absent t : "("%char ∉ t -> "("%char ∉ t ++ str ")".
Proof. intros H [?|?]%elem_of_app; [done|set_solver]. Qed.

(** The tag is what stands between the last "(" and the final ")". *)
Lemma extractTag_form a t :
  "("%char ∉ t ->
  extractTag (a ++ "("%char :: t ++ [")"%char]) = strings.TrimSpace t.
Proof.
  intros Hp. unfold extractTag.
  assert (Hidx : strings.LastIndex (a ++ "("%char :: t ++ [")"%char]) (str "(")
                 = Z.of_nat (length a)).
  { apply LastIndex_last. intros [?|?]%elem_of_app; [done|set_solver]. }
  assert (Hend : strings.LastIndex (a ++ "("%char :: t ++ [")"%char]) (str ")")
                 = Z.of_nat (length a) + 1 + Z.of_nat (length t)).
  { replace (a ++ "("%char :: t ++ [")"%char])
      with ((a ++ "("%char :: t) ++ ")"%char :: [])
      by (by rewrite <- app_assoc).
    change (str ")") with [")"%char].
    rewrite LastIndex_last by set_solver.
    rewrite length_app. cbn [length]. lia. }
  rewrite Hidx, Hend.
  destruct (Z.ltb_spec (Z.of_nat (length a)) 0); [lia|].
  destruct (Z.leb_spec (Z.of_nat (length a) + 1 + Z.of_nat (length t))
              (Z.of_nat (length a))); [lia|].
  replace (a ++ "("%char :: t ++ [")"%char])
    with ((a ++ ["("%char]) ++ t ++ [")"%char])
    by (by rewrite <- app_assoc).
  replace (Z.of_nat (length a) + 1) with (Z.of_nat (length (a ++ ["("%char])))
    by (rewrite length_app; cbn [length]; lia).
  by rewrite slice_middle.
Qed.

(** The tag is read back from any name that ends in [" (tag)"]. *)
Lemma extractTag_encoded x t :
  "("%char ∉ t -> strings.TrimSpace t = t ->
  extractTag (x ++ str " (" ++ t ++ str ")") = t.
Proof.
  intros Hp Ht.
  replace (x ++ str " (" ++ t ++ str ")")
    with ((x ++ [" "%char]) ++ "("%char :: t ++ [")"%char])
    by (by rewrite <- app_assoc).
  by rewrite extractTag_form.
Qed.

(** The display part is everything before [" (tag)"], trimmed. *)
Lemma extractDisplayName_encoded x t :
  "("%char ∉ t ->
  extractDisplayName (x ++ str " (" ++ t ++ str ")")
  = strings.TrimSpace (x ++ [" "%char]).
Proof.
  intros Hp. unfold extractDisplayName.
  replace (x ++ str " (" ++ t ++ str ")")
    with ((x ++ [" "%char]) ++ "("%char :: (t ++ str ")"))
    by (by rewrite <- app_assoc).
  rewrite LastIndex_last by (by apply paren_open_absent).
  destruct (Z.ltb_spec (Z.of_nat (length (x ++ [" "%char]))) 0); [lia|].
  by rewrite slice_prefix.
Qed.

(** A trimmed display name behind a prefix that neither starts with white
    space nor ends in the first byte of a white-space rune. *)
Lemma TrimSpace_prefixed p d :
  strings.TrimSpace d = d -> d <> [] ->
  p <> [] -> strings.leadSpace (p ++ d ++ [" "%char]) = 0%nat ->
  (forall c, c ∈ take 2 (rev p) -> strings.spaceLead c = false) ->
  strings.TrimSpace ((p ++ d) ++ [" "%char]) = p ++ d.
Proof.
  intros Hd Hne Hp Hl Hq. apply TrimSpace_id_inv in Hd as [_ Hr].
  apply TrimSpace_snoc_space.
  - by rewrite <- app_assoc.
  - rewrite rev_app_distr. apply trailSpace_app; [|done|done].
    intros E. apply (f_equal (@rev ascii)) in E.
    rewrite rev_involutive in E. done.
Qed.

Lemma TrimSpace_bare d :
  strings.TrimSpace d = d -> strings.TrimSpace (d ++ [" "%char]) = d.
Proof.
  intros Hd. destruct (decide (d = [])) as [->|Hne]; [reflexivity|].
  apply TrimSpace_id_inv in Hd as [Hl Hr].
  apply TrimSpace_snoc_space; [|done]. by apply leadSpace_snoc_space.
Qed.

Lemma displayFromName_bottom d t :
  strings.TrimSpace d = d ->
  strings.HasPrefix d legacyShortcutPrefix = false ->
  "("%char ∉ t ->
  displayFromName (shortcutPrefix ++ d ++ str " (" ++ t ++ str ")") = d.
Proof.
  intros Hd Hleg Hp. unfold displayFromName.
  replace (shortcutPrefix ++ d ++ str " (" ++ t ++ str ")")
    with ((shortcutPrefix ++ d) ++ str " (" ++ t ++ str ")")
    by (by rewrite <- app_assoc).
  rewrite extractDisplayName_encoded by done.
  assert (strings.TrimSpace ((shortcutPrefix ++ d) ++ [" "%char])
          = shortcutPrefix ++ d) as ->.
  { destruct (decide (d = [])) as [->|Hne]; [reflexivity|].
    apply TrimSpace_prefixed; [done|done|done|reflexivity|].
    intros c Hc. cbn in Hc. set_unfold. by destruct Hc as [->|[->|[]]]. }
  rewrite TrimPrefix_app. by apply TrimPrefix_miss.
Qed.

Lemma displayFromName_alpha d t :
  strings.TrimSpace d = d ->
  strings.HasPrefix d shortcutPrefix = false ->
  strings.HasPrefix d legacyShortcutPrefix = false ->
  "("%char ∉ t ->
  displayFromName (d ++ str " (" ++ t ++ str ")") = d.
Proof.
  intros Hd Hcur Hleg Hp. unfold displayFromName.
  rewrite extractDisplayName_encoded, TrimSpace_bare by done.
  rewrite (TrimPrefix_miss d shortcutPrefix) by done.
  by apply TrimPrefix_miss.
Qed.

Lemma displayFromName_top d t :
  strings.TrimSpace d = d -> "("%char ∉ t ->
  displayFromName (topPrefix ++ d ++ str " (" ++ t ++ str ")")
  = strings.TrimSpace (topPrefix ++ d).
Proof.
  intros Hd Hp. unfold displayFromName.
  replace (topPrefix ++ d ++ str " (" ++ t ++ str ")")
    with ((topPrefix ++ d) ++ str " (" ++ t ++ str ")")
    by (by rewrite <- app_assoc).
  rewrite extractDisplayName_encoded by done.
  destruct (decide (d = [])) as [->|Hne]; [reflexivity|].
  assert (Hfix : strings.TrimSpace (topPrefix ++ d) = topPrefix ++ d).
  { pose proof Hd as Hd'. apply TrimSpace_id_inv in Hd' as [_ Hr].
    apply TrimSpace_fix; [reflexivity|].
    rewrite rev_app_distr. apply trailSpace_app; [|done|].
    - intros E. apply (f_equal (@rev ascii)) in E.
      rewrite rev_involutive in E. done.
    - intros c Hc. cbn in Hc. set_unfold. by destruct Hc as [->|[->|[]]]. }
  rewrite Hfix.
  rewrite TrimSpace_prefixed; [reflexivity|done|done|done|reflexivity|].
  intros c Hc. cbn in Hc. set_unfold. by destruct Hc as [->|[->|[]]].
Qed.

Lemma displayFromName_legacy d t :
  strings.TrimSpace d = d -> d <> [] ->
  strings.HasPrefix d legacyShortcutPrefix = false ->
  "("%char ∉ t ->
  displayFromName (legacyShortcutPrefix ++ d ++ str " (" ++ t ++ str ")") = d.
Proof.
  intros Hd Hne Hleg Hp. unfold displayFromName.
  replace (legacyShortcutPrefix ++ d ++ str " (" ++ t ++ str ")")
    with ((legacyShortcutPrefix ++ d) ++ str " (" ++ t ++ str ")")
    by (by rewrite <- app_assoc).
  rewrite extractDisplayName_encoded by done.
  rewrite TrimSpace_prefixed; [|done|done|done|reflexivity|].
  - rewrite (TrimPrefix_miss _ shortcutPrefix) by reflexivity.
    rewrite TrimPrefix_app. reflexivity.
  - intros c Hc. cbn in Hc. set_unfold. by destruct Hc as [->|[->|[]]].
Qed.

Lemma buildFolderName_position pos pos' d t :
  buildFolderName pos' d t = buildFolderName pos d t -> pos' = pos.
Proof.
  intros H.
  destruct pos, pos'; try reflexivity; exfalso; unfold buildFolderName in H;
    try discriminate H;
    apply (f_equal length) in H; rewrite ?length_app in H; cbn in H; lia.
Qed.

End CodecFacts.

(** * Paths *)

Section PathFacts.

Implicit Types (s t e : gostring) (p dir : path).

Lemma splitElems_nonempty s : filepath.splitElems s <> [].
Proof.
  destruct s as [|c s]; simpl; [done|].
  destruct (Ascii.eqb c "/"); [done|].
  by destruct (filepath.splitElems s).
Qed.

Lemma splitElems_noslash e : "/"%char ∉ e -> filepath.splitElems e = [e].
Proof.
  induction e as [|c e IH]; intros H; simpl; [done|].
  destruct (Ascii.eqb_spec c "/") as [->|_]; [set_solver|].
  rewrite IH by set_solver. done.
Qed.

(** Appending a suffix without a slash extends the last element. *)
Lemma splitElems_app s t :
  "/"%char ∉ t ->
  filepath.splitElems (s ++ t)
  = removelast (filepath.splitElems s) ++ [List.last (filepath.splitElems s) [] ++ t].
Proof.
  intros Ht. induction s as [|c s IH]; simpl.
  - by apply splitElems_noslash.
  - pose proof (splitElems_nonempty s) as Hne.
    destruct (Ascii.eqb c "/").
    + rewrite IH. destruct (filepath.splitElems s) as [|e es]; [done|]. done.
    + rewrite IH. destruct (filepath.splitElems s) as [|e [|e' es]]; [done| |]; done.
Qed.

Lemma cleanStep_elem p e :
  e <> [] -> e <> str "." -> e <> str ".." -> filepath.cleanStep p e = p ++ [e].
Proof.
  intros H1 H2 H3. unfold filepath.cleanStep.
  rewrite !bool_decide_eq_false_2 by done. done.
Qed.

(** A name that ends in a suffix of three bytes or more without a slash
    becomes the last element of the joined path. *)
Lemma Join_suffix dir s t :
  "/"%char ∉ t -> (3 <= length t)%nat ->
  exists p l, filepath.Join dir (s ++ t) = p ++ [l ++ t].
Proof.
  intros Ht Hlen. unfold filepath.Join. rewrite splitElems_app by done.
  rewrite fold_left_app. simpl.
  eexists _, _. apply cleanStep_elem.
  - intros E. apply (f_equal length) in E. rewrite length_app in E. simpl in E. lia.
  - intros E. apply (f_equal length) in E. rewrite length_app in E. simpl in E. lia.
  - intros E. apply (f_equal length) in E. rewrite length_app in E. simpl in E. lia.
Qed.

Lemma Join_elem dir e :
  "/"%char ∉ e -> e <> [] -> e <> str "." -> e <> str ".." ->
  filepath.Join dir e = dir ++ [e].
Proof.
  intros H0 H1 H2 H3. unfold filepath.Join. rewrite splitElems_noslash by done.
  simpl. by apply cleanStep_elem.
Qed.

Lemma Join_shortcutMarkerFile dir :
  filepath.Join dir shortcutMarkerFile = dir ++ [shortcutMarkerFile].
Proof. reflexivity. Qed.

Lemma Join_media dir : filepath.Join dir (str ".media") = dir ++ [str ".media"].
Proof. reflexivity. Qed.

Lemma Join_bg dir : filepath.Join dir (str "bg.png") = dir ++ [str "bg.png"].
Proof. reflexivity. Qed.

Lemma Join_target dir : filepath.Join dir (str "target") = dir ++ [str "target"].
Proof. reflexivity. Qed.

Lemma Base_snoc dir e : filepath.Base (dir ++ [e]) = e.
Proof. unfold filepath.Base. apply last_last. Qed.

Lemma snoc_ne_last {A} (p q : list A) (a b : A) : a <> b -> p ++ [a] <> q ++ [b].
Proof. intros Hne E. apply app_inj_tail in E as [_ E]. done. Qed.

(** A folder name has no slash when the display name and the tag have
    none, and it is a proper path element. *)
Lemma buildFolderName_noslash pos d t :
  "/"%char ∉ d -> "/"%char ∉ t -> "/"%char ∉ buildFolderName pos d t.
Proof.
  intros Hd Ht. unfold buildFolderName.
  destruct pos; cbn; set_solver.
Qed.

Lemma buildFolderName_last pos d t :
  exists x, buildFolderName pos d t = x ++ [")"%char].
Proof.
  unfold buildFolderName. destruct pos.
  - exists (shortcutPrefix ++ d ++ str " (" ++ t). by rewrite <- !app_assoc.
  - exists (topPrefix ++ d ++ str " (" ++ t). by rewrite <- !app_assoc.
  - exists (d ++ str " (" ++ t). by rewrite <- !app_assoc.
Qed.

Lemma Join_buildFolderName dir pos d t :
  "/"%char ∉ d -> "/"%char ∉ t ->
  filepath.Join dir (buildFolderName pos d t) = dir ++ [buildFolderName pos d t].
Proof.
  intros Hd Ht. destruct (buildFolderName_last pos d t) as [x Hx].
  apply Join_elem; [by apply buildFolderName_noslash|..]; rewrite Hx.
  - by destruct x.
  - intros E. apply (f_equal (@rev ascii)) in E. rewrite rev_app_distr in E.
    discriminate E.
  - intros E. apply (f_equal (@rev ascii)) in E. rewrite rev_app_distr in E.
    discriminate E.
Qed.

End PathFacts.

(** * The file system in memory *)

Section MemfsFacts.

Implicit Types (fs : memfs.t) (p k done : path) (n : memfs.node).

Lemma keeps_refl e fs : memfs.keeps e fs fs.
Proof. split; [done|]. intros k n Hk _. done. Qed.

Lemma keeps_trans e1 e2 fs1 fs2 fs3 :
  memfs.keeps e1 fs1 fs2 -> memfs.keeps e2 fs2 fs3 ->
  memfs.keeps (e1 ++ e2) fs1 fs3.
Proof.
  intros [Hd1 H1] [Hd2 H2]. split; [congruence|].
  intros k n Hk Hn. apply H2; [apply H1; [done|]|]; set_solver.
Qed.

Lemma keeps_weaken e e' fs fs' :
  e ⊆ e' -> memfs.keeps e fs fs' -> memfs.keeps e' fs fs'.
Proof.
  intros Hsub [Hd H]. split; [done|].
  intros k n Hk Hn. apply H; [done|]. set_solver.
Qed.

Lemma keeps_dir e fs fs' p :
  memfs.keeps e fs fs' ->
  memfs.nodeAt fs p = Some memfs.Dir -> memfs.nodeAt fs' p = Some memfs.Dir.
Proof.
  intros [_ H]. destruct p as [|x p]; [done|]. simpl.
  intros Hp. apply H; [done|by left].
Qed.

Lemma keeps_file e fs fs' p data :
  memfs.keeps e fs fs' -> p ∉ e ->
  memfs.nodes fs !! p = Some (memfs.File data) ->
  memfs.nodes fs' !! p = Some (memfs.File data).
Proof. intros [_ H] Hp Hn. apply H; [done|by right]. Qed.

Lemma keeps_exists e fs fs' p :
  memfs.keeps e fs fs' -> p ∉ e ->
  is_Some (memfs.nodeAt fs p) -> is_Some (memfs.nodeAt fs' p).
Proof.
  intros [_ H] Hp. destruct p as [|x p]; [done|]. simpl.
  intros [n Hn]. exists n. apply H; [done|by right].
Qed.

Lemma put_keeps_fresh p n fs :
  memfs.nodes fs !! p = None -> memfs.keeps [] fs (memfs.put p n fs).
Proof.
  intros Hp. split; [done|]. intros k m Hk _. simpl.
  rewrite lookup_insert_ne; [done|]. intros ->. congruence.
Qed.

Lemma put_keeps_file p n fs :
  memfs.nodes fs !! p <> Some memfs.Dir -> memfs.keeps [p] fs (memfs.put p n fs).
Proof.
  intros Hp. split; [done|]. intros k m Hk Hm. simpl.
  rewrite lookup_insert_ne; [done|]. intros ->.
  destruct Hm as [->|Hm]; [done|]. set_solver.
Qed.

Lemma mkdirAllFrom_keeps done rest fs :
  memfs.keeps [] fs (snd (memfs.mkdirAllFrom done rest fs)).
Proof.
  revert done fs. induction rest as [|e rest IH]; intros done fs; simpl.
  - apply keeps_refl.
  - destruct (memfs.nodes fs !! (done ++ [e])) as [[d|]|] eqn:E.
    + apply keeps_refl.
    + apply IH.
    + case_bool_decide; [apply keeps_refl|].
      apply (keeps_trans [] [] fs (memfs.put (done ++ [e]) memfs.Dir fs));
        [by apply put_keeps_fresh|apply IH].
Qed.

Lemma MkdirAll_keeps p fs : memfs.keeps [] fs (snd (memfs.MkdirAll p fs)).
Proof. apply mkdirAllFrom_keeps. Qed.

Lemma mkdirAllFrom_ok done rest fs fs' :
  memfs.mkdirAllFrom done rest fs = (None, fs') ->
  memfs.nodeAt fs done = Some memfs.Dir ->
  memfs.nodeAt fs' (done ++ rest) = Some memfs.Dir.
Proof.
  revert done fs. induction rest as [|e rest IH]; intros done fs; simpl.
  - intros [= <-]. by rewrite app_nil_r.
  - intros H Hd. replace (done ++ e :: rest) with ((done ++ [e]) ++ rest)
      by (by rewrite <- app_assoc).
    destruct (memfs.nodes fs !! (done ++ [e])) as [[d|]|] eqn:E; [done| |].
    + apply (IH _ _ H). by destruct done.
    + case_bool_decide; [done|]. apply (IH _ _ H).
      destruct done; simpl; apply lookup_insert_eq.
Qed.

Lemma MkdirAll_ok p fs fs' :
  memfs.MkdirAll p fs = (None, fs') -> memfs.nodeAt fs' p = Some memfs.Dir.
Proof. intros H. by apply (mkdirAllFrom_ok [] p fs fs'). Qed.

Lemma WriteFile_keeps p data fs :
  memfs.keeps [p] fs (snd (memfs.WriteFile p data fs)).
Proof.
  unfold memfs.WriteFile. case_bool_decide; [apply keeps_refl|].
  destruct (memfs.nodeAt fs (removelast p)) as [[d|]|]; try apply keeps_refl.
  destruct (memfs.nodeAt fs p) as [[d|]|] eqn:E; try apply keeps_refl;
    simpl; apply put_keeps_file; destruct p; simpl in E; congruence.
Qed.

Lemma WriteFile_ok p data fs fs' :
  memfs.WriteFile p data fs = (None, fs') ->
  memfs.nodes fs' !! p = Some (memfs.File data).
Proof.
  unfold memfs.WriteFile. case_bool_decide; [done|].
  destruct (memfs.nodeAt fs (removelast p)) as [[d|]|]; try done.
  destruct (memfs.nodeAt fs p) as [[d|]|] eqn:E; try done;
    intros [= <-]; simpl; apply lookup_insert_eq.
Qed.

(** A write fails only where the system refuses it, where the parent is
    no directory, or where a directory is in the way. *)
Lemma WriteFile_fails p data fs err fs' :
  memfs.WriteFile p data fs = (Some err, fs') ->
  p ∈ memfs.denied fs
  \/ memfs.nodeAt fs (removelast p) <> Some memfs.Dir
  \/ memfs.nodeAt fs p = Some memfs.Dir.
Proof.
  unfold memfs.WriteFile. case_bool_decide; [by left|].
  destruct (memfs.nodeAt fs (removelast p)) as [[d|]|]; [by right; left| |by right; left].
  destruct (memfs.nodeAt fs p) as [[d|]|] eqn:E; try done. by right; right.
Qed.

Lemma Write_keeps p data fs : memfs.keeps [p] fs (snd (memfs.Write p data fs)).
Proof.
  unfold memfs.Write.
  destruct (memfs.nodeAt fs p) as [[d|]|] eqn:E; try apply keeps_refl.
  case_bool_decide; [apply keeps_refl|]. simpl.
  apply put_keeps_file. destruct p; simpl in E; congruence.
Qed.

Lemma Write_ok p data fs old :
  memfs.nodes fs !! p = Some (memfs.File old) -> p <> [] ->
  p ∉ memfs.denied fs ->
  memfs.Write p data fs = (None, memfs.put p (memfs.File (old ++ data)) fs).
Proof.
  intros Hp Hne Hd. unfold memfs.Write.
  destruct p as [|x p]; [done|]. simpl. rewrite Hp.
  by rewrite bool_decide_eq_false_2.
Qed.

Lemma Stat_None p fs : memfs.Stat p fs = None <-> is_Some (memfs.nodeAt fs p).
Proof.
  unfold memfs.Stat. destruct (memfs.nodeAt fs p); split; done.
Qed.

End MemfsFacts.

(** * The writer on the file system in memory *)

Section WriterFacts.

Context {ext : Extern} (env : Env).

Implicit Types (fs : memfs.t) (p dest : path).

(** The artwork step touches nothing but [.media/bg.png] below the
    shortcut folder. *)
Lemma generateArtworkBg_keeps artSrc dest useGlobalBg forceBlack fs :
  memfs.keeps [dest ++ [str ".media"; str "bg.png"]] fs
    (generateArtworkBg env artSrc dest useGlobalBg forceBlack fs).
Proof.
  unfold generateArtworkBg.
  destruct (match os_Stat artSrc fs with
            | Some _ => _ | None => _ end) as [artImg|]; [|apply keeps_refl].
  destruct (screenDimensions env) as [screenW screenH].
  match goal with
  | |- context [os_Write _ (png_Encode ?c)] => generalize c; intros canvas
  end.
  rewrite Join_media, Join_bg, <- app_assoc.
  change ([str ".media"] ++ [str "bg.png"]) with [str ".media"; str "bg.png"].
  set (bg := dest ++ [str ".media"; str "bg.png"]).
  pose proof (MkdirAll_keeps (dest ++ [str ".media"]) fs) as H1.
  change (os_MkdirAll (dest ++ [str ".media"]) fs)
    with (memfs.MkdirAll (dest ++ [str ".media"]) fs).
  destruct (memfs.MkdirAll (dest ++ [str ".media"]) fs) as [[e|] fs1];
    cbn [snd] in H1; [eapply keeps_weaken; [|apply H1]; set_solver|].
  pose proof (WriteFile_keeps bg [] fs1) as H2.
  change (os_Create bg fs1) with (memfs.WriteFile bg [] fs1).
  destruct (memfs.WriteFile bg [] fs1) as [[e|] fs2]; cbn [snd] in H2.
  - eapply keeps_weaken; [|eapply keeps_trans; [apply H1|apply H2]]. set_solver.
  - pose proof (Write_keeps bg (png_Encode canvas) fs2) as H3.
    change (os_Write bg (png_Encode canvas) fs2)
      with (memfs.Write bg (png_Encode canvas) fs2).
    eapply keeps_weaken;
      [|eapply keeps_trans; [apply H1|eapply keeps_trans; [apply H2|apply H3]]].
    set_solver.
Qed.

(** What a successful [createROMShortcut] has done. *)
Lemma createROMShortcut_steps d t console rom pos settings fs fs' :
  createROMShortcut env d t console rom pos settings fs = (None, fs') ->
  let folderName := buildFolderName pos d t in
  let folderPath := filepath.Join (romsDir env) folderName in
  exists fs1 fs2,
    memfs.MkdirAll folderPath fs = (None, fs1)
    /\ memfs.WriteFile (filepath.Join folderPath (folderName ++ str ".m3u"))
         (createROMShortcut_relPath console rom) fs1 = (None, fs2)
    /\ memfs.keeps [folderPath ++ [str ".media"; str "bg.png"]]
         (snd (memfs.WriteFile (folderPath ++ [shortcutMarkerFile]) d fs2)) fs'.
Proof.
  intros H folderName folderPath. unfold createROMShortcut in H.
  fold folderName folderPath in H.
  change (os_MkdirAll folderPath fs) with (memfs.MkdirAll folderPath fs) in H.
  destruct (memfs.MkdirAll folderPath fs) as [[e|] fs1]; [done|].
  match type of H with
  | context [os_WriteFile ?p ?c fs1] =>
      change (os_WriteFile p c fs1) with (memfs.WriteFile p c fs1) in H;
      destruct (memfs.WriteFile p c fs1) as [[e|] fs2] eqn:E2; [done|]
  end.
  exists fs1, fs2. split; [done|]. split; [done|].
  injection H as <-. unfold writeShortcutMarker. rewrite Join_shortcutMarkerFile.
  change (os_WriteFile (folderPath ++ [shortcutMarkerFile]) d fs2)
    with (memfs.WriteFile (folderPath ++ [shortcutMarkerFile]) d fs2).
  destruct (AppSettings.CopyArtwork settings);
    [apply generateArtworkBg_keeps|apply keeps_refl].
Qed.

Lemma createToolShortcut_steps d pak pos settings fs fs' :
  createToolShortcut env d pak pos settings fs = (None, fs') ->
  let folderName := buildFolderName pos d bridgeEmuTag in
  let folderPath := filepath.Join (romsDir env) folderName in
  exists fs1 fs2 fs3,
    memfs.MkdirAll folderPath fs = (None, fs1)
    /\ memfs.WriteFile (folderPath ++ [str "target"]) pak fs1 = (None, fs2)
    /\ memfs.WriteFile (filepath.Join folderPath (folderName ++ str ".m3u"))
         (str "target") fs2 = (None, fs3)
    /\ memfs.keeps [folderPath ++ [str ".media"; str "bg.png"]]
         (snd (memfs.WriteFile (folderPath ++ [shortcutMarkerFile]) d fs3)) fs'.
Proof.
  intros H folderName folderPath. unfold createToolShortcut in H.
  fold folderName folderPath in H.
  change (os_MkdirAll folderPath fs) with (memfs.MkdirAll folderPath fs) in H.
  destruct (memfs.MkdirAll folderPath fs) as [[e|] fs1]; [done|].
  rewrite Join_target in H.
  change (os_WriteFile (folderPath ++ [str "target"]) pak fs1)
    with (memfs.WriteFile (folderPath ++ [str "target"]) pak fs1) in H.
  destruct (memfs.WriteFile (folderPath ++ [str "target"]) pak fs1)
    as [[e|] fs2] eqn:E2; [done|].
  match type of H with
  | context [os_WriteFile ?p ?c fs2] =>
      change (os_WriteFile p c fs2) with (memfs.WriteFile p c fs2) in H;
      destruct (memfs.WriteFile p c fs2) as [[e|] fs3] eqn:E3; [done|]
  end.
  exists fs1, fs2, fs3. do 3 (split; [done|]).
  injection H as <-. unfold writeShortcutMarker. rewrite Join_shortcutMarkerFile.
  change (os_WriteFile (folderPath ++ [shortcutMarkerFile]) d fs3)
    with (memfs.WriteFile (folderPath ++ [shortcutMarkerFile]) d fs3).
  destruct (AppSettings.CopyArtwork settings);
    [apply generateArtworkBg_keeps|apply keeps_refl].
Qed.

End WriterFacts.

(** * Detection of shortcut folders, existence and pointer files *)

Section DetectionFacts.

Context {FS : Type} {os : OS FS}.

Implicit Types (fs : FS) (dir : path) (name d t : gostring).

Lemma isShortcutFolder_marked dir name fs :
  strings.HasPrefix name shortcutPrefix
  || strings.HasPrefix name legacyShortcutPrefix = true ->
  isShortcutFolder (dir ++ [name]) fs = true.
Proof. intros H. unfold isShortcutFolder. by rewrite Base_snoc, H. Qed.

Lemma isShortcutFolder_stat p fs :
  os_Stat (p ++ [shortcutMarkerFile]) fs = None -> isShortcutFolder p fs = true.
Proof.
  intros H. unfold isShortcutFolder. rewrite Join_shortcutMarkerFile, H.
  by destruct (_ || _).
Qed.

Lemma isShortcutFolder_plain dir name fs :
  strings.HasPrefix name shortcutPrefix = false ->
  strings.HasPrefix name legacyShortcutPrefix = false ->
  os_Stat (dir ++ [name; shortcutMarkerFile]) fs <> None ->
  isShortcutFolder (dir ++ [name]) fs = false.
Proof.
  intros H1 H2 H3. unfold isShortcutFolder.
  rewrite Base_snoc, H1, H2, Join_shortcutMarkerFile, <- app_assoc. simpl.
  by destruct (os_Stat _ fs).
Qed.

End DetectionFacts.

(** A name with a tag is a proper path element. *)
Lemma extractTag_elem name :
  extractTag name <> [] -> name <> [] /\ name <> str "." /\ name <> str "..".
Proof. intros H. repeat split; intros ->; by apply H. Qed.

Lemma m3u_name_ne l :
  l ++ str ".m3u" <> shortcutMarkerFile
  /\ l ++ str ".m3u" <> str "bg.png"
  /\ l ++ str ".m3u" <> str "target".
Proof.
  repeat split; intros E; apply (f_equal (@rev ascii)) in E;
    rewrite rev_app_distr in E; discriminate E.
Qed.

Section ExistenceFacts.

Context {ext : Extern} (env : Env).

Implicit Types (fs : memfs.t) (d t : gostring).

Lemma nodeAt_snoc fs p e : memfs.nodeAt fs (p ++ [e]) = memfs.nodes fs !! (p ++ [e]).
Proof. by destruct p. Qed.

Lemma WriteFile_err p data fs err fs' :
  memfs.WriteFile p data fs = (Some err, fs') -> fs' = fs.
Proof.
  unfold memfs.WriteFile. case_bool_decide; [by intros [= _ <-]|].
  destruct (memfs.nodeAt fs (removelast p)) as [[?|]|]; try by intros [= _ <-].
  destruct (memfs.nodeAt fs p) as [[?|]|]; try done; by intros [= _ <-].
Qed.

(** After the marker has been tried in a folder that is a directory, there
    is something at the marker's path unless the system refused it. *)
Lemma marker_present p d fs :
  memfs.nodeAt fs p = Some memfs.Dir ->
  p ++ [shortcutMarkerFile] ∉ memfs.denied fs ->
  is_Some (memfs.nodeAt (snd (memfs.WriteFile (p ++ [shortcutMarkerFile]) d fs))
             (p ++ [shortcutMarkerFile])).
Proof.
  intros Hp Hd.
  destruct (memfs.WriteFile (p ++ [shortcutMarkerFile]) d fs) as [[e|] fs'] eqn:E.
  - pose proof (WriteFile_err _ _ _ _ _ E) as ->. simpl.
    apply WriteFile_fails in E as [?|[E|E]]; [done| |by rewrite E].
    rewrite removelast_last in E. done.
  - apply WriteFile_ok in E. simpl. rewrite nodeAt_snoc, E. by eexists.
Qed.

Lemma created_folder_is_dir p fs fs1 e fs' :
  memfs.MkdirAll p fs = (None, fs1) -> memfs.keeps e fs1 fs' ->
  memfs.nodeAt fs' p = Some memfs.Dir.
Proof. intros H1 H2. eapply keeps_dir; [done|]. by eapply MkdirAll_ok. Qed.

Lemma shortcutExists_probe {FS} {os : OS FS} (fs : FS) d t pos :
  os_Stat (filepath.Join (romsDir env) (buildFolderName pos d t)) fs = None ->
  shortcutExists env d t fs = true.
Proof.
  intros H. unfold shortcutExists. apply existsb_exists.
  exists pos. split; [destruct pos; simpl; auto|]. by rewrite H.
Qed.

Lemma shortcutExists_inv {FS} {os : OS FS} (fs : FS) d t :
  shortcutExists env d t fs = true ->
  exists pos,
    os_Stat (filepath.Join (romsDir env) (buildFolderName pos d t)) fs = None.
Proof.
  unfold shortcutExists. intros [pos [_ H]]%existsb_exists. exists pos.
  by destruct (os_Stat _ fs).
Qed.

End ExistenceFacts.

Section WriterTheorems.

Context {ext : Extern} (env : Env).

Implicit Types (fs : memfs.t) (d t : gostring).

Lemma marker_ne_bg (p : path) :
  p ++ [shortcutMarkerFile] ∉ [p ++ [str ".media"; str "bg.png"]].
Proof. intros E%list_elem_of_singleton%app_inv_head. discriminate E. Qed.

Lemma m3u_ne_marker (q p : path) l :
  q ++ [l ++ str ".m3u"] ∉ [p ++ [shortcutMarkerFile]].
Proof.
  intros E%list_elem_of_singleton. revert E. apply snoc_ne_last, m3u_name_ne.
Qed.

Lemma m3u_ne_bg (q p : path) l :
  q ++ [l ++ str ".m3u"] ∉ [p ++ [str ".media"; str "bg.png"]].
Proof.
  intros E%list_elem_of_singleton. revert E.
  change (p ++ [str ".media"; str "bg.png"])
    with (p ++ [str ".media"] ++ [str "bg.png"]).
  rewrite app_assoc. apply snoc_ne_last, m3u_name_ne.
Qed.

Lemma ReadFile_file fs (q : path) e data :
  memfs.nodes fs !! (q ++ [e]) = Some (memfs.File data) ->
  memfs.ReadFile (q ++ [e]) fs = inr data.
Proof. intros H. unfold memfs.ReadFile. by rewrite nodeAt_snoc, H. Qed.

(** The state reached by a successful [createROMShortcut]: the folder is a
    directory, the pointer file holds the relative path, and the marker is
    there unless the system refused it. *)
Lemma createROMShortcut_result d t console rom pos settings fs fs' :
  createROMShortcut env d t console rom pos settings fs = (None, fs') ->
  let folderName := buildFolderName pos d t in
  let folderPath := filepath.Join (romsDir env) folderName in
  memfs.nodeAt fs' folderPath = Some memfs.Dir
  /\ memfs.ReadFile (filepath.Join folderPath (folderName ++ str ".m3u")) fs'
     = inr (createROMShortcut_relPath console rom)
  /\ (folderPath ++ [shortcutMarkerFile] ∉ memfs.denied fs ->
      is_Some (memfs.nodeAt fs' (folderPath ++ [shortcutMarkerFile]))).
Proof.
  intros H folderName folderPath.
  destruct (createROMShortcut_steps env _ _ _ _ _ _ _ _ H)
    as (fs1 & fs2 & H1 & H2 & H3).
  fold folderName folderPath in H1, H2, H3.
  pose proof (MkdirAll_keeps folderPath fs) as K1. rewrite H1 in K1.
  pose proof (WriteFile_keeps
                (filepath.Join folderPath (folderName ++ str ".m3u"))
                (createROMShortcut_relPath console rom) fs1) as K2.
  rewrite H2 in K2. cbn [snd] in K1, K2.
  pose proof (WriteFile_keeps (folderPath ++ [shortcutMarkerFile]) d fs2) as K3.
  assert (Hdir2 : memfs.nodeAt fs2 folderPath = Some memfs.Dir)
    by (eapply created_folder_is_dir; [apply H1|apply K2]).
  split; [|split].
  - eapply keeps_dir; [apply H3|]. eapply keeps_dir; [apply K3|done].
  - destruct (Join_suffix folderPath folderName (str ".m3u")) as (q & l & Eq);
      [set_solver|simpl; lia|].
    rewrite Eq in *. apply ReadFile_file.
    eapply keeps_file; [apply H3|apply m3u_ne_bg|].
    eapply keeps_file; [apply K3|apply m3u_ne_marker|].
    by eapply WriteFile_ok.
  - intros Hden. eapply keeps_exists; [apply H3|apply marker_ne_bg|].
    apply marker_present; [done|].
    destruct K1 as [E1 _], K2 as [E2 _]. by rewrite E2, E1.
Qed.

Lemma createToolShortcut_result d pak pos settings fs fs' :
  createToolShortcut env d pak pos settings fs = (None, fs') ->
  let folderName := buildFolderName pos d bridgeEmuTag in
  let folderPath := filepath.Join (romsDir env) folderName in
  memfs.nodeAt fs' folderPath = Some memfs.Dir
  /\ memfs.ReadFile (filepath.Join folderPath (folderName ++ str ".m3u")) fs'
     = inr (str "target")
  /\ memfs.ReadFile (filepath.Join folderPath (str "target")) fs' = inr pak
  /\ (folderPath ++ [shortcutMarkerFile] ∉ memfs.denied fs ->
      is_Some (memfs.nodeAt fs' (folderPath ++ [shortcutMarkerFile]))).
Proof.
  intros H folderName folderPath.
  destruct (createToolShortcut_steps env _ _ _ _ _ _ H)
    as (fs1 & fs2 & fs3 & H1 & H2 & H3 & H4).
  fold folderName folderPath in H1, H2, H3, H4.
  pose proof (MkdirAll_keeps folderPath fs) as K1. rewrite H1 in K1.
  pose proof (WriteFile_keeps (folderPath ++ [str "target"]) pak fs1) as K2.
  rewrite H2 in K2.
  pose proof (WriteFile_keeps
                (filepath.Join folderPath (folderName ++ str ".m3u"))
                (str "target") fs2) as K3.
  rewrite H3 in K3.
  cbn [snd] in K1, K2, K3.
  pose proof (WriteFile_keeps (folderPath ++ [shortcutMarkerFile]) d fs3) as K4.
  assert (Hdir3 : memfs.nodeAt fs3 folderPath = Some memfs.Dir).
  { eapply keeps_dir; [apply K3|]. eapply created_folder_is_dir; [apply H1|apply K2]. }
  destruct (Join_suffix folderPath folderName (str ".m3u")) as (q & l & Eq);
    [set_solver|simpl; lia|].
  rewrite Eq in *.
  split; [|split; [|split]].
  - eapply keeps_dir; [apply H4|]. eapply keeps_dir; [apply K4|done].
  - apply ReadFile_file.
    eapply keeps_file; [apply H4|apply m3u_ne_bg|].
    eapply keeps_file; [apply K4|apply m3u_ne_marker|].
    by eapply WriteFile_ok.
  - rewrite Join_target. apply ReadFile_file.
    eapply keeps_file; [apply H4| |].
    { intros E%list_elem_of_singleton. revert E.
      change (folderPath ++ [str ".media"; str "bg.png"])
        with (folderPath ++ [str ".media"] ++ [str "bg.png"]).
      rewrite app_assoc. by apply snoc_ne_last. }
    eapply keeps_file; [apply K4| |].
    { intros E%list_elem_of_singleton. revert E. by apply snoc_ne_last. }
    eapply keeps_file; [apply K3| |].
    { intros E%list_elem_of_singleton. symmetry in E. revert E.
      apply snoc_ne_last, m3u_name_ne. }
    by eapply WriteFile_ok.
  - intros Hden. eapply keeps_exists; [apply H4|apply marker_ne_bg|].
    apply marker_present; [done|].
    destruct K1 as [E1 _], K2 as [E2 _], K3 as [E3 _]. by rewrite E3, E2, E1.
Qed.

End WriterTheorems.

(** * The claims about the codec *)

(** C1, as amended.  For a display name without white space at its ends
    that begins neither with U+FEFF nor with the legacy prefix, and a tag
    without "(" and without white space at its ends: [extractTag] reads the
    tag back at every position; the display name [scanShortcuts] derives
    from the folder name is the original one at the Bottom and at the
    Alphabetical position; the marker file written at creation reads back
    as the display name; and the three positions give three different
    folder names, so that the name determines the position. *)
Theorem buildFolderName_roundtrip (d t : gostring) :
  strings.TrimSpace d = d ->
  strings.HasPrefix d shortcutPrefix = false ->
  strings.HasPrefix d legacyShortcutPrefix = false ->
  strings.TrimSpace t = t ->
  "("%char ∉ t ->
  (forall pos, extractTag (buildFolderName pos d t) = t)
  /\ displayFromName (buildFolderName ShortcutPositionBottom d t) = d
  /\ displayFromName (buildFolderName ShortcutPositionAlpha d t) = d
  /\ (forall (fs fs' : memfs.t) (folderPath : path),
        writeShortcutMarker folderPath d fs = (None, fs') ->
        readShortcutMarker folderPath fs' = d)
  /\ (forall pos pos',
        buildFolderName pos' d t = buildFolderName pos d t -> pos' = pos).
Proof.
  intros Hd Hcur Hleg Ht Hp. repeat split.
  - intros pos. unfold buildFolderName. destruct pos.
    + rewrite (app_assoc shortcutPrefix). by apply extractTag_encoded.
    + rewrite (app_assoc topPrefix). by apply extractTag_encoded.
    + by apply extractTag_encoded.
  - by apply displayFromName_bottom.
  - by apply displayFromName_alpha.
  - intros fs fs' folderPath H. unfold writeShortcutMarker in H.
    unfold readShortcutMarker. rewrite Join_shortcutMarkerFile in *.
    apply WriteFile_ok in H.
    change (os_ReadFile (folderPath ++ [shortcutMarkerFile]) fs')
      with (memfs.ReadFile (folderPath ++ [shortcutMarkerFile]) fs').
    by rewrite (ReadFile_file _ _ _ _ H).
  - intros pos pos'. apply buildFolderName_position.
Qed.

Lemma buildFolderName_roundtrip_witness :
  (forall pos, extractTag (buildFolderName pos (str "Battletoads") (str "MD"))
               = str "MD")
  /\ displayFromName
       (buildFolderName ShortcutPositionBottom (str "Battletoads") (str "MD"))
     = str "Battletoads"
  /\ displayFromName
       (buildFolderName ShortcutPositionAlpha (str "Battletoads") (str "MD"))
     = str "Battletoads"
  /\ (forall (fs fs' : memfs.t) (folderPath : path),
        writeShortcutMarker folderPath (str "Battletoads") fs = (None, fs') ->
        readShortcutMarker folderPath fs' = str "Battletoads")
  /\ (forall pos pos',
        buildFolderName pos' (str "Battletoads") (str "MD")
        = buildFolderName pos (str "Battletoads") (str "MD") -> pos' = pos).
Proof.
  apply (buildFolderName_roundtrip (str "Battletoads") (str "MD"));
    try reflexivity.
  intros H. vm_compute in H. set_unfold. intuition discriminate.
Defined.

(** C1 fails as it is written: at the Top position the name derived from
    the folder name keeps the sort prefix, and a tag that holds a "(" is
    cut at it. *)
Lemma buildFolderName_roundtrip_counterexample :
  displayFromName
    (buildFolderName ShortcutPositionTop (str "Battletoads") (str "MD"))
  = str "0) Battletoads"
  /\ displayFromName
       (buildFolderName ShortcutPositionTop (str "Battletoads") (str "MD"))
     <> str "Battletoads"
  /\ extractTag
       (buildFolderName ShortcutPositionBottom (str "Battletoads") (str "M(D"))
     = str "D"
  /\ extractTag
       (buildFolderName ShortcutPositionBottom (str "Battletoads") (str "M(D"))
     <> str "M(D".
Proof. repeat split; vm_compute; congruence. Qed.

(** C2, as amended.  The fallback of [scanShortcuts] strips the current
    marker U+FEFF first and the legacy star prefix second, each if it is
    there; these two are the prefixes [isShortcutFolder] knows.  A name of
    the current generation and a name of the legacy generation give back
    the display name and the tag, a name that carries both prefixes loses
    both, and both kinds of folder are shortcuts whatever the file system
    holds. *)
Theorem prior_generations_decode (d t : gostring) :
  strings.TrimSpace d = d -> d <> [] ->
  strings.HasPrefix d shortcutPrefix = false ->
  strings.HasPrefix d legacyShortcutPrefix = false ->
  strings.TrimSpace t = t ->
  "("%char ∉ t ->
  (displayFromName (buildFolderName ShortcutPositionBottom d t) = d
   /\ extractTag (buildFolderName ShortcutPositionBottom d t) = t)
  /\ (displayFromName (legacyFolderName d t) = d
      /\ extractTag (legacyFolderName d t) = t)
  /\ displayFromName (shortcutPrefix ++ legacyFolderName d t) = d
  /\ (forall (FS : Type) (os : OS FS) (fs : FS) (dir : path),
        isShortcutFolder (dir ++ [buildFolderName ShortcutPositionBottom d t]) fs
        = true
        /\ isShortcutFolder (dir ++ [legacyFolderName d t]) fs = true).
Proof.
  intros Hd Hne Hcur Hleg Ht Hp. repeat split.
  - by apply displayFromName_bottom.
  - unfold buildFolderName. rewrite (app_assoc shortcutPrefix).
    by apply extractTag_encoded.
  - by apply displayFromName_legacy.
  - unfold legacyFolderName. rewrite (app_assoc legacyShortcutPrefix).
    by apply extractTag_encoded.
  - unfold displayFromName, legacyFolderName.
    replace (shortcutPrefix ++ legacyShortcutPrefix ++ d ++ str " (" ++ t ++ str ")")
      with (((shortcutPrefix ++ legacyShortcutPrefix) ++ d) ++ str " (" ++ t ++ str ")")
      by (by rewrite <- !app_assoc).
    rewrite extractDisplayName_encoded by done.
    rewrite TrimSpace_prefixed; [|done|done|done|reflexivity|].
    + rewrite <- (app_assoc shortcutPrefix), TrimPrefix_app.
      by rewrite TrimPrefix_app.
    + intros c Hc. cbn in Hc. set_unfold. by destruct Hc as [->|[->|[]]].
  - apply isShortcutFolder_marked. unfold buildFolderName.
    by rewrite HasPrefix_app.
  - apply isShortcutFolder_marked. unfold legacyFolderName.
    rewrite HasPrefix_app. apply orb_true_r.
Qed.

Lemma prior_generations_decode_witness :
  (displayFromName
     (buildFolderName ShortcutPositionBottom (str "Battletoads") (str "MD"))
   = str "Battletoads"
   /\ extractTag
        (buildFolderName ShortcutPositionBottom (str "Battletoads") (str "MD"))
      = str "MD")
  /\ (displayFromName (legacyFolderName (str "Battletoads") (str "MD"))
      = str "Battletoads"
      /\ extractTag (legacyFolderName (str "Battletoads") (str "MD")) = str "MD")
  /\ displayFromName
       (shortcutPrefix ++ legacyFolderName (str "Battletoads") (str "MD"))
     = str "Battletoads"
  /\ (forall (FS : Type) (os : OS FS) (fs : FS) (dir : path),
        isShortcutFolder
          (dir ++ [buildFolderName ShortcutPositionBottom
                     (str "Battletoads") (str "MD")]) fs = true
        /\ isShortcutFolder
             (dir ++ [legacyFolderName (str "Battletoads") (str "MD")]) fs
           = true).
Proof.
  apply (prior_generations_decode (str "Battletoads") (str "MD"));
    try reflexivity.
  - discriminate.
  - intros H. vm_compute in H. set_unfold. intuition discriminate.
Defined.

(** C2 fails as it is written: no deprecated invisible marker is among the
    prefixes.  A folder named with U+200B whose marker file is missing is
    not taken for a shortcut, so that [scanShortcuts] does not list it, and
    the name derived from it keeps the U+200B. *)
Lemma prior_generations_counterexample :
  isShortcutFolder
    (romsPath ++ [zeroWidthSpace ++ str "Battletoads (MD)"]) sdcardZWS = false
  /\ fst (scanShortcuts (ext := refExtern) deviceEnv sdcardZWS) = []
  /\ displayFromName (zeroWidthSpace ++ str "Battletoads (MD)")
     = zeroWidthSpace ++ str "Battletoads"
  /\ displayFromName (zeroWidthSpace ++ str "Battletoads (MD)")
     <> str "Battletoads".
Proof. repeat split; vm_compute; congruence. Qed.

(** * The claims about detection, existence, errors and pointer files *)

Lemma pair_fst {A B : Type} (x : A * B) (a : A) : fst x = a -> x = (a, snd x).
Proof. intros <-. by destruct x. Qed.

(** C3.  A directory whose name has a parenthesized tag and none of the two
    marker prefixes, and which holds no [.shortcut] file, is not taken for
    a shortcut.  A folder named by [buildFolderName] for the Bottom
    position is taken for one by its prefix alone, whatever the file system
    holds.  A folder created by [createROMShortcut] or [createToolShortcut]
    at any position is taken for one through the marker file written at
    creation, provided the system did not refuse that file. *)
Theorem isShortcutFolder_detects {ext : Extern} (env : Env) :
  (forall (FS : Type) (os : OS FS) (fs : FS) (dir : path) (name : gostring),
     "/"%char ∉ name -> extractTag name <> [] ->
     strings.HasPrefix name shortcutPrefix = false ->
     strings.HasPrefix name legacyShortcutPrefix = false ->
     os_Stat (filepath.Join (filepath.Join dir name) shortcutMarkerFile) fs
       <> None ->
     isShortcutFolder (filepath.Join dir name) fs = false)
  /\ (forall (FS : Type) (os : OS FS) (fs : FS) (d t : gostring),
        "/"%char ∉ d -> "/"%char ∉ t ->
        isShortcutFolder
          (filepath.Join (romsDir env)
             (buildFolderName ShortcutPositionBottom d t)) fs = true)
  /\ (forall (fs fs' : memfs.t) d t console rom pos settings,
        createROMShortcut env d t console rom pos settings fs = (None, fs') ->
        filepath.Join (filepath.Join (romsDir env) (buildFolderName pos d t))
          shortcutMarkerFile ∉ memfs.denied fs ->
        isShortcutFolder
          (filepath.Join (romsDir env) (buildFolderName pos d t)) fs' = true)
  /\ (forall (fs fs' : memfs.t) d pak pos settings,
        createToolShortcut env d pak pos settings fs = (None, fs') ->
        filepath.Join
          (filepath.Join (romsDir env) (buildFolderName pos d bridgeEmuTag))
          shortcutMarkerFile ∉ memfs.denied fs ->
        isShortcutFolder
          (filepath.Join (romsDir env) (buildFolderName pos d bridgeEmuTag)) fs'
        = true).
Proof.
  split; [|split; [|split]].
  - intros FS os fs dir name Hs Htag H1 H2 Hst.
    destruct (extractTag_elem name Htag) as (E1 & E2 & E3).
    rewrite (Join_elem dir name) in * by done.
    apply isShortcutFolder_plain; [done|done|].
    rewrite Join_shortcutMarkerFile in Hst. by rewrite <- app_assoc in Hst.
  - intros FS os fs d t Hd Ht. rewrite Join_buildFolderName by done.
    apply isShortcutFolder_marked. unfold buildFolderName.
    by rewrite HasPrefix_app.
  - intros fs fs' d t console rom pos settings H Hden.
    destruct (createROMShortcut_result env _ _ _ _ _ _ _ _ H) as (_ & _ & Hm).
    apply isShortcutFolder_stat.
    change (memfs.Stat
              (filepath.Join (romsDir env) (buildFolderName pos d t)
               ++ [shortcutMarkerFile]) fs' = None).
    apply Stat_None, Hm, Hden.
  - intros fs fs' d pak pos settings H Hden.
    destruct (createToolShortcut_result env _ _ _ _ _ _ H) as (_ & _ & _ & Hm).
    apply isShortcutFolder_stat.
    change (memfs.Stat
              (filepath.Join (romsDir env) (buildFolderName pos d bridgeEmuTag)
               ++ [shortcutMarkerFile]) fs' = None).
    apply Stat_None, Hm, Hden.
Qed.

Lemma isShortcutFolder_detects_witness :
  isShortcutFolder (filepath.Join romsPath (str "Sega Genesis (MD)")) sdcard0
  = false
  /\ isShortcutFolder
       (filepath.Join (romsDir deviceEnv)
          (buildFolderName ShortcutPositionBottom (str "Battletoads") (str "MD")))
       sdcard0 = true
  /\ isShortcutFolder
       (filepath.Join (romsDir deviceEnv)
          (buildFolderName ShortcutPositionTop (str "Battletoads") (str "MD")))
       (snd (createROMShortcut (ext := refExtern) deviceEnv (str "Battletoads")
               (str "MD") (str "Sega Genesis (MD)") battletoads
               ShortcutPositionTop noArtwork sdcard0)) = true
  /\ isShortcutFolder
       (filepath.Join (romsDir deviceEnv)
          (buildFolderName ShortcutPositionAlpha (str "SDLReader") bridgeEmuTag))
       (snd (createToolShortcut (ext := refExtern) deviceEnv (str "SDLReader")
               (str "/mnt/SDCARD/Tools/tg5040/SDLReader.pak")
               ShortcutPositionAlpha noArtwork sdcard0)) = true.
Proof.
  destruct (isShortcutFolder_detects (ext := refExtern) deviceEnv)
    as (H1 & H2 & H3 & H4).
  split; [|split; [|split]].
  - apply H1.
    + intros H. vm_compute in H. set_unfold. intuition discriminate.
    + by vm_compute.
    + by vm_compute.
    + by vm_compute.
    + by vm_compute.
  - apply H2; intros H; vm_compute in H; set_unfold; intuition discriminate.
  - eapply (H3 sdcard0).
    + apply pair_fst. by vm_compute.
    + apply not_elem_of_empty.
  - eapply (H4 sdcard0).
    + apply pair_fst. by vm_compute.
    + apply not_elem_of_empty.
Defined.

(** C4.  [shortcutExists] holds exactly when one of the three folder names,
    Bottom, Top or Alphabetical, is there; so after [createROMShortcut] or
    [createToolShortcut] has succeeded at any position it returns true. *)
Theorem shortcutExists_after_create {ext : Extern} (env : Env) (d t : gostring) :
  (forall (FS : Type) (os : OS FS) (fs : FS),
     shortcutExists env d t fs = true <->
     exists pos,
       os_Stat (filepath.Join (romsDir env) (buildFolderName pos d t)) fs = None)
  /\ (forall (fs fs' : memfs.t) console rom pos settings,
        createROMShortcut env d t console rom pos settings fs = (None, fs') ->
        shortcutExists env d t fs' = true)
  /\ (forall (fs fs' : memfs.t) pak pos settings,
        createToolShortcut env d pak pos settings fs = (None, fs') ->
        shortcutExists env d bridgeEmuTag fs' = true).
Proof.
  split; [|split].
  - intros FS os fs. split; [apply shortcutExists_inv|].
    intros [pos H]. by eapply shortcutExists_probe.
  - intros fs fs' console rom pos settings H.
    destruct (createROMShortcut_result env _ _ _ _ _ _ _ _ H) as (Hdir & _).
    apply (shortcutExists_probe env fs' d t pos).
    change (memfs.Stat (filepath.Join (romsDir env) (buildFolderName pos d t)) fs'
            = None).
    apply Stat_None. rewrite Hdir. by eexists.
  - intros fs fs' pak pos settings H.
    destruct (createToolShortcut_result env _ _ _ _ _ _ H) as (Hdir & _).
    apply (shortcutExists_probe env fs' d bridgeEmuTag pos).
    change (memfs.Stat
              (filepath.Join (romsDir env) (buildFolderName pos d bridgeEmuTag)) fs'
            = None).
    apply Stat_None. rewrite Hdir. by eexists.
Qed.

Lemma shortcutExists_after_create_witness :
  shortcutExists deviceEnv (str "Battletoads") (str "MD")
    (snd (createROMShortcut (ext := refExtern) deviceEnv (str "Battletoads")
            (str "MD") (str "Sega Genesis (MD)") battletoads
            ShortcutPositionTop noArtwork sdcard0)) = true
  /\ shortcutExists deviceEnv (str "SDLReader") bridgeEmuTag
       (snd (createToolShortcut (ext := refExtern) deviceEnv (str "SDLReader")
               (str "/mnt/SDCARD/Tools/tg5040/SDLReader.pak")
               ShortcutPositionAlpha noArtwork sdcard0)) = true.
Proof.
  split.
  - eapply (proj1 (proj2 (shortcutExists_after_create (ext := refExtern)
                            deviceEnv (str "Battletoads") (str "MD")))
              sdcard0).
    apply pair_fst. by vm_compute.
  - eapply (proj2 (proj2 (shortcutExists_after_create (ext := refExtern)
                            deviceEnv (str "SDLReader") (str "MD")))
              sdcard0).
    apply pair_fst. by vm_compute.
Defined.

(** C5, as amended.  In [createROMShortcut] and [createToolShortcut] an
    error of the directory creation or of the write of the pointer file (and
    of the [target] file of a tool shortcut) ends the operation at once: the
    error is returned, wrapped, and nothing else is done to the file system.
    When these steps succeed the result is [nil], whatever becomes of the
    marker file and of the artwork.  This holds for every behaviour of the
    operating system. *)
Theorem create_errors {FS : Type} {os : OS FS} {ext : Extern} (env : Env)
    (d t console pak : gostring) (rom : ROMFile.t) (pos : ShortcutPosition)
    (settings : AppSettings.t) (fs : FS) :
  let romFolder := filepath.Join (romsDir env) (buildFolderName pos d t) in
  let romM3u := filepath.Join romFolder (buildFolderName pos d t ++ str ".m3u") in
  let toolFolder :=
    filepath.Join (romsDir env) (buildFolderName pos d bridgeEmuTag) in
  let toolM3u :=
    filepath.Join toolFolder (buildFolderName pos d bridgeEmuTag ++ str ".m3u") in
  let target := filepath.Join toolFolder (str "target") in
  (forall err fs1,
     os_MkdirAll romFolder fs = (Some err, fs1) ->
     createROMShortcut env d t console rom pos settings fs
     = (Some (Errorf "creating shortcut dir" err), fs1))
  /\ (forall fs1 err fs2,
        os_MkdirAll romFolder fs = (None, fs1) ->
        os_WriteFile romM3u (createROMShortcut_relPath console rom) fs1
        = (Some err, fs2) ->
        createROMShortcut env d t console rom pos settings fs
        = (Some (Errorf "writing m3u" err), fs2))
  /\ (forall fs1 fs2,
        os_MkdirAll romFolder fs = (None, fs1) ->
        os_WriteFile romM3u (createROMShortcut_relPath console rom) fs1
        = (None, fs2) ->
        fst (createROMShortcut env d t console rom pos settings fs) = None)
  /\ (forall err fs1,
        os_MkdirAll toolFolder fs = (Some err, fs1) ->
        createToolShortcut env d pak pos settings fs
        = (Some (Errorf "creating shortcut dir" err), fs1))
  /\ (forall fs1 err fs2,
        os_MkdirAll toolFolder fs = (None, fs1) ->
        os_WriteFile target pak fs1 = (Some err, fs2) ->
        createToolShortcut env d pak pos settings fs
        = (Some (Errorf "writing target" err), fs2))
  /\ (forall fs1 fs2 err fs3,
        os_MkdirAll toolFolder fs = (None, fs1) ->
        os_WriteFile target pak fs1 = (None, fs2) ->
        os_WriteFile toolM3u (str "target") fs2 = (Some err, fs3) ->
        createToolShortcut env d pak pos settings fs
        = (Some (Errorf "writing m3u" err), fs3))
  /\ (forall fs1 fs2 fs3,
        os_MkdirAll toolFolder fs = (None, fs1) ->
        os_WriteFile target pak fs1 = (None, fs2) ->
        os_WriteFile toolM3u (str "target") fs2 = (None, fs3) ->
        fst (createToolShortcut env d pak pos settings fs) = None).
Proof.
  intros romFolder romM3u toolFolder toolM3u target.
  unfold createROMShortcut, createToolShortcut.
  fold romFolder romM3u toolFolder toolM3u target.
  repeat split.
  - intros err fs1 ->. done.
  - intros fs1 err fs2 -> ->. done.
  - intros fs1 fs2 -> ->. done.
  - intros err fs1 ->. done.
  - intros fs1 err fs2 -> ->. done.
  - intros fs1 fs2 err fs3 -> -> ->. done.
  - intros fs1 fs2 fs3 -> -> ->. done.
Qed.

Lemma create_errors_witness :
  fst (createROMShortcut (ext := refExtern) deviceEnv (str "Battletoads")
         (str "MD") (str "Sega Genesis (MD)") battletoads ShortcutPositionTop
         noArtwork sdcardReadOnly)
  = Some (Errorf "creating shortcut dir"
            (PathError "mkdir" (romsPath ++ [str "0) Battletoads (MD)"]) EACCES)).
Proof.
  rewrite (proj1 (create_errors (ext := refExtern) deviceEnv (str "Battletoads")
                    (str "MD") (str "Sega Genesis (MD)") [] battletoads
                    ShortcutPositionTop noArtwork sdcardReadOnly)
             (PathError "mkdir" (romsPath ++ [str "0) Battletoads (MD)"]) EACCES)
             (snd (memfs.MkdirAll (romsPath ++ [str "0) Battletoads (MD)"])
                     sdcardReadOnly))).
  - reflexivity.
  - apply pair_fst. by vm_compute.
Defined.

(** C5 fails as it is written: on a card where the system refuses the
    marker file, [writeShortcutMarker] returns an error in the very state
    in which [createROMShortcut] calls it, and [createROMShortcut] returns
    [nil] all the same; the shortcut is left without its marker and
    [scanShortcuts] does not list it. *)
Lemma create_errors_counterexample :
  let folderPath := romsPath ++ [str "0) Battletoads (MD)"] in
  let fs1 := snd (memfs.MkdirAll folderPath sdcardNoMarker) in
  let fs2 :=
    snd (memfs.WriteFile (folderPath ++ [str "0) Battletoads (MD).m3u"])
           (str "../Sega Genesis (MD)/Battletoads.md") fs1) in
  let created :=
    createROMShortcut (ext := refExtern) deviceEnv (str "Battletoads")
      (str "MD") (str "Sega Genesis (MD)") battletoads ShortcutPositionTop
      noArtwork sdcardNoMarker in
  fst (writeShortcutMarker folderPath (str "Battletoads") fs2)
  = Some (PathError "open" (folderPath ++ [str ".shortcut"]) EACCES)
  /\ fst created = None
  /\ memfs.Stat (folderPath ++ [str ".shortcut"]) (snd created) <> None
  /\ fst (scanShortcuts (ext := refExtern) deviceEnv (snd created)) = [].
Proof. repeat split; by vm_compute. Qed.

(** C6.  After [createROMShortcut] has succeeded the pointer file
    "<folder>/<folder>.m3u" holds "../<console>/<entry>" for a single-file
    ROM, "../<console>/<entry>/<entry>.m3u" for a multi-disc folder and
    "../<console>/<entry>/<entry>.cue" for a single-disc CUE folder; after
    [createToolShortcut] has succeeded the pointer file holds the token
    "target" and the file [target] beside it holds the path of the pak. *)
Theorem pointer_file_content {ext : Extern} (env : Env) (fs fs' : memfs.t)
    (d t console pak : gostring) (rom : ROMFile.t) (pos : ShortcutPosition)
    (settings : AppSettings.t) :
  let romFolder := filepath.Join (romsDir env) (buildFolderName pos d t) in
  let toolFolder :=
    filepath.Join (romsDir env) (buildFolderName pos d bridgeEmuTag) in
  (createROMShortcut env d t console rom pos settings fs = (None, fs') ->
   memfs.ReadFile
     (filepath.Join romFolder (buildFolderName pos d t ++ str ".m3u")) fs'
   = inr (if ROMFile.IsMultiDisc rom then
            str "../" ++ console ++ str "/" ++ ROMFile.Name rom
              ++ str "/" ++ ROMFile.Name rom ++ str ".m3u"
          else if ROMFile.IsCueFolder rom then
            str "../" ++ console ++ str "/" ++ ROMFile.Name rom
              ++ str "/" ++ ROMFile.Name rom ++ str ".cue"
          else str "../" ++ console ++ str "/" ++ ROMFile.Name rom))
  /\ (createToolShortcut env d pak pos settings fs = (None, fs') ->
      memfs.ReadFile
        (filepath.Join toolFolder (buildFolderName pos d bridgeEmuTag ++ str ".m3u"))
        fs'
      = inr (str "target")
      /\ memfs.ReadFile (filepath.Join toolFolder (str "target")) fs' = inr pak).
Proof.
  intros romFolder toolFolder. split.
  - intros H.
    by destruct (createROMShortcut_result env _ _ _ _ _ _ _ _ H) as (_ & Hm & _).
  - intros H.
    by destruct (createToolShortcut_result env _ _ _ _ _ _ H) as (_ & Hm & Ht & _).
Qed.

Lemma pointer_file_content_witness :
  memfs.ReadFile
    (romsPath ++ [str "0) Battletoads (MD)"; str "0) Battletoads (MD).m3u"])
    (snd (createROMShortcut (ext := refExtern) deviceEnv (str "Battletoads")
            (str "MD") (str "Sega Genesis (MD)") battletoads
            ShortcutPositionTop noArtwork sdcard0))
  = inr (str "../Sega Genesis (MD)/Battletoads.md")
  /\ (memfs.ReadFile
        (romsPath ++ [str "SDLReader (SHORTCUT)"; str "SDLReader (SHORTCUT).m3u"])
        (snd (createToolShortcut (ext := refExtern) deviceEnv (str "SDLReader")
                (str "/mnt/SDCARD/Tools/tg5040/SDLReader.pak")
                ShortcutPositionAlpha noArtwork sdcard0))
      = inr (str "target")
      /\ memfs.ReadFile
           (romsPath ++ [str "SDLReader (SHORTCUT)"; str "target"])
           (snd (createToolShortcut (ext := refExtern) deviceEnv (str "SDLReader")
                   (str "/mnt/SDCARD/Tools/tg5040/SDLReader.pak")
                   ShortcutPositionAlpha noArtwork sdcard0))
         = inr (str "/mnt/SDCARD/Tools/tg5040/SDLReader.pak")).
Proof.
  split.
  - apply (proj1 (pointer_file_content (ext := refExtern) deviceEnv sdcard0 _
                    (str "Battletoads") (str "MD") (str "Sega Genesis (MD)") []
                    battletoads ShortcutPositionTop noArtwork)).
    apply pair_fst. by vm_compute.
  - apply (proj2 (pointer_file_content (ext := refExtern) deviceEnv sdcard0 _
                    (str "SDLReader") (str "MD") []
                    (str "/mnt/SDCARD/Tools/tg5040/SDLReader.pak")
                    battletoads ShortcutPositionAlpha noArtwork)).
    apply pair_fst. by vm_compute.
Defined.

(** * Integers *)

Lemma wrap64_small z : - 2 ^ 63 <= z < 2 ^ 63 -> wrap64 z = z.
Proof.
  intros H. unfold wrap64. rewrite Z.mod_small; lia.
Qed.

(** * The thumbnail size *)

(** C8.  For a source image larger than the bounding box in both
    dimensions (and of a size a PNG can have), [thumbnailFit] returns a
    width and a height within the bounds; one of the two is its bound and
    the other is the value that keeps the aspect ratio of the source,
    rounded down to an integer. *)
Theorem thumbnailFit_fits (srcW srcH maxW maxH : Z) :
  0 < maxW -> 0 < maxH -> maxW < srcW -> maxH < srcH ->
  srcW < 2 ^ 31 -> srcH < 2 ^ 31 ->
  let '(newW, newH) := thumbnailFit srcW srcH maxW maxH in
  0 <= newW <= maxW /\ 0 <= newH <= maxH
  /\ (newW = maxW /\ newH * srcW <= srcH * newW < (newH + 1) * srcW
      \/ newH = maxH /\ newW * srcH <= srcW * newH < (newW + 1) * srcH).
Proof.
  intros HmW HmH HW HH HbW HbH. unfold thumbnailFit.
  destruct (Z.eqb_spec srcW 0); [lia|]. destruct (Z.eqb_spec srcH 0); [lia|].
  cbn [orb]. unfold int.quo, int.mul.
  assert (Hp1 : 0 <= srcH * maxW < 2 ^ 62) by nia.
  assert (Hp2 : 0 <= srcW * maxH < 2 ^ 62) by nia.
  rewrite (wrap64_small (srcH * maxW)) by lia.
  rewrite (wrap64_small (srcW * maxH)) by lia.
  rewrite !Z.quot_div_nonneg by lia.
  pose proof (Z.div_pos (srcH * maxW) srcW ltac:(lia) ltac:(lia)) as Hq1.
  pose proof (Z.div_pos (srcW * maxH) srcH ltac:(lia) ltac:(lia)) as Hq2.
  pose proof (Z.mul_div_le (srcH * maxW) srcW ltac:(lia)) as Hl1.
  pose proof (Z.mul_succ_div_gt (srcH * maxW) srcW ltac:(lia)) as Hu1.
  pose proof (Z.mul_div_le (srcW * maxH) srcH ltac:(lia)) as Hl2.
  pose proof (Z.mul_succ_div_gt (srcW * maxH) srcH ltac:(lia)) as Hu2.
  assert (Hd1 : srcH * maxW / srcW <= srcH * maxW).
  { apply Z.div_le_upper_bound; nia. }
  assert (Hd2 : srcW * maxH / srcH <= srcW * maxH).
  { apply Z.div_le_upper_bound; nia. }
  rewrite (wrap64_small (srcH * maxW / srcW)) by lia.
  rewrite (wrap64_small (srcW * maxH / srcH)) by lia.
  destruct (Z.ltb_spec maxH (srcH * maxW / srcW)) as [Hgt|Hle].
  - assert (srcW * maxH / srcH < maxW).
    { apply Z.div_lt_upper_bound; [lia|]. nia. }
    repeat split; try lia. all: right; split; [done|]; nia.
  - repeat split; try lia. all: left; split; [done|]; nia.
Qed.

Lemma thumbnailFit_fits_witness :
  let '(newW, newH) := thumbnailFit 2000 1000 576 432 in
  0 <= newW <= 576 /\ 0 <= newH <= 432
  /\ (newW = 576 /\ newH * 2000 <= 1000 * newW < (newH + 1) * 2000
      \/ newH = 432 /\ newW * 1000 <= 2000 * newH < (newW + 1) * 1000).
Proof. apply (thumbnailFit_fits 2000 1000 576 432); lia. Defined.

(** * Sorting *)

Section SortFacts.

Lemma stringLess_asym a b : stringLess a b = true -> stringLess b a = false.
Proof.
  revert b; induction a as [|x a IH]; intros [|y b]; simpl; try done.
  destruct (N.ltb_spec (code x) (code y)), (N.ltb_spec (code y) (code x));
    try done; try lia. apply IH.
Qed.

(** "Not after" is transitive: [<] on strings is a total order. *)
Lemma stringLess_trans a b c :
  stringLess b a = false -> stringLess c b = false -> stringLess c a = false.
Proof.
  revert b c; induction a as [|x a IH]; intros [|y b] [|z c]; simpl; try done.
  destruct (N.ltb_spec (code y) (code x)), (N.ltb_spec (code x) (code y)),
    (N.ltb_spec (code z) (code y)), (N.ltb_spec (code y) (code z)),
    (N.ltb_spec (code z) (code x)), (N.ltb_spec (code x) (code z));
    try done; try lia. apply IH.
Qed.

End SortFacts.

Section InsertionSort.

Context {A : Type} (less : A -> A -> bool).
Hypothesis less_asym : forall x y, less x y = true -> less y x = false.
Hypothesis less_trans :
  forall x y z, less y x = false -> less z y = false -> less z x = false.

Lemma Forall_insert (P : A -> Prop) x l :
  P x -> Forall P l -> Forall P (sort.insert less x l).
Proof.
  intros Hx Hl. induction Hl as [|y l Hy Hl IH]; simpl.
  - by constructor.
  - destruct (less x y); repeat constructor; done.
Qed.

Lemma insert_sorted x l :
  StronglySorted (fun a b => less b a = false) l ->
  StronglySorted (fun a b => less b a = false) (sort.insert less x l).
Proof.
  induction 1 as [|y l Hs IH Hy]; simpl.
  - repeat constructor.
  - destruct (less x y) eqn:E.
    + constructor; [by constructor|]. constructor; [by apply less_asym|].
      eapply Forall_impl; [apply Hy|]. intros z Hz. cbv beta in *.
      eapply less_trans; [|apply Hz]. by apply less_asym.
    + constructor; [done|]. by apply Forall_insert.
Qed.

(** With a comparison that is a strict order whose complement is
    transitive, [sort.Slice] returns its argument in ascending order. *)
Lemma Slice_sorted l :
  StronglySorted (fun a b => less b a = false) (sort.Slice l less).
Proof.
  unfold sort.Slice. induction l as [|x l IH]; simpl; [constructor|].
  by apply insert_sorted.
Qed.

End InsertionSort.

Lemma Slice_sorted_by_key {A : Type} (key : A -> gostring) (l : list A) :
  StronglySorted (fun a b => stringLess (key b) (key a) = false)
    (sort.Slice l (fun a b => stringLess (key a) (key b))).
Proof.
  apply (Slice_sorted (fun a b => stringLess (key a) (key b))).
  - intros x y. apply stringLess_asym.
  - intros x y z. apply stringLess_trans.
Qed.

(** C10.  Whatever the roms directory holds and however the system
    answers, the list [scanShortcuts] returns is in ascending order of the
    lower-cased display names, and so are the lists of [scanConsoleDirs],
    [scanROMs] and [scanTools]: no entry is followed by one whose
    lower-cased display name is smaller. *)
Theorem scans_sorted {FS : Type} {os : OS FS} {ext : Extern} (env : Env)
    (fs : FS) (showHidden : bool) (consoleDir : path) :
  StronglySorted
    (fun a b => stringLess (strings_ToLower (Shortcut.Display b))
                  (strings_ToLower (Shortcut.Display a)) = false)
    (fst (scanShortcuts env fs))
  /\ StronglySorted
       (fun a b => stringLess (strings_ToLower (ConsoleDir.Display b))
                     (strings_ToLower (ConsoleDir.Display a)) = false)
       (fst (scanConsoleDirs env showHidden fs))
  /\ StronglySorted
       (fun a b => stringLess (strings_ToLower (ROMFile.Display b))
                     (strings_ToLower (ROMFile.Display a)) = false)
       (fst (scanROMs consoleDir showHidden fs))
  /\ StronglySorted
       (fun a b => stringLess (strings_ToLower (ToolPak.Display b))
                     (strings_ToLower (ToolPak.Display a)) = false)
       (fst (scanTools env showHidden fs)).
Proof.
  repeat split.
  - unfold scanShortcuts. destruct (os_ReadDir _ fs); [constructor|].
    apply (Slice_sorted_by_key (fun a => strings_ToLower (Shortcut.Display a))).
  - unfold scanConsoleDirs. destruct (os_ReadDir _ fs); [constructor|].
    apply (Slice_sorted_by_key (fun a => strings_ToLower (ConsoleDir.Display a))).
  - unfold scanROMs. destruct (os_ReadDir _ fs); [constructor|].
    apply (Slice_sorted_by_key (fun a => strings_ToLower (ROMFile.Display a))).
  - unfold scanTools. destruct (os_ReadDir _ fs); [constructor|].
    apply (Slice_sorted_by_key (fun a => strings_ToLower (ToolPak.Display a))).
Qed.

(** * Rounded corners *)

Section RoundedCorners.

Implicit Types (img : image.NRGBA.t) (pix : list Z).

Lemma setPix_nat pix (n : nat) v : setPix pix (Z.of_nat n) v = <[n := v]> pix.
Proof.
  unfold setPix. destruct (Z.leb_spec 0 (Z.of_nat n)); [|lia].
  by rewrite Nat2Z.id.
Qed.

Lemma PixOffset_laidOut w h img x y :
  image.NRGBA.laidOut w h img -> 0 <= x < w -> 0 <= y < h ->
  4 * w * h < 2 ^ 63 ->
  image.NRGBA.PixOffset img x y = 4 * (y * w + x).
Proof.
  intros (HR & HS & _) Hx Hy Hb. unfold image.NRGBA.PixOffset.
  rewrite HR, HS. cbn [image.Rectangle.Min image.Point.X image.Point.Y].
  unfold int.add, int.mul, int.sub.
  rewrite (wrap64_small (y - 0)), (wrap64_small (x - 0)) by nia.
  rewrite (wrap64_small ((y - 0) * (4 * w))), (wrap64_small ((x - 0) * 4)) by nia.
  rewrite wrap64_small by nia. lia.
Qed.

(** One step of the inner loop: the four bytes of the pixel become zero
    when it lies outside the arcs, and nothing else changes. *)
Lemma pixel_lookup w h r img x y (i : nat) :
  image.NRGBA.laidOut w h img -> 0 <= x < w -> 0 <= y < h ->
  4 * w * h < 2 ^ 63 ->
  let img' := applyRoundedCorners_pixel w h r y img x in
  image.NRGBA.laidOut w h img'
  /\ (applyRoundedCorners_outside w h r x y = true ->
      4 * (y * w + x) <= Z.of_nat i < 4 * (y * w + x) + 4 ->
      image.NRGBA.Pix img' !! i = Some 0)
  /\ (applyRoundedCorners_outside w h r x y = false
      \/ Z.of_nat i < 4 * (y * w + x) \/ 4 * (y * w + x) + 4 <= Z.of_nat i ->
      image.NRGBA.Pix img' !! i = image.NRGBA.Pix img !! i).
Proof.
  intros Hl Hx Hy Hb img'. subst img'. unfold applyRoundedCorners_pixel.
  destruct (applyRoundedCorners_outside w h r x y) eqn:E.
  2: { split; [done|]. split; [done|]. done. }
  rewrite (PixOffset_laidOut w h) by done.
  destruct Hl as (HR & HS & HL).
  set (o := Z.to_nat (4 * (y * w + x))).
  assert (Ho : 4 * (y * w + x) = Z.of_nat o) by (unfold o; nia).
  rewrite Ho.
  replace (Z.of_nat o + 1) with (Z.of_nat (S o)) by lia.
  replace (Z.of_nat o + 2) with (Z.of_nat (S (S o))) by lia.
  replace (Z.of_nat o + 3) with (Z.of_nat (S (S (S o)))) by lia.
  rewrite !setPix_nat.
  assert (Hlen : (S (S (S o)) < length (image.NRGBA.Pix img))%nat) by nia.
  split; [|split].
  - split; [done|]. split; [done|]. cbn [image.NRGBA.Pix].
    by rewrite !length_insert.
  - intros _ Hi. cbn [image.NRGBA.Pix].
    rewrite !list_lookup_insert, !length_insert.
    repeat case_decide; try done. lia.
  - intros [?|Hi]; [done|]. cbn [image.NRGBA.Pix].
    rewrite !list_lookup_insert_ne by lia. done.
Qed.

Lemma foldl_invariant {A B} (f : A -> B -> A) (I : A -> Prop) l a :
  I a -> (forall a b, b ∈ l -> I a -> I (f a b)) -> I (foldl f a l).
Proof.
  revert a; induction l as [|b l IH]; intros a Ha Hf; simpl; [done|].
  apply IH; [apply Hf; [by left|done]|].
  intros a' b' Hb'. apply Hf. by right.
Qed.

(** A property of the image that every step of the inner loop keeps is
    kept by the loops. *)
Lemma applyRoundedCorners_loops_invariant w h r (I : image.NRGBA.t -> Prop) img :
  I img ->
  (forall img x y, 0 <= x < w -> 0 <= y < h -> I img ->
                   I (applyRoundedCorners_pixel w h r y img x)) ->
  I (foldl (fun img y => foldl (applyRoundedCorners_pixel w h r y) img (seqZ 0 w))
       img (seqZ 0 h)).
Proof.
  intros Hi Hstep. apply foldl_invariant; [done|].
  intros img1 y Hy%elem_of_seqZ Hi1. apply foldl_invariant; [done|].
  intros img2 x Hx%elem_of_seqZ Hi2. apply Hstep; [lia|lia|done].
Qed.

Lemma outside_corner w h r :
  0 < r -> 2 * r < w -> 2 * r < h -> 4 * w * h < 2 ^ 63 ->
  applyRoundedCorners_outside w h r 0 0 = true.
Proof.
  intros Hr Hw Hh Hb. unfold applyRoundedCorners_outside.
  destruct (Z.ltb_spec 0 r); [|lia]. unfold int.add, int.mul, int.sub.
  rewrite (wrap64_small (r - 0)) by nia.
  rewrite !(wrap64_small ((r - 0) * (r - 0))) by nia.
  rewrite (wrap64_small (r * r)) by nia.
  rewrite wrap64_small by nia. apply Z.ltb_lt. nia.
Qed.

Lemma outside_center w h r :
  0 < r -> 2 * r < w -> 2 * r < h -> 4 * w * h < 2 ^ 63 ->
  applyRoundedCorners_outside w h r (w / 2) (h / 2) = false.
Proof.
  intros Hr Hw Hh Hb. unfold applyRoundedCorners_outside.
  pose proof (Z.div_mod w 2 ltac:(lia)). pose proof (Z.mod_pos_bound w 2 ltac:(lia)).
  pose proof (Z.div_mod h 2 ltac:(lia)). pose proof (Z.mod_pos_bound h 2 ltac:(lia)).
  destruct (Z.ltb_spec (w / 2) r); [lia|].
  destruct (Z.ltb_spec (h / 2) r); [lia|].
  unfold int.add, int.mul, int.sub.
  rewrite (wrap64_small (w - r)), (wrap64_small (h - r)) by nia.
  destruct (Z.leb_spec (w - r) (w / 2)); [lia|].
  destruct (Z.leb_spec (h - r) (h / 2)); [lia|].
  change (0 * 0) with 0. rewrite !(wrap64_small 0) by lia.
  change (0 + 0) with 0. rewrite (wrap64_small 0) by lia.
  rewrite (wrap64_small (r * r)) by nia. apply Z.ltb_ge. nia.
Qed.

End RoundedCorners.

Section RoundedCornersTheorem.

Implicit Types (img : image.NRGBA.t).

Lemma NRGBAAt_laidOut w h img x y :
  image.NRGBA.laidOut w h img -> 0 <= x < w -> 0 <= y < h ->
  4 * w * h < 2 ^ 63 ->
  image.NRGBA.NRGBAAt img x y
  = take 4 (drop (Z.to_nat (4 * (y * w + x))) (image.NRGBA.Pix img)).
Proof.
  intros Hl Hx Hy Hb. unfold image.NRGBA.NRGBAAt.
  rewrite (PixOffset_laidOut w h) by done.
  destruct Hl as (-> & _ & _).
  cbn [image.Rectangle.Min image.Rectangle.Max image.Point.X image.Point.Y].
  destruct (Z.leb_spec 0 x); [|lia]. destruct (Z.ltb_spec x w); [|lia].
  destruct (Z.leb_spec 0 y); [|lia]. destruct (Z.ltb_spec y h); [|lia]. done.
Qed.

Lemma take4_drop_ext (l1 l2 : list Z) (o : nat) :
  (forall i : nat, (o <= i < o + 4)%nat -> l1 !! i = l2 !! i) ->
  take 4 (drop o l1) = take 4 (drop o l2).
Proof.
  intros H. apply list_eq. intros j.
  destruct (decide (j < 4)%nat).
  - rewrite !lookup_take_lt, !lookup_drop by done. apply H. lia.
  - rewrite !lookup_take_ge by lia. done.
Qed.

Lemma take4_drop_zero (l : list Z) (o : nat) :
  (forall i : nat, (o <= i < o + 4)%nat -> l !! i = Some 0) ->
  take 4 (drop o l) = [0; 0; 0; 0].
Proof.
  intros H. apply list_eq. intros j.
  destruct (decide (j < 4)%nat).
  - rewrite lookup_take_lt, lookup_drop by done. rewrite H by lia.
    by destruct j as [|[|[|[|?]]]]; [..|lia].
  - rewrite lookup_take_ge by lia. by destruct j as [|[|[|[|?]]]]; [lia..|].
Qed.

(** Two pixels of an image do not share their place in the buffer. *)
Lemma pixel_index_inj w x y cx cy :
  0 <= x < w -> 0 <= cx < w -> 0 <= y -> 0 <= cy ->
  ~ (x = cx /\ y = cy) -> y * w + x <> cy * w + cx.
Proof.
  intros Hx Hcx Hy Hcy Hne E.
  destruct (Z.lt_trichotomy y cy) as [Hlt|[->|Hgt]].
  - assert ((y + 1) * w <= cy * w) by (apply Z.mul_le_mono_nonneg_r; lia). lia.
  - apply Hne. split; [lia|done].
  - assert ((cy + 1) * w <= y * w) by (apply Z.mul_le_mono_nonneg_r; lia). lia.
Qed.

(** C9.  On an image of [w] by [h] pixels laid out at the origin, with a
    radius above 0 and width and height above twice the radius,
    [applyRoundedCorners] leaves the pixel at the corner (0, 0) with alpha
    0 (all four of its bytes are 0) and the pixel at the centre as it
    was. *)
Theorem applyRoundedCorners_corner_centre (img : image.NRGBA.t)
    (w h radius : Z) :
  image.NRGBA.laidOut w h img -> 4 * w * h < 2 ^ 63 ->
  0 < radius -> 2 * radius < w -> 2 * radius < h ->
  image.NRGBA.NRGBAAt (applyRoundedCorners img radius) 0 0 = [0; 0; 0; 0]
  /\ image.NRGBA.NRGBAAt (applyRoundedCorners img radius) (w / 2) (h / 2)
     = image.NRGBA.NRGBAAt img (w / 2) (h / 2).
Proof.
  intros Hl Hb Hr Hw Hh. unfold applyRoundedCorners, image.NRGBA.Bounds.
  pose proof Hl as (HR & _ & _). rewrite HR.
  unfold image.Rectangle.Dx, image.Rectangle.Dy, int.sub.
  cbn [image.Rectangle.Min image.Rectangle.Max image.Point.X image.Point.Y].
  rewrite (wrap64_small (w - 0)), (wrap64_small (h - 0)) by nia.
  rewrite !Z.sub_0_r.
  destruct (Z.leb_spec radius 0); [lia|].
  destruct (Z.eqb_spec w 0); [lia|]. destruct (Z.eqb_spec h 0); [lia|].
  cbn [orb].
  assert (Hcx : 0 <= w / 2 < w) by (split; [apply Z.div_pos|apply Z.div_lt]; lia).
  assert (Hcy : 0 <= h / 2 < h) by (split; [apply Z.div_pos|apply Z.div_lt]; lia).
  split.
  - (* the corner: the first step of the first row clears it, and it stays
       cleared *)
    rewrite (seqZ_cons 0 h) by lia. cbn [foldl].
    rewrite (seqZ_cons 0 w) at 1 by lia. cbn [foldl].
    set (I := fun im : image.NRGBA.t =>
                image.NRGBA.laidOut w h im
                /\ forall i : nat, (i < 4)%nat -> image.NRGBA.Pix im !! i = Some 0).
    assert (Hstep : forall im x y, 0 <= x < w -> 0 <= y < h -> I im ->
                      I (applyRoundedCorners_pixel w h radius y im x)).
    { intros im x y Hx Hy [Hlo Hz]. split.
      - by destruct (pixel_lookup w h radius im x y 0%nat Hlo Hx Hy Hb)
          as (H1 & _ & _).
      - intros i Hi.
        destruct (pixel_lookup w h radius im x y i Hlo Hx Hy Hb) as (_ & H1 & H2).
        destruct (applyRoundedCorners_outside w h radius x y) eqn:E.
        + destruct (decide (4 * (y * w + x) <= Z.of_nat i < 4 * (y * w + x) + 4)).
          * by apply H1.
          * rewrite H2 by lia. by apply Hz.
        + rewrite H2 by (by left). by apply Hz. }
    assert (HI : I (foldl
                      (fun im y =>
                         foldl (applyRoundedCorners_pixel w h radius y) im (seqZ 0 w))
                      (foldl (applyRoundedCorners_pixel w h radius 0)
                         (applyRoundedCorners_pixel w h radius 0 img 0)
                         (seqZ (Z.succ 0) (Z.pred w)))
                      (seqZ (Z.succ 0) (Z.pred h)))).
    { apply foldl_invariant.
      - apply foldl_invariant.
        + split.
          * by destruct (pixel_lookup w h radius img 0 0 0%nat Hl
                           ltac:(lia) ltac:(lia) Hb) as (H1 & _ & _).
          * intros i Hi.
            destruct (pixel_lookup w h radius img 0 0 i Hl
                        ltac:(lia) ltac:(lia) Hb) as (_ & H1 & _).
            apply H1; [by apply outside_corner|lia].
        + intros im x Hx%elem_of_seqZ. apply Hstep; lia.
      - intros im y Hy%elem_of_seqZ Him. apply foldl_invariant; [done|].
        intros im' x Hx%elem_of_seqZ. apply Hstep; lia. }
    destruct HI as [Hlo Hz].
    rewrite (NRGBAAt_laidOut w h) by (done || lia).
    apply take4_drop_zero. intros i Hi. apply Hz. simpl in Hi. lia.
  - (* the centre: no step touches it *)
    set (o := 4 * (h / 2 * w + w / 2)).
    set (I := fun im : image.NRGBA.t =>
                image.NRGBA.laidOut w h im
                /\ forall i : nat, o <= Z.of_nat i < o + 4 ->
                     image.NRGBA.Pix im !! i = image.NRGBA.Pix img !! i).
    assert (HI : I (foldl
                      (fun im y =>
                         foldl (applyRoundedCorners_pixel w h radius y) im (seqZ 0 w))
                      img (seqZ 0 h))).
    { apply applyRoundedCorners_loops_invariant; [by split|].
      intros im x y Hx Hy [Hlo Hz]. split.
      - by destruct (pixel_lookup w h radius im x y 0%nat Hlo Hx Hy Hb)
          as (H1 & _ & _).
      - intros i Hi.
        destruct (pixel_lookup w h radius im x y i Hlo Hx Hy Hb) as (_ & _ & H2).
        rewrite H2; [by apply Hz|].
        destruct (decide (x = w / 2 /\ y = h / 2)) as [[-> ->]|Hne].
        + left. by apply outside_center.
        + right. unfold o in Hi.
          pose proof (pixel_index_inj w x y (w / 2) (h / 2) Hx Hcx
                        ltac:(lia) ltac:(lia) Hne).
          lia. }
    destruct HI as [Hlo Hz].
    rewrite !(NRGBAAt_laidOut w h) by done.
    apply take4_drop_ext. intros i Hi. apply Hz. unfold o. lia.
Qed.

Lemma applyRoundedCorners_corner_centre_witness :
  image.NRGBA.NRGBAAt
    (applyRoundedCorners
       (image.NRGBA.mk (replicate 36 255) 12 (image.Rect 0 0 3 3)) 1) 0 0
  = [0; 0; 0; 0]
  /\ image.NRGBA.NRGBAAt
       (applyRoundedCorners
          (image.NRGBA.mk (replicate 36 255) 12 (image.Rect 0 0 3 3)) 1)
       (3 / 2) (3 / 2)
     = image.NRGBA.NRGBAAt
         (image.NRGBA.mk (replicate 36 255) 12 (image.Rect 0 0 3 3))
         (3 / 2) (3 / 2).
Proof.
  apply (applyRoundedCorners_corner_centre
           (image.NRGBA.mk (replicate 36 255) 12 (image.Rect 0 0 3 3)) 3 3 1);
    try lia.
  repeat split.
Defined.

End RoundedCornersTheorem.

(** * The canvas without artwork *)

Section BlackCanvas.

Lemma length_black k :
  length (mjoin (replicate k [0; 0; 0; 255])) = (4 * k)%nat.
Proof. induction k as [|k IH]; simpl; [done|]. rewrite IH. lia. Qed.

Lemma black_snoc k :
  mjoin (replicate k [0; 0; 0; 255]) ++ [0; 0; 0; 255]
  = mjoin (replicate (k + 1) [0; 0; 0; 255]).
Proof.
  induction k as [|k IH]; simpl; [done|]. by rewrite IH.
Qed.

(** The loop that fills the canvas: after [k] pixels have been written the
    remaining [m] zeroed pixels are written too. *)
Lemma fillBlackLoop_black m k fuel :
  (m <= fuel)%nat ->
  fillBlackLoop fuel (Z.of_nat (4 * k))
    (mjoin (replicate k [0; 0; 0; 255]) ++ replicate (4 * m) 0)
  = mjoin (replicate (k + m) [0; 0; 0; 255]).
Proof.
  revert k fuel. induction m as [|m IH]; intros k fuel Hf.
  - rewrite Nat.add_0_r, app_nil_r.
    destruct fuel as [|fuel]; cbn [fillBlackLoop]; [done|].
    rewrite length_black. destruct (Z.ltb_spec (Z.of_nat (4 * k)) (Z.of_nat (4 * k)));
      [lia|done].
  - destruct fuel as [|fuel]; [lia|]. cbn [fillBlackLoop].
    rewrite length_app, length_black, length_replicate.
    destruct (Z.ltb_spec (Z.of_nat (4 * k)) (Z.of_nat (4 * k + 4 * S m))); [|lia].
    replace (4 * S m)%nat with (4 + 4 * m)%nat by lia.
    rewrite replicate_add. cbn [replicate].
    pose proof (length_black k) as Hlen.
    set (l1 := mjoin (replicate k [0; 0; 0; 255])) in *.
    replace (Z.of_nat (4 * k)) with (Z.of_nat (length l1 + 0)) by lia.
    replace (Z.of_nat (length l1 + 0) + 1) with (Z.of_nat (length l1 + 1)) by lia.
    replace (Z.of_nat (length l1 + 0) + 2) with (Z.of_nat (length l1 + 2)) by lia.
    replace (Z.of_nat (length l1 + 0) + 3) with (Z.of_nat (length l1 + 3)) by lia.
    replace (Z.of_nat (length l1 + 0) + 4) with (Z.of_nat (4 * (k + 1))) by lia.
    rewrite !setPix_nat, !insert_app_r. cbn [app].
    change (<[3%nat:=255]> (<[2%nat:=0]> (<[1%nat:=0]> (<[0%nat:=0]>
              (0 :: 0 :: 0 :: 0 :: replicate (4 * m) 0)))))
      with ([0; 0; 0; 255] ++ replicate (4 * m) 0).
    subst l1.
    rewrite app_assoc, black_snoc, IH by lia.
    f_equal. f_equal. lia.
Qed.

Lemma Rect_origin w h :
  0 <= w -> 0 <= h ->
  image.Rect 0 0 w h
  = image.Rectangle.mk (image.Point.mk 0 0) (image.Point.mk w h).
Proof.
  intros Hw Hh. unfold image.Rect.
  destruct (Z.ltb_spec w 0); [lia|]. destruct (Z.ltb_spec h 0); [lia|]. done.
Qed.

(** A new canvas filled by the loop is the opaque black image. *)
Lemma fillBlack_NewNRGBA w h :
  0 <= w < 2 ^ 31 -> 0 <= h < 2 ^ 31 ->
  fillBlack (image.NewNRGBA (image.Rect 0 0 w h)) = image.solidBlack w h.
Proof.
  intros Hw Hh. unfold fillBlack, image.NewNRGBA, image.solidBlack.
  cbn [image.NRGBA.Pix image.NRGBA.Stride image.NRGBA.Rect].
  rewrite Rect_origin by lia.
  unfold image.Rectangle.Dx, image.Rectangle.Dy, int.sub.
  cbn [image.Rectangle.Min image.Rectangle.Max image.Point.X image.Point.Y].
  rewrite (wrap64_small (w - 0)), (wrap64_small (h - 0)) by lia.
  rewrite !Z.sub_0_r. f_equal.
  rewrite length_replicate.
  replace (Z.to_nat (4 * w * h)) with (4 * Z.to_nat (w * h))%nat by lia.
  pose proof (fillBlackLoop_black (Z.to_nat (w * h)) 0 (4 * Z.to_nat (w * h))
                ltac:(lia)) as H.
  exact H.
Qed.

End BlackCanvas.

Section NoArtwork.

Context {FS : Type} {os : OS FS} {ext : Extern} (env : Env).

Lemma screenDimensions_black :
  fillBlack (image.NewNRGBA
               (image.Rect 0 0 (fst (screenDimensions env))
                  (snd (screenDimensions env))))
  = if isBrick env then image.solidBlack 1024 768 else image.solidBlack 1280 720.
Proof.
  unfold screenDimensions. destruct (isBrick env); cbn [fst snd];
    apply fillBlack_NewNRGBA; lia.
Qed.

(** Without artwork and without wallpaper the function creates the media
    directory and the file and writes the encoding of the black canvas. *)
Lemma generateArtworkBg_black artSrc dest useGlobalBg (fs : FS) err :
  os_Stat artSrc fs = Some err ->
  (useGlobalBg = false
   \/ exists e, loadPNGImage (globalBgPath env) fs = inl e) ->
  generateArtworkBg env artSrc dest useGlobalBg true fs
  = let bg := dest ++ [str ".media"; str "bg.png"] in
    match os_MkdirAll (dest ++ [str ".media"]) fs with
    | (Some _, fs1) => fs1
    | (None, fs1) =>
        match os_Create bg fs1 with
        | (Some _, fs2) => fs2
        | (None, fs2) =>
            snd (os_Write bg
                   (png_Encode
                      (if isBrick env then image.solidBlack 1024 768
                       else image.solidBlack 1280 720)) fs2)
        end
    end.
Proof.
  intros Hstat Hbg. unfold generateArtworkBg. rewrite Hstat. cbn [negb].
  rewrite (surjective_pairing (screenDimensions env)).
  cbv beta iota zeta. rewrite screenDimensions_black.
  rewrite Join_media, Join_bg, <- app_assoc.
  change ([str ".media"] ++ [str "bg.png"]) with [str ".media"; str "bg.png"].
  destruct Hbg as [->|[e He]]; [done|].
  destruct useGlobalBg; [|done]. by rewrite He.
Qed.

End NoArtwork.

Section NoArtworkMemfs.

Context {ext : Extern} (env : Env).

Lemma WriteFile_not_denied p data (fs fs' : memfs.t) :
  memfs.WriteFile p data fs = (None, fs') -> p ∉ memfs.denied fs.
Proof. unfold memfs.WriteFile. by case_bool_decide. Qed.

(** On the file system in memory, when the media directory and the file
    can be created, the file holds the encoding of the black canvas. *)
Lemma generateArtworkBg_black_memfs artSrc dest useGlobalBg (fs : memfs.t) err :
  memfs.Stat artSrc fs = Some err ->
  (useGlobalBg = false
   \/ exists e, loadPNGImage (globalBgPath env) fs = inl e) ->
  fst (memfs.MkdirAll (dest ++ [str ".media"]) fs) = None ->
  fst (memfs.Create (dest ++ [str ".media"; str "bg.png"])
         (snd (memfs.MkdirAll (dest ++ [str ".media"]) fs))) = None ->
  memfs.ReadFile (dest ++ [str ".media"; str "bg.png"])
    (generateArtworkBg env artSrc dest useGlobalBg true fs)
  = inr (png_Encode
           (if isBrick env then image.solidBlack 1024 768
            else image.solidBlack 1280 720)).
Proof.
  intros Hstat Hbg H1 H2.
  rewrite (generateArtworkBg_black (os := memfs_OS) env artSrc dest useGlobalBg
             fs err Hstat Hbg).
  cbv zeta.
  change (os_MkdirAll (dest ++ [str ".media"]) fs)
    with (memfs.MkdirAll (dest ++ [str ".media"]) fs).
  destruct (memfs.MkdirAll (dest ++ [str ".media"]) fs) as [[e|] fs1];
    [done|]. cbn [fst snd] in H2.
  change (os_Create (dest ++ [str ".media"; str "bg.png"]) fs1)
    with (memfs.Create (dest ++ [str ".media"; str "bg.png"]) fs1).
  destruct (memfs.Create (dest ++ [str ".media"; str "bg.png"]) fs1)
    as [[e|] fs2] eqn:E2; [done|].
  unfold memfs.Create in E2.
  pose proof (WriteFile_not_denied _ _ _ _ E2) as Hden.
  pose proof (WriteFile_keeps (dest ++ [str ".media"; str "bg.png"]) [] fs1) as K.
  rewrite E2 in K. destruct K as [Kd _]. cbn [snd] in Kd.
  apply WriteFile_ok in E2.
  match goal with
  | |- context [os_Write ?p ?c fs2] =>
      change (os_Write p c fs2) with (memfs.Write p c fs2);
      rewrite (Write_ok p c fs2 [] E2)
  end.
  - cbn [snd app].
    change (dest ++ [str ".media"; str "bg.png"])
      with (dest ++ [str ".media"] ++ [str "bg.png"]).
    rewrite app_assoc. apply ReadFile_file. apply lookup_insert_eq.
  - by destruct dest.
  - by rewrite Kd.
Qed.

End NoArtworkMemfs.

(** C7, as amended.  When there is no source artwork: with [forceBlack]
    off, [generateArtworkBg] leaves the file system as it is, whatever the
    system; with [forceBlack] on, and the wallpaper switched off or not
    loadable, and the media directory and the file creatable, it writes to
    [.media/bg.png] the PNG encoding of an opaque black image of the size
    of the screen: 1280 by 720, and 1024 by 768 on the Brick. *)
Theorem generateArtworkBg_no_art {ext : Extern} (env : Env) :
  (forall (FS : Type) (os : OS FS) (fs : FS) (artSrc dest : path)
          (useGlobalBg : bool) (err : error),
     os_Stat artSrc fs = Some err ->
     generateArtworkBg env artSrc dest useGlobalBg false fs = fs)
  /\ (forall (fs : memfs.t) (artSrc dest : path) (useGlobalBg : bool)
             (err : error),
        memfs.Stat artSrc fs = Some err ->
        (useGlobalBg = false
         \/ exists e, loadPNGImage (globalBgPath env) fs = inl e) ->
        fst (memfs.MkdirAll (dest ++ [str ".media"]) fs) = None ->
        fst (memfs.Create (dest ++ [str ".media"; str "bg.png"])
               (snd (memfs.MkdirAll (dest ++ [str ".media"]) fs))) = None ->
        memfs.ReadFile (dest ++ [str ".media"; str "bg.png"])
          (generateArtworkBg env artSrc dest useGlobalBg true fs)
        = inr (png_Encode
                 (if isBrick env then image.solidBlack 1024 768
                  else image.solidBlack 1280 720))).
Proof.
  split.
  - intros FS os fs artSrc dest useGlobalBg err H.
    unfold generateArtworkBg. by rewrite H.
  - intros fs artSrc dest useGlobalBg err.
    apply generateArtworkBg_black_memfs.
Qed.

Lemma generateArtworkBg_no_art_witness :
  generateArtworkBg (ext := refExtern) deviceEnv battletoadsArt
    battletoadsFolder true false sdcardShortcut = sdcardShortcut
  /\ memfs.ReadFile (battletoadsFolder ++ [str ".media"; str "bg.png"])
       (generateArtworkBg (ext := refExtern) deviceEnv battletoadsArt
          battletoadsFolder false true sdcardShortcut)
     = inr (@png_Encode refExtern
              (if isBrick deviceEnv then image.solidBlack 1024 768
               else image.solidBlack 1280 720)).
Proof.
  split.
  - eapply (proj1 (generateArtworkBg_no_art (ext := refExtern) deviceEnv)
              memfs.t memfs_OS).
    vm_compute. reflexivity.
  - eapply (proj2 (generateArtworkBg_no_art (ext := refExtern) deviceEnv)).
    + vm_compute. reflexivity.
    + by left.
    + by vm_compute.
    + by vm_compute.
Defined.

Lemma length_refEncode_black w h :
  0 <= w * h ->
  Z.of_nat (length (@png_Encode refExtern (image.solidBlack w h))) = 4 * (w * h).
Proof.
  intros H. unfold image.solidBlack. cbn [png_Encode refExtern image.NRGBA.Pix].
  rewrite length_map, length_black. lia.
Qed.

(** C7 fails as it is written: on the Brick the canvas is 1024 by 768, and
    the image written in the always-emit mode has that size, not 1280 by
    720. *)
Lemma generateArtworkBg_no_art_counterexample :
  screenDimensions brickEnv = (1024, 768)
  /\ memfs.ReadFile (battletoadsFolder ++ [str ".media"; str "bg.png"])
       (generateArtworkBg (ext := refExtern) brickEnv battletoadsArt
          battletoadsFolder false true sdcardShortcut)
     = inr (@png_Encode refExtern (image.solidBlack 1024 768))
  /\ @png_Encode refExtern (image.solidBlack 1024 768)
     <> @png_Encode refExtern (image.solidBlack 1280 720).
Proof.
  split; [reflexivity|]. split.
  - rewrite (generateArtworkBg_black_memfs (ext := refExtern) brickEnv
               battletoadsArt battletoadsFolder false sdcardShortcut
               (PathError "stat" battletoadsArt ENOENT)).
    + reflexivity.
    + by vm_compute.
    + by left.
    + by vm_compute.
    + by vm_compute.
  - intros E. apply (f_equal (fun l => Z.of_nat (length l))) in E.
    rewrite !length_refEncode_black in E by lia. lia.
Qed.

(** * More of the program *)

(** * More about the rounded corners *)

Section RoundedCornersPixelwise.

Implicit Types (img im : image.NRGBA.t).

(** Steps of the loops at other pixels leave the bytes of a pixel alone. *)
Lemma row_frame w h r y' img x y (xs : list Z) (i : nat) :
  4 * w * h < 2 ^ 63 -> 0 <= x < w -> 0 <= y < h -> 0 <= y' < h ->
  (forall x', x' ∈ xs -> 0 <= x' < w /\ ~ (x' = x /\ y' = y)) ->
  4 * (y * w + x) <= Z.of_nat i < 4 * (y * w + x) + 4 ->
  image.NRGBA.laidOut w h img ->
  image.NRGBA.laidOut w h (foldl (applyRoundedCorners_pixel w h r y') img xs)
  /\ image.NRGBA.Pix (foldl (applyRoundedCorners_pixel w h r y') img xs) !! i
     = image.NRGBA.Pix img !! i.
Proof.
  intros Hb Hx Hy Hy' Hxs Hi Hl.
  apply (foldl_invariant (applyRoundedCorners_pixel w h r y')
           (fun im => image.NRGBA.laidOut w h im
                      /\ image.NRGBA.Pix im !! i = image.NRGBA.Pix img !! i)).
  - by split.
  - intros im x' Hx' [Hlo Heq]. destruct (Hxs x' Hx') as [Hr Hne].
    destruct (pixel_lookup w h r im x' y' i Hlo Hr Hy' Hb) as (H1 & _ & H3).
    split; [done|]. rewrite H3; [done|]. right.
    pose proof (pixel_index_inj w x' y' x y Hr Hx ltac:(lia) ltac:(lia) Hne).
    lia.
Qed.

Lemma rows_frame w h r img x y (ys : list Z) (i : nat) :
  4 * w * h < 2 ^ 63 -> 0 <= x < w -> 0 <= y < h ->
  (forall y', y' ∈ ys -> 0 <= y' < h /\ y' <> y) ->
  4 * (y * w + x) <= Z.of_nat i < 4 * (y * w + x) + 4 ->
  image.NRGBA.laidOut w h img ->
  let img' :=
    foldl (fun im y' => foldl (applyRoundedCorners_pixel w h r y') im (seqZ 0 w))
      img ys in
  image.NRGBA.laidOut w h img'
  /\ image.NRGBA.Pix img' !! i = image.NRGBA.Pix img !! i.
Proof.
  intros Hb Hx Hy Hys Hi Hl.
  apply (foldl_invariant
           (fun im y' => foldl (applyRoundedCorners_pixel w h r y') im (seqZ 0 w))
           (fun im => image.NRGBA.laidOut w h im
                      /\ image.NRGBA.Pix im !! i = image.NRGBA.Pix img !! i)).
  - by split.
  - intros im y' Hy' [Hlo Heq]. destruct (Hys y' Hy') as [Hr Hne].
    destruct (row_frame w h r y' im x y (seqZ 0 w) i Hb Hx Hy Hr) as [H1 H2];
      [|done|done|].
    + intros x' Hx'%elem_of_seqZ. split; [lia|]. by intros [_ ?].
    + split; [done|]. by rewrite H2.
Qed.

Lemma seqZ_split n k :
  0 <= k < n -> seqZ 0 n = seqZ 0 k ++ [k] ++ seqZ (k + 1) (n - k - 1).
Proof.
  intros H. replace n with (k + (1 + (n - k - 1))) at 1 by lia.
  rewrite (seqZ_app 0 k), (seqZ_app (0 + k) 1) by lia.
  by rewrite Z.add_0_l.
Qed.

(** The bytes of a pixel after the loop over its row. *)
Lemma row_lookup w h r img x y (i : nat) :
  4 * w * h < 2 ^ 63 -> 0 <= x < w -> 0 <= y < h ->
  4 * (y * w + x) <= Z.of_nat i < 4 * (y * w + x) + 4 ->
  image.NRGBA.laidOut w h img ->
  image.NRGBA.laidOut w h
    (foldl (applyRoundedCorners_pixel w h r y) img (seqZ 0 w))
  /\ image.NRGBA.Pix
       (foldl (applyRoundedCorners_pixel w h r y) img (seqZ 0 w)) !! i
     = if applyRoundedCorners_outside w h r x y then Some 0
       else image.NRGBA.Pix img !! i.
Proof.
  intros Hb Hx Hy Hi Hl.
  rewrite (seqZ_split w x) by done. rewrite !foldl_app. cbn [foldl].
  destruct (row_frame w h r y img x y (seqZ 0 x) i Hb Hx Hy Hy) as [L2 E2];
    [|done|done|].
  { intros x' Hx'%elem_of_seqZ. split; [lia|]. intros [? _]. lia. }
  set (img2 := foldl _ img (seqZ 0 x)) in *.
  destruct (pixel_lookup w h r img2 x y i L2 Hx Hy Hb) as (L3 & Z3 & E3).
  set (img3 := applyRoundedCorners_pixel w h r y img2 x) in *.
  destruct (row_frame w h r y img3 x y (seqZ (x + 1) (w - x - 1)) i
              Hb Hx Hy Hy) as [L4 E4]; [|done|done|].
  { intros x' Hx'%elem_of_seqZ. split; [lia|]. intros [? _]. lia. }
  split; [exact L4|]. rewrite E4.
  destruct (applyRoundedCorners_outside w h r x y).
  - by apply Z3.
  - rewrite E3 by (by left). by rewrite E2.
Qed.

(** The bytes of a pixel after the loops: zero when the pixel lies outside
    the arcs, as before otherwise. *)
Lemma loops_lookup w h r img x y (i : nat) :
  4 * w * h < 2 ^ 63 -> 0 <= x < w -> 0 <= y < h ->
  4 * (y * w + x) <= Z.of_nat i < 4 * (y * w + x) + 4 ->
  image.NRGBA.laidOut w h img ->
  let img' :=
    foldl (fun im y' => foldl (applyRoundedCorners_pixel w h r y') im (seqZ 0 w))
      img (seqZ 0 h) in
  image.NRGBA.laidOut w h img'
  /\ image.NRGBA.Pix img' !! i
     = if applyRoundedCorners_outside w h r x y then Some 0
       else image.NRGBA.Pix img !! i.
Proof.
  intros Hb Hx Hy Hi Hl img'. subst img'.
  rewrite (seqZ_split h y) by done. rewrite !foldl_app. cbn [foldl].
  destruct (rows_frame w h r img x y (seqZ 0 y) i Hb Hx Hy) as [L1 E1];
    [|done|done|].
  { intros y' Hy'%elem_of_seqZ. lia. }
  set (img1 := foldl _ img (seqZ 0 y)) in *.
  destruct (row_lookup w h r img1 x y i Hb Hx Hy Hi L1) as [L2 E2].
  set (img2 := foldl _ img1 (seqZ 0 w)) in *.
  destruct (rows_frame w h r img2 x y (seqZ (y + 1) (h - y - 1)) i Hb Hx Hy)
    as [L3 E3]; [|done|done|].
  { intros y' Hy'%elem_of_seqZ. lia. }
  split; [exact L3|]. rewrite E3, E2.
  destruct (applyRoundedCorners_outside w h r x y); [done|]. by rewrite E1.
Qed.

End RoundedCornersPixelwise.

Section RoundedCornersMore.

Implicit Types (img im : image.NRGBA.t).

Lemma applyRoundedCorners_loops w h r img :
  image.NRGBA.laidOut w h img -> 4 * w * h < 2 ^ 63 ->
  0 < r -> 0 < w -> 0 < h ->
  applyRoundedCorners img r
  = foldl (fun im y => foldl (applyRoundedCorners_pixel w h r y) im (seqZ 0 w))
      img (seqZ 0 h).
Proof.
  intros (HR & _ & _) Hb Hr Hw Hh.
  unfold applyRoundedCorners, image.NRGBA.Bounds. rewrite HR.
  unfold image.Rectangle.Dx, image.Rectangle.Dy, int.sub.
  cbn [image.Rectangle.Min image.Rectangle.Max image.Point.X image.Point.Y].
  rewrite (wrap64_small (w - 0)), (wrap64_small (h - 0)) by nia.
  rewrite !Z.sub_0_r.
  destruct (Z.leb_spec r 0); [lia|].
  destruct (Z.eqb_spec w 0); [lia|]. destruct (Z.eqb_spec h 0); [lia|]. done.
Qed.

Lemma applyRoundedCorners_at (img : image.NRGBA.t) (w h radius x y : Z) :
  image.NRGBA.laidOut w h img -> 4 * w * h < 2 ^ 63 ->
  0 < radius -> 0 <= x < w -> 0 <= y < h ->
  image.NRGBA.laidOut w h (applyRoundedCorners img radius)
  /\ image.NRGBA.NRGBAAt (applyRoundedCorners img radius) x y
     = if applyRoundedCorners_outside w h radius x y then [0; 0; 0; 0]
       else image.NRGBA.NRGBAAt img x y.
Proof.
  intros Hl Hb Hr Hx Hy.
  rewrite (applyRoundedCorners_loops w h) by (done || lia).
  assert (L : image.NRGBA.laidOut w h
                (foldl (fun im y' =>
                          foldl (applyRoundedCorners_pixel w h radius y') im
                            (seqZ 0 w)) img (seqZ 0 h))).
  { apply applyRoundedCorners_loops_invariant; [done|].
    intros im x' y' Hx' Hy' Him.
    by destruct (pixel_lookup w h radius im x' y' 0%nat Him Hx' Hy' Hb)
      as (H1 & _ & _). }
  split; [exact L|].
  rewrite !(NRGBAAt_laidOut w h) by done.
  assert (Ho : 4 * (y * w + x) = Z.of_nat (Z.to_nat (4 * (y * w + x)))) by nia.
  destruct (applyRoundedCorners_outside w h radius x y) eqn:E.
  - apply take4_drop_zero. intros i Hi.
    destruct (loops_lookup w h radius img x y i Hb Hx Hy ltac:(lia) Hl)
      as [_ H]. by rewrite E in H.
  - apply take4_drop_ext. intros i Hi.
    destruct (loops_lookup w h radius img x y i Hb Hx Hy ltac:(lia) Hl)
      as [_ H]. by rewrite E in H.
Qed.

(** The mask, pixel by pixel: on an image laid out at the origin every
    pixel that lies outside the corner arcs gets four zero bytes, every
    other pixel keeps its four bytes, and the layout of the image stays. *)
Theorem applyRoundedCorners_pixelwise (img : image.NRGBA.t)
    (w h radius x y : Z) :
  image.NRGBA.laidOut w h img -> 4 * w * h < 2 ^ 63 ->
  0 < radius -> 0 <= x < w -> 0 <= y < h ->
  image.NRGBA.laidOut w h (applyRoundedCorners img radius)
  /\ image.NRGBA.NRGBAAt (applyRoundedCorners img radius) x y
     = if applyRoundedCorners_outside w h radius x y then [0; 0; 0; 0]
       else image.NRGBA.NRGBAAt img x y.
Proof. apply applyRoundedCorners_at. Qed.

Lemma applyRoundedCorners_pixelwise_witness :
  image.NRGBA.laidOut 3 3
    (applyRoundedCorners
       (image.NRGBA.mk (replicate 36 255) 12 (image.Rect 0 0 3 3)) 1)
  /\ image.NRGBA.NRGBAAt
       (applyRoundedCorners
          (image.NRGBA.mk (replicate 36 255) 12 (image.Rect 0 0 3 3)) 1) 2 0
     = if applyRoundedCorners_outside 3 3 1 2 0 then [0; 0; 0; 0]
       else image.NRGBA.NRGBAAt
              (image.NRGBA.mk (replicate 36 255) 12 (image.Rect 0 0 3 3)) 2 0.
Proof.
  apply (applyRoundedCorners_pixelwise
           (image.NRGBA.mk (replicate 36 255) 12 (image.Rect 0 0 3 3)) 3 3 1 2 0);
    try lia.
  repeat split.
Defined.

Lemma outside_sub w r : 0 < r < 2 ^ 31 -> 0 <= w < 2 ^ 31 -> int.sub w r = w - r.
Proof. intros. unfold int.sub. apply wrap64_small. lia. Qed.

(** The distance past the corner edge along one axis lies between 0 and
    the radius, and is 0 in the band between the corner squares. *)
Lemma corner_distance size r v :
  0 < r < 2 ^ 31 -> 0 < size < 2 ^ 31 -> 0 <= v < size ->
  let d := if v <? r then int.sub r v
           else if int.sub size r <=? v
                then int.sub v (int.sub (int.sub size r) 1)
                else 0 in
  0 <= d <= r
  /\ (r <= v < size - r -> d = 0)
  /\ (v = 0 -> d = r)
  /\ (v = size - 1 -> 1 <= d)
  /\ (v = size - 1 -> r < size -> d = r)
  /\ (v = size - 1 -> size <= r -> d = r - size + 1).
Proof.
  intros Hr Hs Hv. cbv zeta. unfold int.sub.
  rewrite (wrap64_small (size - r)) by lia.
  rewrite (wrap64_small (size - r - 1)) by lia.
  rewrite (wrap64_small (r - v)) by lia.
  rewrite (wrap64_small (v - (size - r - 1))) by lia.
  destruct (Z.ltb_spec v r); [lia|].
  destruct (Z.leb_spec (size - r) v); lia.
Qed.

Lemma outside_test w h r x y :
  0 < r < 2 ^ 31 -> 0 < w < 2 ^ 31 -> 0 < h < 2 ^ 31 ->
  0 <= x < w -> 0 <= y < h ->
  exists dx dy,
    (0 <= dx <= r /\ (r <= x < w - r -> dx = 0) /\ (x = 0 -> dx = r)
     /\ (x = w - 1 -> 1 <= dx) /\ (x = w - 1 -> r < w -> dx = r)
     /\ (x = w - 1 -> w <= r -> dx = r - w + 1))
    /\ (0 <= dy <= r /\ (r <= y < h - r -> dy = 0) /\ (y = 0 -> dy = r)
        /\ (y = h - 1 -> 1 <= dy) /\ (y = h - 1 -> r < h -> dy = r)
        /\ (y = h - 1 -> h <= r -> dy = r - h + 1))
    /\ applyRoundedCorners_outside w h r x y = (r * r <? dx * dx + dy * dy).
Proof.
  intros Hr Hw Hh Hx Hy. unfold applyRoundedCorners_outside.
  pose proof (corner_distance w r x Hr Hw Hx) as Hdx.
  pose proof (corner_distance h r y Hr Hh Hy) as Hdy.
  cbv zeta in *.
  set (dx := if x <? r then _ else _) in *.
  set (dy := if y <? r then _ else _) in *.
  exists dx, dy. split; [exact Hdx|]. split; [exact Hdy|].
  destruct Hdx as (Hdx & _), Hdy as (Hdy & _).
  unfold int.add, int.mul.
  rewrite (wrap64_small (r * r)), (wrap64_small (dx * dx)),
    (wrap64_small (dy * dy)) by nia.
  rewrite wrap64_small by nia. done.
Qed.

(** Which corner pixels the mask clears, and what it leaves alone.  The
    top-left, top-right and bottom-left pixels are always cleared; the
    bottom-right pixel is cleared when the radius is smaller than the
    width or the height, but is kept in an image so small that
    (radius-w+1)^2 + (radius-h+1)^2 <= radius^2.  The pixels of the band
    between the corner squares, horizontal or vertical, never change. *)
Theorem applyRoundedCorners_corners_and_band (img : image.NRGBA.t)
    (w h radius : Z) :
  image.NRGBA.laidOut w h img -> 4 * w * h < 2 ^ 63 ->
  0 < radius < 2 ^ 31 -> 0 < w < 2 ^ 31 -> 0 < h < 2 ^ 31 ->
  (forall x y, (x = 0 \/ x = w - 1) -> (y = 0 \/ y = h - 1) ->
     x = 0 \/ y = 0 \/ radius < w \/ radius < h ->
     image.NRGBA.NRGBAAt (applyRoundedCorners img radius) x y = [0; 0; 0; 0])
  /\ (w <= radius -> h <= radius ->
      (radius - w + 1) * (radius - w + 1) + (radius - h + 1) * (radius - h + 1)
        <= radius * radius ->
      image.NRGBA.NRGBAAt (applyRoundedCorners img radius) (w - 1) (h - 1)
      = image.NRGBA.NRGBAAt img (w - 1) (h - 1))
  /\ (forall x y, 0 <= x < w -> 0 <= y < h ->
        radius <= x < w - radius \/ radius <= y < h - radius ->
        image.NRGBA.NRGBAAt (applyRoundedCorners img radius) x y
        = image.NRGBA.NRGBAAt img x y).
Proof.
  intros Hl Hb Hr Hw Hh. split; [|split].
  - intros x y Hx Hy Hc.
    destruct (applyRoundedCorners_at img w h radius x y Hl Hb)
      as [_ H]; [lia|lia|lia|].
    rewrite H.
    destruct (outside_test w h radius x y Hr Hw Hh) as (dx & dy & Hd); [lia|lia|].
    destruct Hd as ((Hdx & _ & Hx0 & Hx1 & Hx2 & _)
                    & (Hdy & _ & Hy0 & Hy1 & Hy2 & _) & ->).
    destruct (Z.ltb_spec (radius * radius) (dx * dx + dy * dy)); [done|].
    exfalso.
    assert (dx = radius /\ 1 <= dy \/ dy = radius /\ 1 <= dx) as [[-> ?]|[-> ?]]
      by (destruct Hx, Hy, Hc as [?|[?|[?|?]]]; lia).
    all: nia.
  - intros Hwr Hhr Hsmall.
    destruct (applyRoundedCorners_at img w h radius (w - 1) (h - 1) Hl Hb)
      as [_ H]; [lia|lia|lia|].
    rewrite H.
    destruct (outside_test w h radius (w - 1) (h - 1) Hr Hw Hh)
      as (dx & dy & Hd); [lia|lia|].
    destruct Hd as ((_ & _ & _ & _ & _ & Hx) & (_ & _ & _ & _ & _ & Hy) & ->).
    rewrite Hx, Hy by lia.
    destruct (Z.ltb_spec (radius * radius)
                ((radius - w + 1) * (radius - w + 1)
                 + (radius - h + 1) * (radius - h + 1))); [lia|done].
  - intros x y Hx Hy Hband.
    destruct (applyRoundedCorners_at img w h radius x y Hl Hb)
      as [_ H]; [lia|lia|lia|].
    rewrite H.
    destruct (outside_test w h radius x y Hr Hw Hh Hx Hy) as (dx & dy & Hd).
    destruct Hd as ((Hdx & Hbx & _) & (Hdy & Hby & _) & ->).
    destruct (Z.ltb_spec (radius * radius) (dx * dx + dy * dy)); [|done].
    destruct Hband as [Hb1|Hb1]; [rewrite (Hbx Hb1) in *|rewrite (Hby Hb1) in *];
      nia.
Qed.

Lemma applyRoundedCorners_corners_and_band_witness :
  (forall x y, (x = 0 \/ x = 4 - 1) -> (y = 0 \/ y = 3 - 1) ->
     x = 0 \/ y = 0 \/ 1 < 4 \/ 1 < 3 ->
     image.NRGBA.NRGBAAt
       (applyRoundedCorners
          (image.NRGBA.mk (replicate 48 255) 16 (image.Rect 0 0 4 3)) 1) x y
     = [0; 0; 0; 0])
  /\ (4 <= 1 -> 3 <= 1 ->
      (1 - 4 + 1) * (1 - 4 + 1) + (1 - 3 + 1) * (1 - 3 + 1) <= 1 * 1 ->
      image.NRGBA.NRGBAAt
        (applyRoundedCorners
           (image.NRGBA.mk (replicate 48 255) 16 (image.Rect 0 0 4 3)) 1)
        (4 - 1) (3 - 1)
      = image.NRGBA.NRGBAAt
          (image.NRGBA.mk (replicate 48 255) 16 (image.Rect 0 0 4 3))
          (4 - 1) (3 - 1))
  /\ (forall x y, 0 <= x < 4 -> 0 <= y < 3 ->
        1 <= x < 4 - 1 \/ 1 <= y < 3 - 1 ->
        image.NRGBA.NRGBAAt
          (applyRoundedCorners
             (image.NRGBA.mk (replicate 48 255) 16 (image.Rect 0 0 4 3)) 1) x y
        = image.NRGBA.NRGBAAt
            (image.NRGBA.mk (replicate 48 255) 16 (image.Rect 0 0 4 3)) x y).
Proof.
  apply (applyRoundedCorners_corners_and_band
           (image.NRGBA.mk (replicate 48 255) 16 (image.Rect 0 0 4 3)) 4 3 1);
    try lia.
  repeat split.
Defined.

End RoundedCornersMore.

Section RoundedCornersIdempotent.

Lemma applyRoundedCorners_noop (img : image.NRGBA.t) (w h r : Z) :
  image.NRGBA.laidOut w h img ->
  r <= 0 \/ w = 0 \/ h = 0 ->
  applyRoundedCorners img r = img.
Proof.
  intros (HR & _ & _) Hc.
  unfold applyRoundedCorners, image.NRGBA.Bounds. rewrite HR.
  unfold image.Rectangle.Dx, image.Rectangle.Dy, int.sub.
  cbn [image.Rectangle.Min image.Rectangle.Max image.Point.X image.Point.Y].
  rewrite !Z.sub_0_r.
  destruct Hc as [Hc|[Hc|Hc]]; [|subst w|subst h].
  - by destruct (Z.leb_spec r 0); [|lia].
  - rewrite (wrap64_small 0) by lia. cbn [Z.eqb]. by rewrite orb_true_r.
  - rewrite (wrap64_small 0) by lia. cbn [Z.eqb]. by rewrite orb_true_r.
Qed.

(** Masking twice is masking once: a second pass over an image laid out
    at the origin changes nothing, whatever the radius. *)
Theorem applyRoundedCorners_idempotent (img : image.NRGBA.t) (w h radius : Z) :
  image.NRGBA.laidOut w h img -> 0 <= w -> 0 <= h -> 4 * w * h < 2 ^ 63 ->
  applyRoundedCorners (applyRoundedCorners img radius) radius
  = applyRoundedCorners img radius.
Proof.
  intros Hl Hw Hh Hb.
  destruct (decide (radius <= 0 \/ w = 0 \/ h = 0)) as [Hc|Hc].
  { by rewrite !(applyRoundedCorners_noop img w h radius). }
  assert (0 < radius /\ 0 < w /\ 0 < h) as (Hr & Hw' & Hh') by lia.
  assert (Hl1 : image.NRGBA.laidOut w h (applyRoundedCorners img radius)).
  { by destruct (applyRoundedCorners_at img w h radius 0 0 Hl Hb Hr)
      as [H _]; [lia|lia|]. }
  assert (Hl2 : image.NRGBA.laidOut w h
                  (applyRoundedCorners (applyRoundedCorners img radius) radius)).
  { by destruct (applyRoundedCorners_at _ w h radius 0 0 Hl1 Hb Hr)
      as [H _]; [lia|lia|]. }
  assert (Hpix : image.NRGBA.Pix
                   (applyRoundedCorners (applyRoundedCorners img radius) radius)
                 = image.NRGBA.Pix (applyRoundedCorners img radius)).
  { apply list_eq. intros i.
    destruct (decide (Z.of_nat i < 4 * w * h)) as [Hi|Hi].
    - set (p := Z.of_nat i / 4).
      assert (Hp : 4 * p <= Z.of_nat i < 4 * p + 4).
      { unfold p. pose proof (Z.div_mod (Z.of_nat i) 4 ltac:(lia)).
        pose proof (Z.mod_pos_bound (Z.of_nat i) 4 ltac:(lia)). lia. }
      assert (Hpw : p = (p / w) * w + p mod w).
      { pose proof (Z.div_mod p w ltac:(lia)). lia. }
      assert (Hx : 0 <= p mod w < w) by (apply Z.mod_pos_bound; lia).
      assert (Hy : 0 <= p / w < h).
      { split; [apply Z.div_pos; lia|]. apply Z.div_lt_upper_bound; nia. }
      rewrite Hpw in Hp.
      rewrite (applyRoundedCorners_loops w h radius (applyRoundedCorners img radius))
        by done.
      destruct (loops_lookup w h radius (applyRoundedCorners img radius)
                  (p mod w) (p / w) i Hb Hx Hy Hp Hl1) as [_ ->].
      destruct (applyRoundedCorners_outside w h radius (p mod w) (p / w)) eqn:E;
        [|done].
      rewrite (applyRoundedCorners_loops w h radius img) by done.
      destruct (loops_lookup w h radius img (p mod w) (p / w) i Hb Hx Hy Hp Hl)
        as [_ ->].
      by rewrite E.
    - destruct Hl1 as (_ & _ & L1), Hl2 as (_ & _ & L2).
      rewrite !lookup_ge_None_2 by lia. done. }
  destruct Hl1 as (R1 & S1 & _), Hl2 as (R2 & S2 & _).
  destruct (applyRoundedCorners (applyRoundedCorners img radius) radius),
    (applyRoundedCorners img radius). cbn in *. congruence.
Qed.

Lemma applyRoundedCorners_idempotent_witness :
  applyRoundedCorners
    (applyRoundedCorners
       (image.NRGBA.mk (replicate 48 255) 16 (image.Rect 0 0 4 3)) 2) 2
  = applyRoundedCorners
      (image.NRGBA.mk (replicate 48 255) 16 (image.Rect 0 0 4 3)) 2.
Proof.
  apply (applyRoundedCorners_idempotent _ 4 3 2); try lia.
  repeat split.
Defined.

End RoundedCornersIdempotent.

Section ThumbnailFitMore.

Lemma thumbnailFit_unfold (srcW srcH maxW maxH : Z) :
  0 < srcW < 2 ^ 31 -> 0 < srcH < 2 ^ 31 ->
  0 <= maxW < 2 ^ 31 -> 0 <= maxH < 2 ^ 31 ->
  thumbnailFit srcW srcH maxW maxH
  = if maxH <? srcH * maxW / srcW then (srcW * maxH / srcH, maxH)
    else (maxW, srcH * maxW / srcW).
Proof.
  intros HW HH HmW HmH. unfold thumbnailFit.
  destruct (Z.eqb_spec srcW 0); [lia|]. destruct (Z.eqb_spec srcH 0); [lia|].
  cbn [orb]. unfold int.quo, int.mul.
  assert (Hp1 : 0 <= srcH * maxW < 2 ^ 62) by nia.
  assert (Hp2 : 0 <= srcW * maxH < 2 ^ 62) by nia.
  rewrite (wrap64_small (srcH * maxW)) by lia.
  rewrite (wrap64_small (srcW * maxH)) by lia.
  rewrite !Z.quot_div_nonneg by lia.
  pose proof (Z.div_pos (srcH * maxW) srcW ltac:(lia) ltac:(lia)) as Hq1.
  pose proof (Z.div_pos (srcW * maxH) srcH ltac:(lia) ltac:(lia)) as Hq2.
  assert (Hd1 : srcH * maxW / srcW <= srcH * maxW).
  { apply Z.div_le_upper_bound; nia. }
  assert (Hd2 : srcW * maxH / srcH <= srcW * maxH).
  { apply Z.div_le_upper_bound; nia. }
  rewrite (wrap64_small (srcH * maxW / srcW)) by lia.
  rewrite (wrap64_small (srcW * maxH / srcH)) by lia.
  done.
Qed.

(** The thumbnail box is filled whatever the size of the source: for
    every non-empty source, smaller or larger than the box, the result
    lies within the box and one of its sides is the side of the box, so
    small artwork is scaled up.  A source of the aspect ratio of the box
    gets the whole box. *)
Theorem thumbnailFit_fills_box (srcW srcH maxW maxH : Z) :
  0 < srcW < 2 ^ 31 -> 0 < srcH < 2 ^ 31 ->
  0 <= maxW < 2 ^ 31 -> 0 <= maxH < 2 ^ 31 ->
  (0 <= (thumbnailFit srcW srcH maxW maxH).1 <= maxW
   /\ 0 <= (thumbnailFit srcW srcH maxW maxH).2 <= maxH
   /\ ((thumbnailFit srcW srcH maxW maxH).1 = maxW
       \/ (thumbnailFit srcW srcH maxW maxH).2 = maxH))
  /\ (srcW * maxH = srcH * maxW ->
      thumbnailFit srcW srcH maxW maxH = (maxW, maxH)).
Proof.
  intros HW HH HmW HmH. rewrite thumbnailFit_unfold by done.
  pose proof (Z.div_pos (srcH * maxW) srcW ltac:(lia) ltac:(lia)) as Hq1.
  pose proof (Z.div_pos (srcW * maxH) srcH ltac:(lia) ltac:(lia)) as Hq2.
  pose proof (Z.mul_div_le (srcH * maxW) srcW ltac:(lia)) as Hl1.
  pose proof (Z.mul_succ_div_gt (srcH * maxW) srcW ltac:(lia)) as Hu1.
  destruct (Z.ltb_spec maxH (srcH * maxW / srcW)) as [Hgt|Hle]; cbn [fst snd].
  - assert (srcW * maxH / srcH <= maxW).
    { apply Z.div_le_upper_bound; [lia|]. nia. }
    split; [lia|]. intros Heq. exfalso.
    rewrite <- Heq, (Z.mul_comm srcW maxH), Z.div_mul in Hgt by lia. lia.
  - split; [lia|]. intros Heq.
    by rewrite <- Heq, (Z.mul_comm srcW maxH), Z.div_mul by lia.
Qed.

Lemma thumbnailFit_fills_box_witness :
  (0 <= (thumbnailFit 32 16 576 432).1 <= 576
   /\ 0 <= (thumbnailFit 32 16 576 432).2 <= 432
   /\ ((thumbnailFit 32 16 576 432).1 = 576
       \/ (thumbnailFit 32 16 576 432).2 = 432))
  /\ (32 * 432 = 16 * 576 -> thumbnailFit 32 16 576 432 = (576, 432)).
Proof. apply (thumbnailFit_fills_box 32 16 576 432); lia. Defined.

(** Only the aspect ratio of the source counts: multiplying both source
    dimensions by the same factor gives the same thumbnail size. *)
Theorem thumbnailFit_scale_invariant (k srcW srcH maxW maxH : Z) :
  0 < k -> 0 < srcW -> 0 < srcH -> k * srcW < 2 ^ 31 -> k * srcH < 2 ^ 31 ->
  0 <= maxW < 2 ^ 31 -> 0 <= maxH < 2 ^ 31 ->
  thumbnailFit (k * srcW) (k * srcH) maxW maxH
  = thumbnailFit srcW srcH maxW maxH.
Proof.
  intros Hk HW HH HkW HkH HmW HmH.
  rewrite !thumbnailFit_unfold by nia.
  rewrite <- !Z.mul_assoc, !Z.div_mul_cancel_l by lia. done.
Qed.

Lemma thumbnailFit_scale_invariant_witness :
  thumbnailFit (3 * 640) (3 * 480) 576 432 = thumbnailFit 640 480 576 432.
Proof. apply (thumbnailFit_scale_invariant 3 640 480 576 432); lia. Defined.

(** Nothing keeps a side from rounding down to zero.  The height is 0
    exactly when the box has no height or the source is more than maxW
    times as wide as it is high; the width is 0 only when the box has no
    width or the source is more than maxH times as high as it is wide. *)
Theorem thumbnailFit_zero_side (srcW srcH maxW maxH : Z) :
  0 < srcW < 2 ^ 31 -> 0 < srcH < 2 ^ 31 ->
  0 <= maxW < 2 ^ 31 -> 0 <= maxH < 2 ^ 31 ->
  ((thumbnailFit srcW srcH maxW maxH).2 = 0
   <-> maxH = 0 \/ srcH * maxW < srcW)
  /\ ((thumbnailFit srcW srcH maxW maxH).1 = 0
      -> maxW = 0 \/ srcW * maxH < srcH).
Proof.
  intros HW HH HmW HmH. rewrite thumbnailFit_unfold by done.
  pose proof (Z.div_pos (srcH * maxW) srcW ltac:(lia) ltac:(lia)) as Hq1.
  pose proof (Z.mul_div_le (srcH * maxW) srcW ltac:(lia)) as Hl1.
  pose proof (Z.mul_succ_div_gt (srcH * maxW) srcW ltac:(lia)) as Hu1.
  pose proof (Z.mul_succ_div_gt (srcW * maxH) srcH ltac:(lia)) as Hu2.
  destruct (Z.ltb_spec maxH (srcH * maxW / srcW)) as [Hgt|Hle]; cbn [fst snd].
  - split; [split; [lia|]|nia].
    intros [?|Hflat]; [done|]. rewrite (Z.div_small (srcH * maxW) srcW) in Hgt by nia.
    lia.
  - split; [split|lia].
    + intros H0. rewrite H0 in Hu1. right. nia.
    + intros [->|Hflat]; [lia|]. apply Z.div_small. nia.
Qed.

Lemma thumbnailFit_zero_side_witness :
  ((thumbnailFit 1280 1 576 432).2 = 0 <-> 432 = 0 \/ 1 * 576 < 1280)
  /\ ((thumbnailFit 1280 1 576 432).1 = 0 -> 576 = 0 \/ 1280 * 432 < 1).
Proof. apply (thumbnailFit_zero_side 1280 1 576 432); lia. Defined.

End ThumbnailFitMore.

Section TrimSpaceIdempotent.

Implicit Types s r : gostring.

Lemma leadSpace_take n s :
  strings.leadSpace s = 0%nat -> strings.leadSpace (take n s) = 0%nat.
Proof.
  intros H. destruct s as [|a [|b [|c s]]]; destruct n as [|[|[|n]]];
    simpl in *; try done;
    destruct (strings.asciiSpace a); try done;
    destruct (strings.space2 a b); done.
Qed.

Lemma trimLeftN_lead n s :
  (length s <= n)%nat -> strings.leadSpace (strings.trimLeftN n s) = 0%nat.
Proof.
  revert s; induction n as [|n IH]; intros s Hn.
  - by destruct s; [|simpl in Hn; lia].
  - cbn [strings.trimLeftN]. destruct (strings.leadSpace s) as [|w] eqn:E; [done|].
    apply IH. rewrite length_drop. lia.
Qed.

Lemma trimRightN_trail n r :
  (length r <= n)%nat -> strings.trailSpace (strings.trimRightN n r) = 0%nat.
Proof.
  revert r; induction n as [|n IH]; intros r Hn.
  - by destruct r; [|simpl in Hn; lia].
  - cbn [strings.trimRightN]. destruct (strings.trailSpace r) as [|w] eqn:E; [done|].
    apply IH. rewrite length_drop. lia.
Qed.

Lemma trimLeftN_drop n s : exists k, strings.trimLeftN n s = drop k s.
Proof.
  revert s; induction n as [|n IH]; intros s; [by exists 0%nat|].
  cbn [strings.trimLeftN]. destruct (strings.leadSpace s) as [|w]; [by exists 0%nat|].
  destruct (IH (drop (S w) s)) as [k ->]. exists (S w + k)%nat.
  by rewrite drop_drop.
Qed.

Lemma trimRightN_drop n r : exists k, strings.trimRightN n r = drop k r.
Proof.
  revert r; induction n as [|n IH]; intros r; [by exists 0%nat|].
  cbn [strings.trimRightN]. destruct (strings.trailSpace r) as [|w]; [by exists 0%nat|].
  destruct (IH (drop (S w) r)) as [k ->]. exists (S w + k)%nat.
  by rewrite drop_drop.
Qed.

Lemma TrimRightSpace_take s : exists m, strings.TrimRightSpace s = take m s.
Proof.
  unfold strings.TrimRightSpace.
  destruct (trimRightN_drop (length s) (rev s)) as [k ->].
  exists (length s - k)%nat. by rewrite skipn_rev, rev_involutive.
Qed.

(** What [TrimSpace] returns is a piece of its argument. *)
Lemma TrimSpace_piece s : exists k m, strings.TrimSpace s = take m (drop k s).
Proof.
  unfold strings.TrimSpace, strings.TrimLeftSpace.
  destruct (trimLeftN_drop (length s) s) as [k ->].
  destruct (TrimRightSpace_take (drop k s)) as [m ->]. by exists k, m.
Qed.

Lemma elem_of_take_1 {A} (x : A) n (l : list A) : x ∈ take n l -> x ∈ l.
Proof. intros (i & H & _)%elem_of_take. by eapply list_elem_of_lookup_2. Qed.

Lemma TrimSpace_elem c s : c ∈ strings.TrimSpace s -> c ∈ s.
Proof.
  destruct (TrimSpace_piece s) as (k & m & ->).
  intros (i & H & _)%elem_of_take. rewrite lookup_drop in H.
  by eapply list_elem_of_lookup_2.
Qed.

Lemma TrimSpace_trimmed s :
  strings.leadSpace (strings.TrimSpace s) = 0%nat
  /\ strings.trailSpace (rev (strings.TrimSpace s)) = 0%nat.
Proof.
  split.
  - unfold strings.TrimSpace.
    destruct (TrimRightSpace_take (strings.TrimLeftSpace s)) as [m ->].
    apply leadSpace_take, trimLeftN_lead. done.
  - unfold strings.TrimSpace, strings.TrimRightSpace.
    rewrite rev_involutive. apply trimRightN_trail. by rewrite length_rev.
Qed.

Lemma TrimSpace_idemp s :
  strings.TrimSpace (strings.TrimSpace s) = strings.TrimSpace s.
Proof. by apply TrimSpace_fix; apply TrimSpace_trimmed. Qed.

End TrimSpaceIdempotent.

Section LastIndexFacts.

Implicit Types s a b : gostring.

(** [LastIndex] of a single byte: -1 when the byte is absent, else the
    place of its last occurrence. *)
Lemma lastIndexFrom_spec c s i :
  0 <= i ->
  ((c ∉ s) /\ strings.lastIndexFrom s [c] i = -1)
  \/ (exists a b, s = a ++ c :: b /\ (c ∉ b)
                  /\ strings.lastIndexFrom s [c] i = i + Z.of_nat (length a)).
Proof.
  intros Hi. destruct (decide (c ∈ s)) as [Hin|Hout].
  - right. revert Hin. induction s as [|d s IH] using rev_ind; [set_solver|].
    intros Hin. destruct (decide (c = d)) as [<-|Hne].
    + exists s, []. split; [done|]. split; [set_solver|].
      apply lastIndexFrom_last; [set_solver|done].
    + destruct IH as (a & b & -> & Hb & _); [set_solver|].
      exists a, (b ++ [d]). split; [by rewrite <- app_assoc|].
      split; [set_solver|].
      rewrite <- app_assoc. apply lastIndexFrom_last; [set_solver|done].
  - left. split; [done|]. by apply lastIndexFrom_absent.
Qed.

Lemma LastIndex_spec c s :
  ((c ∉ s) /\ strings.LastIndex s [c] = -1)
  \/ (exists a b, s = a ++ c :: b /\ (c ∉ b)
                  /\ strings.LastIndex s [c] = Z.of_nat (length a)).
Proof.
  unfold strings.LastIndex.
  destruct (lastIndexFrom_spec c s 0 ltac:(lia)) as [?|(a & b & ? & ? & ->)];
    [by left|right]. exists a, b. split; [done|]. split; [done|]. lia.
Qed.

End LastIndexFacts.

Section CodecMore.

Implicit Types d t name : gostring.

(** The text [extractTag] trims lies behind the last "(". *)
Lemma extractTag_piece name :
  extractTag name = []
  \/ exists a b m, name = a ++ "("%char :: b /\ ("("%char ∉ b)
                   /\ extractTag name = strings.TrimSpace (take m b).
Proof.
  unfold extractTag. change (str "(") with ["("%char].
  destruct (LastIndex_spec "(" name) as [[_ ->]|(a & b & -> & Hb & ->)];
    [by left|].
  destruct (Z.ltb_spec (Z.of_nat (length a)) 0); [lia|].
  destruct (_ <=? _); [by left|]. right.
  exists a, b. eexists. split; [done|]. split; [done|].
  unfold strings.slice. f_equal. f_equal.
  replace (Z.to_nat (Z.of_nat (length a) + 1)) with (length (a ++ ["("%char])).
  - rewrite (cons_middle "("%char a b), app_assoc. by rewrite drop_app_length.
  - rewrite length_app. cbn [length]. lia.
Qed.

Lemma extractTag_tidy name :
  ("("%char ∉ extractTag name)
  /\ strings.TrimSpace (extractTag name) = extractTag name
  /\ ("("%char ∉ name \/ ")"%char ∉ name -> extractTag name = []).
Proof.
  split; [|split].
  - destruct (extractTag_piece name) as [->|(a & b & m & _ & Hb & ->)];
      [set_solver|].
    intros H%TrimSpace_elem%elem_of_take_1. done.
  - destruct (extractTag_piece name) as [->|(a & b & m & _ & Hb & ->)];
      [reflexivity|]. apply TrimSpace_idemp.
  - unfold extractTag. change (str "(") with ["("%char].
    change (str ")") with [")"%char].
    intros [H|H].
    + destruct (LastIndex_spec "(" name) as [[_ ->]|(a & b & -> & _)];
        [done|set_solver].
    + destruct (LastIndex_spec ")" name) as [[_ ->]|(a & b & -> & _)];
        [|set_solver].
      destruct (_ <? 0) eqn:E; [done|].
      apply Z.ltb_ge in E. by destruct (Z.leb_spec (-1) (strings.LastIndex name ["("%char])); [|lia].
Qed.

(** Every tag the decoder returns is one the codec can carry: it holds
    no "(" and has no white space at its ends.  A name without "(" or
    without ")" has the empty tag. *)
Theorem extractTag_clean name :
  ("("%char ∉ extractTag name)
  /\ strings.TrimSpace (extractTag name) = extractTag name
  /\ ("("%char ∉ name \/ ")"%char ∉ name -> extractTag name = []).
Proof. apply extractTag_tidy. Qed.

Lemma extractDisplayName_piece name :
  "("%char ∈ name ->
  exists a, extractDisplayName name = strings.TrimSpace a.
Proof.
  intros Hin. unfold extractDisplayName. change (str "(") with ["("%char].
  destruct (LastIndex_spec "(" name) as [[? _]|(a & b & -> & Hb & ->)]; [done|].
  destruct (Z.ltb_spec (Z.of_nat (length a)) 0); [lia|]. by eexists.
Qed.

(** Decoding is stable: the pair decoded from any folder name, encoded
    again, decodes to the same pair.  For the display name this needs a
    name that holds a "(" or has no white space at its ends, since a name
    without "(" is returned untrimmed. *)
Theorem decode_encode_stable (pos : ShortcutPosition) name :
  "("%char ∈ name \/ strings.TrimSpace name = name ->
  extractTag (buildFolderName pos (extractDisplayName name) (extractTag name))
  = extractTag name
  /\ extractDisplayName
       (buildFolderName ShortcutPositionAlpha (extractDisplayName name)
          (extractTag name))
     = extractDisplayName name.
Proof.
  intros Hname.
  destruct (extractTag_tidy name) as (Hp & Ht & _). split.
  - assert (forall x, extractTag (x ++ str " (" ++ extractTag name ++ str ")")
                      = extractTag name) as H
      by (intros x; by apply extractTag_encoded).
    destruct pos; unfold buildFolderName.
    + rewrite app_assoc. apply H.
    + rewrite app_assoc. apply H.
    + apply H.
  - unfold buildFolderName. rewrite extractDisplayName_encoded by done.
    apply TrimSpace_bare.
    destruct (decide ("("%char ∈ name)) as [Hin|Hout].
    + destruct (extractDisplayName_piece name Hin) as [a ->].
      apply TrimSpace_idemp.
    + destruct Hname as [?|Hfix]; [done|].
      unfold extractDisplayName. change (str "(") with ["("%char].
      destruct (LastIndex_spec "(" name) as [[_ ->]|(a & b & -> & _)];
        [done|set_solver].
Qed.

Lemma decode_encode_stable_witness :
  extractTag
    (buildFolderName ShortcutPositionTop
       (extractDisplayName (str "Game Boy (old) ( GB ) x"))
       (extractTag (str "Game Boy (old) ( GB ) x")))
  = extractTag (str "Game Boy (old) ( GB ) x")
  /\ extractDisplayName
       (buildFolderName ShortcutPositionAlpha
          (extractDisplayName (str "Game Boy (old) ( GB ) x"))
          (extractTag (str "Game Boy (old) ( GB ) x")))
     = extractDisplayName (str "Game Boy (old) ( GB ) x").
Proof.
  apply (decode_encode_stable ShortcutPositionTop (str "Game Boy (old) ( GB ) x")).
  left. vm_compute. set_solver.
Defined.

Lemma paren_split_inj (a a' t t' : gostring) :
  "("%char ∉ t -> "("%char ∉ t' ->
  a ++ "("%char :: t = a' ++ "("%char :: t' -> a = a' /\ t = t'.
Proof.
  intros Ht Ht'. revert a'. induction a as [|c a IH]; intros [|c' a'] E.
  - by injection E as ->.
  - injection E as <- ->. set_solver.
  - injection E as -> <-. set_solver.
  - injection E as -> E. by destruct (IH _ E) as [-> ->].
Qed.

(** At one position different pairs of display name and tag get
    different folder names, as long as the tags hold no "(", which is what
    the check for an existing shortcut by folder name relies on. *)
Theorem buildFolderName_injective (pos : ShortcutPosition) (d t d' t' : gostring) :
  "("%char ∉ t -> "("%char ∉ t' ->
  (d, t) <> (d', t') ->
  buildFolderName pos d t <> buildFolderName pos d' t'.
Proof.
  intros Ht Ht' Hne E. apply Hne.
  assert (d ++ str " (" ++ t ++ str ")" = d' ++ str " (" ++ t' ++ str ")") as E'.
  { destruct pos; unfold buildFolderName in E; [by apply app_inv_head in E..|done]. }
  change (d ++ str " (" ++ t ++ str ")")
    with (d ++ " "%char :: "("%char :: (t ++ [")"%char])) in E'.
  change (d' ++ str " (" ++ t' ++ str ")")
    with (d' ++ " "%char :: "("%char :: (t' ++ [")"%char])) in E'.
  rewrite (cons_middle " "%char d), (cons_middle " "%char d'), !app_assoc in E'.
  apply paren_split_inj in E' as [E1 E2]; [|set_solver..].
  apply app_inj_tail in E1 as [-> _]. apply app_inj_tail in E2 as [-> _]. done.
Qed.

Lemma buildFolderName_injective_witness :
  buildFolderName ShortcutPositionBottom (str "Tetris") (str "GB")
  <> buildFolderName ShortcutPositionBottom (str "Tetris") (str "GBC").
Proof.
  apply buildFolderName_injective; [vm_compute; set_solver..|discriminate].
Defined.

(** Without that, and across positions, folder names collide: a "(" in
    the tag can be moved to the display name, and the Top and Bottom
    prefixes can be part of an Alphabetical display name. *)
Theorem buildFolderName_collisions (pos : ShortcutPosition) (a b c d t : gostring) :
  buildFolderName pos (a ++ str " (" ++ b) c
  = buildFolderName pos a (b ++ str " (" ++ c)
  /\ buildFolderName ShortcutPositionTop d t
     = buildFolderName ShortcutPositionAlpha (topPrefix ++ d) t
  /\ buildFolderName ShortcutPositionBottom d t
     = buildFolderName ShortcutPositionAlpha (shortcutPrefix ++ d) t.
Proof.
  split; [|split].
  - unfold buildFolderName. destruct pos; by rewrite <- ?app_assoc.
  - unfold buildFolderName. by rewrite <- app_assoc.
  - unfold buildFolderName. by rewrite <- app_assoc.
Qed.

End CodecMore.

Section StripExtension.

Implicit Types b e name : gostring.

Lemma extRev_nodot r acc : "."%char ∉ r -> filepath.extRev r acc = [].
Proof.
  revert acc; induction r as [|c r IH]; intros acc Hd; [done|].
  cbn [filepath.extRev]. destruct (Ascii.eqb c "/"); [done|].
  destruct (Ascii.eqb_spec c "."); [set_solver|]. apply IH. set_solver.
Qed.

Lemma extRev_ext e r acc :
  "."%char ∉ e -> "/"%char ∉ e ->
  filepath.extRev (rev e ++ "."%char :: r) acc = "."%char :: e ++ acc.
Proof.
  revert acc; induction e as [|c e IH] using rev_ind; intros acc Hd Hs; [done|].
  rewrite rev_app_distr. cbn [rev app filepath.extRev].
  destruct (Ascii.eqb_spec c "/"); [set_solver|].
  destruct (Ascii.eqb_spec c "."); [set_solver|].
  rewrite IH by set_solver. by rewrite <- app_assoc.
Qed.

Lemma Ext_ext b e :
  "."%char ∉ e -> "/"%char ∉ e ->
  filepath.Ext (b ++ "."%char :: e) = "."%char :: e.
Proof.
  intros Hd Hs. unfold filepath.Ext.
  rewrite rev_app_distr. cbn [rev]. rewrite <- app_assoc. cbn [app].
  rewrite extRev_ext by done. by rewrite app_nil_r.
Qed.

Lemma HasSuffix_app b x : strings.HasSuffix (b ++ x) x = true.
Proof. unfold strings.HasSuffix. rewrite rev_app_distr. apply HasPrefix_app. Qed.

Lemma TrimSuffix_app b x : strings.TrimSuffix (b ++ x) x = b.
Proof.
  unfold strings.TrimSuffix. rewrite HasSuffix_app, length_app.
  replace (length b + length x - length x)%nat with (length b) by lia.
  by rewrite take_app_length.
Qed.

Lemma HasSuffix_inv s x : strings.HasSuffix s x = true -> exists b, s = b ++ x.
Proof.
  unfold strings.HasSuffix. intros [r E]%HasPrefix_inv. exists (rev r).
  apply (f_equal (@rev ascii)) in E.
  by rewrite rev_involutive, rev_app_distr, rev_involutive in E.
Qed.

(** What [stripExtension] takes away: the last dot and the one to four
    bytes behind it.  A name without a dot, a name ending in a dot and an
    extension of five bytes or more stay as they are; a name that is
    nothing but an extension becomes empty. *)
Theorem stripExtension_spec b e :
  "."%char ∉ e -> "/"%char ∉ e ->
  stripExtension (b ++ "."%char :: e)
  = if bool_decide (1 <= length e <= 4)%nat then b else b ++ "."%char :: e.
Proof.
  intros Hd Hs. unfold stripExtension. rewrite Ext_ext by done.
  cbn [length]. case_bool_decide as Hlen.
  - destruct (Nat.leb_spec 2 (S (length e))); [|lia].
    destruct (Nat.leb_spec (S (length e)) 5); [|lia].
    cbn [andb]. apply TrimSuffix_app.
  - destruct (Nat.leb_spec 2 (S (length e))); [|done].
    destruct (Nat.leb_spec (S (length e)) 5); [lia|done].
Qed.

Lemma stripExtension_spec_witness :
  stripExtension (str "Pokemon.Red.v1" ++ "."%char :: str "gb")
  = if bool_decide (1 <= length (str "gb") <= 4)%nat then str "Pokemon.Red.v1"
    else str "Pokemon.Red.v1" ++ "."%char :: str "gb".
Proof. apply stripExtension_spec; vm_compute; set_solver. Defined.

(** A name without a dot has no extension to lose. *)
Lemma stripExtension_nodot name : "."%char ∉ name -> stripExtension name = name.
Proof.
  intros Hd. unfold stripExtension, filepath.Ext.
  rewrite extRev_nodot; [done|]. by rewrite list_elem_of_In, <- in_rev, <- list_elem_of_In.
Qed.

End StripExtension.

Section SortMembers.

Context {A : Type} (less : A -> A -> bool).

Lemma insert_Permutation x l : sort.insert less x l ≡ₚ x :: l.
Proof.
  induction l as [|y l IH]; simpl; [done|].
  destruct (less x y); [done|]. rewrite IH. apply Permutation_swap.
Qed.

(** Sorting neither loses nor invents an entry. *)
Lemma Slice_Permutation l : sort.Slice l less ≡ₚ l.
Proof.
  unfold sort.Slice. induction l as [|x l IH]; simpl; [done|].
  by rewrite insert_Permutation, IH.
Qed.

Lemma elem_of_Slice x l : x ∈ sort.Slice l less <-> x ∈ l.
Proof. by rewrite Slice_Permutation. Qed.

End SortMembers.

Section ScanMembers.

Context {FS : Type} {os : OS FS} {ext : Extern} (env : Env).

Implicit Types (fs : FS).

Lemma elem_of_scanConsoleDirs c showHidden fs :
  c ∈ fst (scanConsoleDirs env showHidden fs) <->
  exists entries e,
    os_ReadDir (romsDir env) fs = inr entries /\ e ∈ entries
    /\ scanConsoleDirs_entry env showHidden fs e = Some c.
Proof.
  unfold scanConsoleDirs. destruct (os_ReadDir (romsDir env) fs) as [err|entries].
  - split; [by intros ?%elem_of_nil|]. by intros (? & ? & ? & _).
  - cbn [fst]. rewrite elem_of_Slice, list_elem_of_omap. split.
    + intros (e & He & Hc). by exists entries, e.
    + intros (? & e & [= <-] & He & Hc). by exists e.
Qed.

Lemma elem_of_scanROMs r consoleDir showHidden fs :
  r ∈ fst (scanROMs consoleDir showHidden fs) <->
  exists entries e,
    os_ReadDir consoleDir fs = inr entries /\ e ∈ entries
    /\ scanROMs_entry consoleDir showHidden fs e = Some r.
Proof.
  unfold scanROMs. destruct (os_ReadDir consoleDir fs) as [err|entries].
  - split; [by intros ?%elem_of_nil|]. by intros (? & ? & ? & _).
  - cbn [fst]. rewrite elem_of_Slice, list_elem_of_omap. split.
    + intros (e & He & Hc). by exists entries, e.
    + intros (? & e & [= <-] & He & Hc). by exists e.
Qed.

Lemma elem_of_scanTools t showHidden fs :
  t ∈ fst (scanTools env showHidden fs) <->
  exists entries e,
    os_ReadDir (toolsDir env) fs = inr entries /\ e ∈ entries
    /\ scanTools_entry env showHidden e = Some t.
Proof.
  unfold scanTools. destruct (os_ReadDir (toolsDir env) fs) as [err|entries].
  - split; [by intros ?%elem_of_nil|]. by intros (? & ? & ? & _).
  - cbn [fst]. rewrite elem_of_Slice, list_elem_of_omap. split.
    + intros (e & He & Hc). by exists entries, e.
    + intros (? & e & [= <-] & He & Hc). by exists e.
Qed.

Lemma elem_of_scanShortcuts s fs :
  s ∈ fst (scanShortcuts env fs) <->
  exists entries e,
    os_ReadDir (romsDir env) fs = inr entries /\ e ∈ entries
    /\ scanShortcuts_entry env fs e = Some s.
Proof.
  unfold scanShortcuts. destruct (os_ReadDir (romsDir env) fs) as [err|entries].
  - split; [by intros ?%elem_of_nil|]. by intros (? & ? & ? & _).
  - cbn [fst]. rewrite elem_of_Slice, list_elem_of_omap. split.
    + intros (e & He & Hc). by exists entries, e.
    + intros (? & e & [= <-] & He & Hc). by exists e.
Qed.

End ScanMembers.

Section ScanInvariants.

Context {FS : Type} {os : OS FS} {ext : Extern} (env : Env).

Implicit Types (fs : FS).

Lemma isHidden_false name :
  isHidden name = false ->
  strings.HasPrefix name (str ".") = false
  /\ strings.HasSuffix name (str ".disabled") = false
  /\ name <> str "map.txt".
Proof.
  unfold isHidden. intros H.
  apply orb_false_iff in H as [H H3]. apply orb_false_iff in H as [H1 H2].
  by apply bool_decide_eq_false in H3.
Qed.

Lemma scanConsoleDirs_entry_more fs e c :
  scanConsoleDirs_entry env false fs e = Some c ->
  scanConsoleDirs_entry env true fs e = Some c.
Proof.
  unfold scanConsoleDirs_entry. destruct (negb (DirEntry.IsDir e)); [done|].
  destruct (isShortcutFolder _ fs); [done|]. cbn [negb].
  destruct (isHidden (DirEntry.Name e)) eqn:Eh; [done|].
  destruct (isHidden_false _ Eh) as (Hdot & _ & Hmap).
  unfold isMacDotfile. rewrite Hdot. cbn [negb orb].
  rewrite (bool_decide_eq_false_2 _ Hmap).
  by destruct (negb (dirHasVisibleContent _ fs)).
Qed.

Lemma scanROMs_entry_more consoleDir fs e r :
  scanROMs_entry consoleDir false fs e = Some r ->
  scanROMs_entry consoleDir true fs e = Some r.
Proof.
  unfold scanROMs_entry. cbn [negb].
  destruct (isHidden (DirEntry.Name e)) eqn:Eh; [done|].
  destruct (isHidden_false _ Eh) as (Hdot & _ & Hmap).
  by rewrite Hdot, (bool_decide_eq_false_2 _ Hmap).
Qed.

Lemma scanTools_entry_more e t :
  scanTools_entry env false e = Some t -> scanTools_entry env true e = Some t.
Proof.
  unfold scanTools_entry. destruct (negb (DirEntry.IsDir e)); [done|].
  cbn [negb andb].
  destruct (isHidden (DirEntry.Name e)) eqn:Eh; [done|].
  destruct (isHidden_false _ Eh) as (Hdot & _ & _).
  by rewrite Hdot.
Qed.

End ScanInvariants.

(** Showing hidden entries only adds entries: whatever the card holds,
    every console, game and tool listed with the setting off is listed
    with the setting on, with the same fields. *)
Theorem showHidden_only_adds {FS : Type} {os : OS FS} {ext : Extern} (env : Env)
    (fs : FS) (consoleDir : path) :
  fst (scanConsoleDirs env false fs) ⊆ fst (scanConsoleDirs env true fs)
  /\ fst (scanROMs consoleDir false fs) ⊆ fst (scanROMs consoleDir true fs)
  /\ fst (scanTools env false fs) ⊆ fst (scanTools env true fs).
Proof.
  split; [|split].
  - intros c (entries & e & HR & He & Hc)%elem_of_scanConsoleDirs.
    apply elem_of_scanConsoleDirs. exists entries, e.
    split; [done|]. split; [done|]. by apply scanConsoleDirs_entry_more.
  - intros r (entries & e & HR & He & Hc)%elem_of_scanROMs.
    apply elem_of_scanROMs. exists entries, e.
    split; [done|]. split; [done|]. by apply scanROMs_entry_more.
  - intros t (entries & e & HR & He & Hc)%elem_of_scanTools.
    apply elem_of_scanTools. exists entries, e.
    split; [done|]. split; [done|]. by apply scanTools_entry_more.
Qed.

(** What holds of every console [scanConsoleDirs] lists: it has a tag,
    its path is the roms directory joined with its name, it is no
    shortcut folder, and it is marked disabled exactly when its name ends
    in ".disabled"; with hidden entries off it is not hidden, not
    disabled, and holds something that is not hidden. *)
Theorem scanConsoleDirs_listed {FS : Type} {os : OS FS} {ext : Extern}
    (env : Env) (showHidden : bool) (fs : FS) (c : ConsoleDir.t) :
  c ∈ fst (scanConsoleDirs env showHidden fs) ->
  ConsoleDir.Tag c <> []
  /\ ConsoleDir.Path c = filepath.Join (romsDir env) (ConsoleDir.Name c)
  /\ isShortcutFolder (ConsoleDir.Path c) fs = false
  /\ ConsoleDir.IsDisabled c
     = strings.HasSuffix (ConsoleDir.Name c) (str ".disabled")
  /\ (showHidden = false ->
      isHidden (ConsoleDir.Name c) = false
      /\ ConsoleDir.IsDisabled c = false
      /\ dirHasVisibleContent (ConsoleDir.Path c) fs = true).
Proof.
  intros (entries & e & _ & _ & Hc)%elem_of_scanConsoleDirs.
  unfold scanConsoleDirs_entry in Hc.
  destruct (negb (DirEntry.IsDir e)); [done|].
  destruct (isShortcutFolder _ fs) eqn:Esc; [done|].
  destruct (if negb showHidden then _ else _) eqn:Ehid; [done|].
  case_bool_decide as Htag; [done|]. injection Hc as <-.
  cbn [ConsoleDir.Tag ConsoleDir.Path ConsoleDir.Name ConsoleDir.IsDisabled].
  do 4 (split; [done|]). intros ->. cbn [negb] in Ehid.
  apply orb_false_iff in Ehid as [Eh Ev]. apply negb_false_iff in Ev.
  destruct (isHidden_false _ Eh) as (_ & Hdis & _). done.
Qed.

Lemma scanConsoleDirs_listed_witness :
  let c := ConsoleDir.mk (str "Sony PlayStation (PS)") (str "PS")
             (romsPath ++ [str "Sony PlayStation (PS)"])
             (str "Sony PlayStation") false in
  ConsoleDir.Tag c <> []
  /\ ConsoleDir.Path c = filepath.Join (romsDir deviceEnv) (ConsoleDir.Name c)
  /\ isShortcutFolder (ConsoleDir.Path c) sdcardFull = false
  /\ ConsoleDir.IsDisabled c
     = strings.HasSuffix (ConsoleDir.Name c) (str ".disabled")
  /\ (false = false ->
      isHidden (ConsoleDir.Name c) = false
      /\ ConsoleDir.IsDisabled c = false
      /\ dirHasVisibleContent (ConsoleDir.Path c) sdcardFull = true).
Proof.
  intros c.
  apply (scanConsoleDirs_listed (ext := refExtern) deviceEnv false sdcardFull c).
  vm_compute. apply list_elem_of_here.
Defined.

(** What holds of every entry [scanROMs] lists: its path is the console
    directory joined with its name; its name does not start with a dot
    and is not "map.txt"; it is marked disabled exactly when its name ends
    in ".disabled", which it never does with hidden entries off; it is not
    both a multi-disc game and a cue folder; a multi-disc game is a folder
    that holds the playlist named after it, and a cue folder holds the cue
    sheet named after it and no such playlist. *)
Theorem scanROMs_listed {FS : Type} {os : OS FS} {ext : Extern}
    (consoleDir : path) (showHidden : bool) (fs : FS) (r : ROMFile.t) :
  r ∈ fst (scanROMs consoleDir showHidden fs) ->
  ROMFile.Path r = filepath.Join consoleDir (ROMFile.Name r)
  /\ strings.HasPrefix (ROMFile.Name r) (str ".") = false
  /\ ROMFile.Name r <> str "map.txt"
  /\ ROMFile.IsDisabled r = strings.HasSuffix (ROMFile.Name r) (str ".disabled")
  /\ (showHidden = false -> ROMFile.IsDisabled r = false)
  /\ ROMFile.IsMultiDisc r && ROMFile.IsCueFolder r = false
  /\ (ROMFile.IsMultiDisc r = true ->
      os_Stat (filepath.Join (ROMFile.Path r) (ROMFile.Display r ++ str ".m3u")) fs
      = None)
  /\ (ROMFile.IsCueFolder r = true ->
      os_Stat (filepath.Join (ROMFile.Path r) (ROMFile.Display r ++ str ".cue")) fs
      = None
      /\ os_Stat (filepath.Join (ROMFile.Path r) (ROMFile.Display r ++ str ".m3u"))
           fs <> None).
Proof.
  intros (entries & e & _ & _ & Hr)%elem_of_scanROMs.
  unfold scanROMs_entry in Hr.
  destruct (if negb showHidden then _ else _) eqn:Ehid; [done|].
  assert (Hname : strings.HasPrefix (DirEntry.Name e) (str ".") = false
                  /\ DirEntry.Name e <> str "map.txt"
                  /\ (showHidden = false ->
                      strings.HasSuffix (DirEntry.Name e) (str ".disabled") = false)).
  { destruct showHidden; cbn [negb] in Ehid.
    - apply orb_false_iff in Ehid as [H1 H2].
      by apply bool_decide_eq_false in H2.
    - by destruct (isHidden_false _ Ehid) as (? & ? & ?). }
  destruct Hname as (Hdot & Hmap & Hdis).
  destruct (DirEntry.IsDir e).
  - destruct (os_Stat (filepath.Join (filepath.Join consoleDir (DirEntry.Name e))
                         (_ ++ str ".m3u")) fs) eqn:Em3u.
    + destruct (os_Stat (filepath.Join (filepath.Join consoleDir (DirEntry.Name e))
                         (_ ++ str ".cue")) fs) eqn:Ecue; [done|].
      injection Hr as <-.
      cbn [ROMFile.Path ROMFile.Name ROMFile.Display ROMFile.IsMultiDisc
             ROMFile.IsCueFolder ROMFile.IsDisabled].
      do 6 (split; [done|]). split; [done|]. intros _.
      split; [exact Ecue|]. intros E. by pose proof (eq_trans (eq_sym E) Em3u).
    + injection Hr as <-.
      cbn [ROMFile.Path ROMFile.Name ROMFile.Display ROMFile.IsMultiDisc
             ROMFile.IsCueFolder ROMFile.IsDisabled].
      do 6 (split; [done|]). split; [intros _; exact Em3u|done].
  - injection Hr as <-.
    cbn [ROMFile.Path ROMFile.Name ROMFile.Display ROMFile.IsMultiDisc
           ROMFile.IsCueFolder ROMFile.IsDisabled].
    do 6 (split; [done|]). split; done.
Qed.

Lemma scanROMs_listed_witness :
  let dir := romsPath ++ [str "Sony PlayStation (PS)"] in
  let r := ROMFile.mk (str "Doom") (dir ++ [str "Doom"]) (str "Doom")
             false true false in
  ROMFile.Path r = filepath.Join dir (ROMFile.Name r)
  /\ strings.HasPrefix (ROMFile.Name r) (str ".") = false
  /\ ROMFile.Name r <> str "map.txt"
  /\ ROMFile.IsDisabled r = strings.HasSuffix (ROMFile.Name r) (str ".disabled")
  /\ (true = false -> ROMFile.IsDisabled r = false)
  /\ ROMFile.IsMultiDisc r && ROMFile.IsCueFolder r = false
  /\ (ROMFile.IsMultiDisc r = true ->
      os_Stat (filepath.Join (ROMFile.Path r) (ROMFile.Display r ++ str ".m3u"))
        sdcardFull = None)
  /\ (ROMFile.IsCueFolder r = true ->
      os_Stat (filepath.Join (ROMFile.Path r) (ROMFile.Display r ++ str ".cue"))
        sdcardFull = None
      /\ os_Stat (filepath.Join (ROMFile.Path r) (ROMFile.Display r ++ str ".m3u"))
           sdcardFull <> None).
Proof.
  intros dir r.
  apply (scanROMs_listed (ext := refExtern) dir true sdcardFull r).
  vm_compute. apply list_elem_of_here.
Defined.

(** What holds of every tool [scanTools] lists: it stands for a directory
    entry whose name does not start with a dot and is the tool's name
    followed by ".pak", or, with hidden entries on only, by
    ".pak.disabled", in which case the display name says so. *)
Theorem scanTools_listed {FS : Type} {os : OS FS} {ext : Extern} (env : Env)
    (showHidden : bool) (fs : FS) (t : ToolPak.t) :
  t ∈ fst (scanTools env showHidden fs) ->
  exists name,
    ToolPak.Path t = filepath.Join (toolsDir env) name
    /\ strings.HasPrefix name (str ".") = false
    /\ (name = ToolPak.Name t ++ str ".pak" /\ ToolPak.Display t = ToolPak.Name t
        \/ showHidden = true
           /\ name = ToolPak.Name t ++ str ".pak.disabled"
           /\ ToolPak.Display t = ToolPak.Name t ++ str "  [disabled]").
Proof.
  intros (entries & e & _ & _ & Ht)%elem_of_scanTools.
  unfold scanTools_entry in Ht. destruct (negb (DirEntry.IsDir e)); [done|].
  exists (DirEntry.Name e).
  assert (Hname : strings.HasPrefix (DirEntry.Name e) (str ".") = false
                  /\ (showHidden = false ->
                      strings.HasSuffix (DirEntry.Name e) (str ".disabled") = false)).
  { destruct showHidden; cbn [negb andb] in Ht.
    - by destruct (strings.HasPrefix (DirEntry.Name e) (str ".")).
    - destruct (isHidden (DirEntry.Name e)) eqn:Eh; [done|].
      by destruct (isHidden_false _ Eh) as (Hdot & Hdis & _). }
  destruct Hname as (Hdot & Hdis).
  destruct (negb showHidden && isHidden _); [done|].
  destruct (showHidden && _); [done|].
  destruct (strings.HasSuffix (DirEntry.Name e) (str ".pak.disabled")) eqn:Ed.
  - cbn [negb andb] in Ht. rewrite andb_false_r in Ht. apply (inj Some) in Ht. rewrite <- Ht.
    apply HasSuffix_inv in Ed as [b Eb].
    cbn [ToolPak.Path ToolPak.Name ToolPak.Display].
    split; [done|]. split; [done|]. right.
    assert (strings.TrimSuffix (strings.TrimSuffix (DirEntry.Name e) (str ".disabled"))
              (str ".pak") = b) as ->.
    { rewrite Eb. change (str ".pak.disabled") with (str ".pak" ++ str ".disabled").
      by rewrite app_assoc, !TrimSuffix_app. }
    split; [|done]. destruct showHidden; [done|].
    rewrite Eb in Hdis. change (str ".pak.disabled")
      with (str ".pak" ++ str ".disabled") in Hdis.
    rewrite app_assoc, HasSuffix_app in Hdis. by specialize (Hdis eq_refl).
  - cbn [negb andb] in Ht. rewrite andb_true_r in Ht.
    destruct (strings.HasSuffix (DirEntry.Name e) (str ".pak")) eqn:Ep; [|done].
    cbn [negb] in Ht. apply (inj Some) in Ht. rewrite <- Ht.
    apply HasSuffix_inv in Ep as [b Eb].
    cbn [ToolPak.Path ToolPak.Name ToolPak.Display].
    split; [done|]. split; [done|]. left.
    rewrite Eb, TrimSuffix_app. done.
Qed.

Lemma scanTools_listed_witness :
  exists name,
    toolsPath ++ [str "tg5040"; str "Files.pak.disabled"]
    = filepath.Join (toolsDir deviceEnv) name
    /\ strings.HasPrefix name (str ".") = false
    /\ (name = str "Files" ++ str ".pak"
        /\ str "Files  [disabled]" = str "Files"
        \/ true = true
           /\ name = str "Files" ++ str ".pak.disabled"
           /\ str "Files  [disabled]" = str "Files" ++ str "  [disabled]").
Proof.
  apply (scanTools_listed (ext := refExtern) deviceEnv true sdcardFull
           (ToolPak.mk (str "Files")
              (toolsPath ++ [str "tg5040"; str "Files.pak.disabled"])
              (str "Files  [disabled]"))).
  vm_compute. apply list_elem_of_further, list_elem_of_here.
Defined.

(** What holds of every shortcut [scanShortcuts] lists: its path is the
    roms directory joined with its name and is a shortcut folder; its tag
    is decoded from its name and it is a tool shortcut exactly when the
    tag is SHORTCUT; its display name is the content of the marker file
    whenever that is not empty; the target of a tool shortcut has no
    white space at its ends. *)
Theorem scanShortcuts_listed {FS : Type} {os : OS FS} {ext : Extern} (env : Env)
    (fs : FS) (s : Shortcut.t) :
  s ∈ fst (scanShortcuts env fs) ->
  Shortcut.Path s = filepath.Join (romsDir env) (Shortcut.Name s)
  /\ isShortcutFolder (Shortcut.Path s) fs = true
  /\ Shortcut.Tag s = extractTag (Shortcut.Name s)
  /\ Shortcut.IsTool s = bool_decide (Shortcut.Tag s = bridgeEmuTag)
  /\ (readShortcutMarker (Shortcut.Path s) fs <> [] ->
      Shortcut.Display s = readShortcutMarker (Shortcut.Path s) fs)
  /\ (readShortcutMarker (Shortcut.Path s) fs = [] ->
      Shortcut.Display s = displayFromName (Shortcut.Name s))
  /\ (Shortcut.IsTool s = true ->
      strings.TrimSpace (Shortcut.TargetPath s) = Shortcut.TargetPath s).
Proof.
  intros (entries & e & _ & _ & Hs)%elem_of_scanShortcuts.
  unfold scanShortcuts_entry in Hs. destruct (negb (DirEntry.IsDir e)); [done|].
  destruct (isShortcutFolder _ fs) eqn:Esc; [|done]. cbn [negb] in Hs.
  injection Hs as <-.
  cbn [Shortcut.Path Shortcut.Name Shortcut.Tag Shortcut.IsTool
         Shortcut.Display Shortcut.TargetPath].
  do 4 (split; [done|]). split; [|split].
  - intros Hm. by rewrite bool_decide_eq_false_2.
  - intros ->. by rewrite bool_decide_eq_true_2.
  - intros ->. destruct (os_ReadFile _ fs); [done|]. apply TrimSpace_idemp.
Qed.

Lemma scanShortcuts_listed_witness :
  let s := Shortcut.mk (shortcutPrefix ++ str "Battletoads (MD)") (str "MD")
             (str "Battletoads") battletoadsFolder false
             (str "/mnt/SDCARD/Roms/Sega Genesis (MD)/Battletoads.md") in
  Shortcut.Path s = filepath.Join (romsDir deviceEnv) (Shortcut.Name s)
  /\ isShortcutFolder (Shortcut.Path s) sdcardShortcut = true
  /\ Shortcut.Tag s = extractTag (Shortcut.Name s)
  /\ Shortcut.IsTool s = bool_decide (Shortcut.Tag s = bridgeEmuTag)
  /\ (readShortcutMarker (Shortcut.Path s) sdcardShortcut <> [] ->
      Shortcut.Display s = readShortcutMarker (Shortcut.Path s) sdcardShortcut)
  /\ (readShortcutMarker (Shortcut.Path s) sdcardShortcut = [] ->
      Shortcut.Display s = displayFromName (Shortcut.Name s))
  /\ (Shortcut.IsTool s = true ->
      strings.TrimSpace (Shortcut.TargetPath s) = Shortcut.TargetPath s).
Proof.
  intros s.
  apply (scanShortcuts_listed (ext := refExtern) deviceEnv sdcardShortcut s).
  vm_compute. apply list_elem_of_here.
Defined.

(** No folder is listed twice: a folder that [scanShortcuts] lists is
    never among the consoles [scanConsoleDirs] lists for the same card,
    with hidden entries on or off. *)
Theorem shortcuts_consoles_disjoint {FS : Type} {os : OS FS} {ext : Extern}
    (env : Env) (showHidden : bool) (fs : FS) (s : Shortcut.t) (c : ConsoleDir.t) :
  s ∈ fst (scanShortcuts env fs) ->
  c ∈ fst (scanConsoleDirs env showHidden fs) ->
  Shortcut.Name s <> ConsoleDir.Name c /\ Shortcut.Path s <> ConsoleDir.Path c.
Proof.
  intros (e1 & x1 & _ & _ & Hs)%elem_of_scanShortcuts
         (e2 & x2 & _ & _ & Hc)%elem_of_scanConsoleDirs.
  unfold scanShortcuts_entry in Hs. destruct (negb (DirEntry.IsDir x1)); [done|].
  destruct (isShortcutFolder _ fs) eqn:Es; [|done]. cbn [negb] in Hs.
  injection Hs as <-.
  unfold scanConsoleDirs_entry in Hc. destruct (negb (DirEntry.IsDir x2)); [done|].
  destruct (isShortcutFolder (filepath.Join (romsDir env) (DirEntry.Name x2)) fs)
    eqn:Ec; [done|].
  destruct (if negb showHidden then _ else _); [done|].
  case_bool_decide; [done|]. injection Hc as <-.
  cbn [Shortcut.Path Shortcut.Name ConsoleDir.Path ConsoleDir.Name].
  split.
  - intros E. rewrite E in Es. congruence.
  - intros E. rewrite E in Es. congruence.
Qed.

Lemma shortcuts_consoles_disjoint_witness :
  shortcutPrefix ++ str "Battletoads (MD)" <> str "Sega Genesis (MD)"
  /\ battletoadsFolder <> romsPath ++ [str "Sega Genesis (MD)"].
Proof.
  apply (shortcuts_consoles_disjoint (ext := refExtern) deviceEnv false
           sdcardShortcut
           (Shortcut.mk (shortcutPrefix ++ str "Battletoads (MD)") (str "MD")
              (str "Battletoads") battletoadsFolder false
              (str "/mnt/SDCARD/Roms/Sega Genesis (MD)/Battletoads.md"))
           (ConsoleDir.mk (str "Sega Genesis (MD)") (str "MD")
              (romsPath ++ [str "Sega Genesis (MD)"]) (str "Sega Genesis") false)).
  - vm_compute. apply list_elem_of_here.
  - vm_compute. apply list_elem_of_here.
Defined.

Section MemfsConfined.

Implicit Types (fs : memfs.t) (p k pre : path) (n : memfs.node).

Lemma mkdirAllFrom_only pre rest fs k :
  ~ k `prefix_of` pre ++ rest ->
  memfs.nodes (snd (memfs.mkdirAllFrom pre rest fs)) !! k = memfs.nodes fs !! k.
Proof.
  revert pre fs. induction rest as [|e rest IH]; intros pre fs Hk; [done|].
  cbn [memfs.mkdirAllFrom].
  assert (Hk' : ~ k `prefix_of` (pre ++ [e]) ++ rest)
    by (by rewrite <- app_assoc).
  destruct (memfs.nodes fs !! (pre ++ [e])) as [[d|]|] eqn:E; [done| |].
  - by apply IH.
  - case_bool_decide; [done|]. rewrite IH by done. cbn.
    apply lookup_insert_ne. intros <-. apply Hk.
    rewrite (cons_middle e pre rest), app_assoc. by apply prefix_app_r.
Qed.

Lemma mkdirAllFrom_denied pre rest fs :
  memfs.denied (snd (memfs.mkdirAllFrom pre rest fs)) = memfs.denied fs.
Proof. by destruct (mkdirAllFrom_keeps pre rest fs). Qed.

Lemma WriteFile_only p data fs k :
  k <> p ->
  memfs.nodes (snd (memfs.WriteFile p data fs)) !! k = memfs.nodes fs !! k.
Proof.
  intros Hk. unfold memfs.WriteFile. case_bool_decide; [done|].
  destruct (memfs.nodeAt fs (removelast p)) as [[d|]|]; try done.
  destruct (memfs.nodeAt fs p) as [[d|]|]; try done;
    cbn; by apply lookup_insert_ne.
Qed.

Lemma Write_only p data fs k :
  k <> p ->
  memfs.nodes (snd (memfs.Write p data fs)) !! k = memfs.nodes fs !! k.
Proof.
  intros Hk. unfold memfs.Write.
  destruct (memfs.nodeAt fs p) as [[d|]|]; try done.
  case_bool_decide; [done|]. cbn. by apply lookup_insert_ne.
Qed.

(** All prefixes of a path that [MkdirAll] has made are directories. *)
Lemma mkdirAllFrom_ok_prefix pre r1 r2 fs fs' :
  memfs.mkdirAllFrom pre (r1 ++ r2) fs = (None, fs') ->
  memfs.nodeAt fs pre = Some memfs.Dir ->
  memfs.nodeAt fs' (pre ++ r1) = Some memfs.Dir.
Proof.
  revert pre fs. induction r1 as [|e r1 IH]; intros pre fs H Hd.
  - rewrite app_nil_r. eapply keeps_dir; [|done].
    pose proof (mkdirAllFrom_keeps pre ([] ++ r2) fs) as K. by rewrite H in K.
  - cbn [app memfs.mkdirAllFrom] in H.
    rewrite (cons_middle e pre r1), app_assoc.
    destruct (memfs.nodes fs !! (pre ++ [e])) as [[d|]|] eqn:E; [done| |].
    + apply (IH _ _ H). by rewrite nodeAt_snoc.
    + case_bool_decide; [done|]. apply (IH _ _ H).
      rewrite nodeAt_snoc. apply lookup_insert_eq.
Qed.

Lemma MkdirAll_ok_prefix p q fs fs' :
  memfs.MkdirAll (p ++ q) fs = (None, fs') ->
  memfs.nodeAt fs' p = Some memfs.Dir.
Proof. intros H. by apply (mkdirAllFrom_ok_prefix [] p q fs fs'). Qed.

(** A write succeeds where the parent is a directory, nothing is refused
    and no directory is in the way. *)
Lemma WriteFile_succeeds dir e data fs :
  memfs.nodeAt fs dir = Some memfs.Dir ->
  dir ++ [e] ∉ memfs.denied fs ->
  memfs.nodes fs !! (dir ++ [e]) <> Some memfs.Dir ->
  memfs.WriteFile (dir ++ [e]) data fs
  = (None, memfs.put (dir ++ [e]) (memfs.File data) fs).
Proof.
  intros Hd Hden Hn. unfold memfs.WriteFile.
  rewrite bool_decide_eq_false_2 by done.
  rewrite removelast_last, Hd, nodeAt_snoc.
  by destruct (memfs.nodes fs !! (dir ++ [e])) as [[?|]|].
Qed.

End MemfsConfined.

Section CreateConfined.

Context {ext : Extern} (env : Env).

Implicit Types (fs : memfs.t) (k dest : path).

Lemma generateArtworkBg_only artSrc dest useGlobalBg forceBlack fs k :
  ~ k `prefix_of` dest -> ~ dest `prefix_of` k ->
  memfs.nodes (generateArtworkBg env artSrc dest useGlobalBg forceBlack fs) !! k
  = memfs.nodes fs !! k.
Proof.
  intros Hk1 Hk2. unfold generateArtworkBg.
  destruct (match os_Stat artSrc fs with
            | Some _ => _ | None => _ end) as [artImg|]; [|done].
  destruct (screenDimensions env) as [screenW screenH].
  match goal with
  | |- context [os_Write _ (png_Encode ?c)] => generalize c; intros canvas
  end.
  rewrite Join_media, Join_bg.
  assert (Hm : ~ k `prefix_of` (dest ++ [str ".media"])).
  { intros [r Hr]. destruct r as [|x r _] using rev_ind.
    - apply Hk2. exists [str ".media"]. by rewrite app_nil_r in Hr.
    - rewrite app_assoc in Hr. apply app_inj_tail in Hr as [-> _].
      apply Hk1. by exists r. }
  assert (Hb : k <> (dest ++ [str ".media"]) ++ [str "bg.png"]).
  { intros ->. apply Hk2. rewrite <- app_assoc. by apply prefix_app_r. }
  pose proof (mkdirAllFrom_only [] (dest ++ [str ".media"]) fs k Hm) as H1.
  change (os_MkdirAll (dest ++ [str ".media"]) fs)
    with (memfs.mkdirAllFrom [] (dest ++ [str ".media"]) fs).
  destruct (memfs.mkdirAllFrom [] (dest ++ [str ".media"]) fs) as [[e|] fs1];
    cbn [snd] in H1; [done|].
  pose proof (WriteFile_only _ [] fs1 k Hb) as H2.
  change (os_Create ?p fs1) with (memfs.WriteFile p [] fs1).
  destruct (memfs.WriteFile _ [] fs1) as [[e|] fs2]; cbn [snd] in H2;
    [congruence|].
  change (os_Write ?p ?c fs2) with (memfs.Write p c fs2).
  rewrite Write_only by done. congruence.
Qed.

Lemma outside_child k p e :
  ~ p `prefix_of` k -> k <> p ++ [e].
Proof. intros H ->. apply H. by apply prefix_app_r. Qed.

Lemma createROMShortcut_only d t console rom pos settings fs k :
  "/"%char ∉ d -> "/"%char ∉ t ->
  ~ k `prefix_of` romsDir env ++ [buildFolderName pos d t] ->
  ~ romsDir env ++ [buildFolderName pos d t] `prefix_of` k ->
  memfs.nodes (snd (createROMShortcut env d t console rom pos settings fs)) !! k
  = memfs.nodes fs !! k.
Proof.
  intros Hd Ht Hk1 Hk2. unfold createROMShortcut.
  rewrite Join_buildFolderName by done.
  set (folderName := buildFolderName pos d t) in *.
  set (folderPath := romsDir env ++ [folderName]) in *.
  pose proof (mkdirAllFrom_only [] folderPath fs k Hk1) as H1.
  change (os_MkdirAll folderPath fs) with (memfs.mkdirAllFrom [] folderPath fs).
  destruct (memfs.mkdirAllFrom [] folderPath fs) as [[e|] fs1]; cbn [snd] in *;
    [done|].
  rewrite (Join_elem folderPath (folderName ++ str ".m3u")).
  2: { intros [H|H]%elem_of_app; [|set_solver].
       revert H. by apply buildFolderName_noslash. }
  2-4: intros E; apply (f_equal (@rev ascii)) in E;
       rewrite rev_app_distr in E; discriminate E.
  pose proof (WriteFile_only (folderPath ++ [folderName ++ str ".m3u"])
                (createROMShortcut_relPath console rom) fs1 k
                (outside_child _ _ _ Hk2)) as H2.
  change (os_WriteFile ?p ?c fs1) with (memfs.WriteFile p c fs1).
  destruct (memfs.WriteFile _ _ fs1) as [[e|] fs2]; cbn [snd] in *;
    [congruence|].
  unfold writeShortcutMarker. rewrite Join_shortcutMarkerFile.
  change (os_WriteFile ?p ?c fs2) with (memfs.WriteFile p c fs2).
  pose proof (WriteFile_only (folderPath ++ [shortcutMarkerFile]) d fs2 k
                (outside_child _ _ _ Hk2)) as H3.
  destruct (AppSettings.CopyArtwork settings).
  - rewrite generateArtworkBg_only by done. congruence.
  - congruence.
Qed.

Lemma createToolShortcut_only d pak pos settings fs k :
  "/"%char ∉ d ->
  ~ k `prefix_of` romsDir env ++ [buildFolderName pos d bridgeEmuTag] ->
  ~ romsDir env ++ [buildFolderName pos d bridgeEmuTag] `prefix_of` k ->
  memfs.nodes (snd (createToolShortcut env d pak pos settings fs)) !! k
  = memfs.nodes fs !! k.
Proof.
  intros Hd Hk1 Hk2. unfold createToolShortcut.
  assert (Ht : "/"%char ∉ bridgeEmuTag) by (vm_compute; set_solver).
  rewrite Join_buildFolderName by done.
  set (folderName := buildFolderName pos d bridgeEmuTag) in *.
  set (folderPath := romsDir env ++ [folderName]) in *.
  pose proof (mkdirAllFrom_only [] folderPath fs k Hk1) as H1.
  change (os_MkdirAll folderPath fs) with (memfs.mkdirAllFrom [] folderPath fs).
  destruct (memfs.mkdirAllFrom [] folderPath fs) as [[e|] fs1]; cbn [snd] in *;
    [done|].
  rewrite Join_target.
  pose proof (WriteFile_only (folderPath ++ [str "target"]) pak fs1 k
                (outside_child _ _ _ Hk2)) as H2.
  change (os_WriteFile ?p ?c fs1) with (memfs.WriteFile p c fs1).
  destruct (memfs.WriteFile _ _ fs1) as [[e|] fs2]; cbn [snd] in *;
    [congruence|].
  rewrite (Join_elem folderPath (folderName ++ str ".m3u")).
  2: { intros [H|H]%elem_of_app; [|set_solver].
       revert H. by apply buildFolderName_noslash. }
  2-4: intros E; apply (f_equal (@rev ascii)) in E;
       rewrite rev_app_distr in E; discriminate E.
  pose proof (WriteFile_only (folderPath ++ [folderName ++ str ".m3u"])
                (str "target") fs2 k (outside_child _ _ _ Hk2)) as H3.
  change (os_WriteFile ?p ?c fs2) with (memfs.WriteFile p c fs2).
  destruct (memfs.WriteFile _ _ fs2) as [[e|] fs3]; cbn [snd] in *;
    [congruence|].
  unfold writeShortcutMarker. rewrite Join_shortcutMarkerFile.
  change (os_WriteFile ?p ?c fs3) with (memfs.WriteFile p c fs3).
  pose proof (WriteFile_only (folderPath ++ [shortcutMarkerFile]) d fs3 k
                (outside_child _ _ _ Hk2)) as H4.
  destruct (AppSettings.CopyArtwork settings).
  - rewrite generateArtworkBg_only by done. congruence.
  - congruence.
Qed.

End CreateConfined.

(** Creation is confined to the shortcut folder.  Whether it succeeds or
    fails, and whatever the settings, creating a ROM or a tool shortcut
    whose display name and tag hold no slash leaves every path of the
    card as it was, except the shortcut folder, what lies below it, and
    the directories above it that had to be made. *)
Theorem create_confined {ext : Extern} (env : Env) (d t console pak : gostring)
    (rom : ROMFile.t) (pos : ShortcutPosition) (settings : AppSettings.t)
    (fs : memfs.t) :
  ("/"%char ∉ d) -> ("/"%char ∉ t) ->
  (forall k,
     ~ k `prefix_of` romsDir env ++ [buildFolderName pos d t] ->
     ~ romsDir env ++ [buildFolderName pos d t] `prefix_of` k ->
     memfs.nodes (snd (createROMShortcut env d t console rom pos settings fs)) !! k
     = memfs.nodes fs !! k)
  /\ (forall k,
        ~ k `prefix_of` romsDir env ++ [buildFolderName pos d bridgeEmuTag] ->
        ~ romsDir env ++ [buildFolderName pos d bridgeEmuTag] `prefix_of` k ->
        memfs.nodes (snd (createToolShortcut env d pak pos settings fs)) !! k
        = memfs.nodes fs !! k).
Proof.
  intros Hd Ht. split; intros k Hk1 Hk2.
  - by apply createROMShortcut_only.
  - by apply createToolShortcut_only.
Qed.

Lemma create_confined_witness :
  (forall k,
     ~ k `prefix_of` romsDir deviceEnv
                     ++ [buildFolderName ShortcutPositionTop (str "Battletoads")
                           (str "MD")] ->
     ~ romsDir deviceEnv
       ++ [buildFolderName ShortcutPositionTop (str "Battletoads") (str "MD")]
       `prefix_of` k ->
     memfs.nodes
       (snd (createROMShortcut (ext := refExtern) deviceEnv (str "Battletoads")
               (str "MD") (str "Sega Genesis (MD)") battletoads
               ShortcutPositionTop noArtwork sdcard0)) !! k
     = memfs.nodes sdcard0 !! k)
  /\ (forall k,
        ~ k `prefix_of` romsDir deviceEnv
                        ++ [buildFolderName ShortcutPositionTop
                              (str "Battletoads") bridgeEmuTag] ->
        ~ romsDir deviceEnv
          ++ [buildFolderName ShortcutPositionTop (str "Battletoads")
                bridgeEmuTag] `prefix_of` k ->
        memfs.nodes
          (snd (createToolShortcut (ext := refExtern) deviceEnv
                  (str "Battletoads") (str "/mnt/SDCARD/Tools/tg5040/Clock.pak")
                  ShortcutPositionTop noArtwork sdcard0)) !! k
        = memfs.nodes sdcard0 !! k).
Proof.
  apply (create_confined (ext := refExtern) deviceEnv (str "Battletoads")
           (str "MD")); vm_compute; set_solver.
Defined.

Section CreateThenScan.

Context {ext : Extern} (env : Env).

Implicit Types (fs : memfs.t) (d t : gostring).

(** A directory below a directory shows in the listing of its parent. *)
Lemma ReadDir_child dir e fs :
  memfs.nodeAt fs dir = Some memfs.Dir ->
  memfs.nodes fs !! (dir ++ [e]) = Some memfs.Dir ->
  exists entries,
    memfs.ReadDir dir fs = inr entries /\ DirEntry.mk e true ∈ entries.
Proof.
  intros Hd He. unfold memfs.ReadDir. rewrite Hd. eexists. split; [done|].
  apply elem_of_Slice, list_elem_of_omap. exists (dir ++ [e], memfs.Dir).
  split; [by apply elem_of_map_to_list|].
  unfold memfs.childEntry. cbn [fst snd].
  destruct (dir ++ [e]) as [|x l] eqn:E; [by destruct dir|]. rewrite <- E.
  by rewrite removelast_last, bool_decide_eq_true_2, last_last.
Qed.

Lemma extractTag_buildFolderName pos d t :
  ("("%char ∉ t) -> strings.TrimSpace t = t ->
  extractTag (buildFolderName pos d t) = t.
Proof.
  intros Hp Ht. destruct pos; unfold buildFolderName.
  - rewrite app_assoc. by apply extractTag_encoded.
  - rewrite app_assoc. by apply extractTag_encoded.
  - by apply extractTag_encoded.
Qed.

Lemma m3u_elem pos d t :
  ("/"%char ∉ d) -> ("/"%char ∉ t) ->
  forall dir, filepath.Join dir (buildFolderName pos d t ++ str ".m3u")
              = dir ++ [buildFolderName pos d t ++ str ".m3u"].
Proof.
  intros Hd Ht dir. apply Join_elem.
  - intros [H|H]%elem_of_app; [|set_solver].
    revert H. by apply buildFolderName_noslash.
  - intros E; apply (f_equal (@rev ascii)) in E;
      rewrite rev_app_distr in E; discriminate E.
  - intros E; apply (f_equal (@rev ascii)) in E;
      rewrite rev_app_distr in E; discriminate E.
  - intros E; apply (f_equal (@rev ascii)) in E;
      rewrite rev_app_distr in E; discriminate E.
Qed.

(** The marker of a folder that creation has just made holds the display
    name, when the system does not refuse the file and no directory is in
    its way. *)
Lemma marker_written p q d fs fs1 fs2 fs' (content : gostring) :
  memfs.MkdirAll p fs = (None, fs1) ->
  memfs.keeps [q] fs1 fs2 ->
  (forall k, k <> q -> memfs.nodes fs2 !! k = memfs.nodes fs1 !! k) ->
  q <> p ++ [shortcutMarkerFile] ->
  memfs.keeps [p ++ [str ".media"; str "bg.png"]]
    (snd (memfs.WriteFile (p ++ [shortcutMarkerFile]) d fs2)) fs' ->
  p ++ [shortcutMarkerFile] ∉ memfs.denied fs ->
  memfs.nodes fs !! (p ++ [shortcutMarkerFile]) <> Some memfs.Dir ->
  memfs.nodes fs' !! (p ++ [shortcutMarkerFile]) = Some (memfs.File d).
Proof.
  intros H1 K2 O2 Hq K3 Hden Hdir.
  pose proof (MkdirAll_keeps p fs) as K1. rewrite H1 in K1. cbn [snd] in K1.
  assert (Hp2 : memfs.nodeAt fs2 p = Some memfs.Dir)
    by (eapply created_folder_is_dir; [apply H1|apply K2]).
  assert (Hm1 : memfs.nodes fs1 !! (p ++ [shortcutMarkerFile])
                = memfs.nodes fs !! (p ++ [shortcutMarkerFile])).
  { pose proof (mkdirAllFrom_only [] p fs (p ++ [shortcutMarkerFile])) as H.
    unfold memfs.MkdirAll in H1. rewrite H1 in H. apply H.
    intros [r Hr]. apply (f_equal length) in Hr.
    rewrite !length_app in Hr. cbn in Hr. lia. }
  rewrite WriteFile_succeeds in K3; [|done| |].
  - eapply keeps_file; [apply K3|apply marker_ne_bg|]. cbn. apply lookup_insert_eq.
  - destruct K1 as [E1 _], K2 as [E2 _]. by rewrite E2, E1.
  - rewrite O2 by done. by rewrite Hm1.
Qed.

(** The entry [scanShortcuts] makes of a folder with a marker file. *)
Lemma scanShortcuts_entry_marked name d fs :
  filepath.Join (romsDir env) name = romsDir env ++ [name] ->
  strings.TrimSpace d = d -> d <> [] ->
  memfs.nodes fs !! ((romsDir env ++ [name]) ++ [shortcutMarkerFile])
  = Some (memfs.File d) ->
  scanShortcuts_entry env fs (DirEntry.mk name true)
  = Some (markedShortcut env name d fs).
Proof.
  intros Hjoin Hd Hne Hmark.
  unfold scanShortcuts_entry. cbn [DirEntry.IsDir DirEntry.Name negb].
  rewrite Hjoin, isShortcutFolder_stat.
  2: { change (os_Stat ?p fs) with (memfs.Stat p fs). apply Stat_None.
       rewrite nodeAt_snoc, Hmark. by eexists. }
  cbn [negb]. unfold readShortcutMarker.
  rewrite Join_shortcutMarkerFile, Join_target.
  change (os_ReadFile ?p fs) with (memfs.ReadFile p fs).
  rewrite (ReadFile_file fs _ _ d Hmark), Hd.
  by rewrite (bool_decide_eq_false_2 _ Hne).
Qed.

Lemma scanShortcuts_marked name d fs :
  filepath.Join (romsDir env) name = romsDir env ++ [name] ->
  strings.TrimSpace d = d -> d <> [] ->
  memfs.nodeAt fs (romsDir env) = Some memfs.Dir ->
  memfs.nodes fs !! (romsDir env ++ [name]) = Some memfs.Dir ->
  memfs.nodes fs !! ((romsDir env ++ [name]) ++ [shortcutMarkerFile])
  = Some (memfs.File d) ->
  markedShortcut env name d fs ∈ fst (scanShortcuts env fs).
Proof.
  intros Hjoin Hd Hne Hroms Hdir Hmark.
  destruct (ReadDir_child _ _ _ Hroms Hdir) as (entries & HR & He).
  apply elem_of_scanShortcuts. exists entries, (DirEntry.mk name true).
  split; [done|]. split; [done|]. by apply scanShortcuts_entry_marked.
Qed.

(** What creation leaves behind: the roms directory and the folder are
    directories and the marker holds the display name. *)
Lemma createROMShortcut_marked d t console rom pos settings fs fs' :
  createROMShortcut env d t console rom pos settings fs = (None, fs') ->
  ("/"%char ∉ d) -> ("/"%char ∉ t) ->
  romsDir env ++ [buildFolderName pos d t; shortcutMarkerFile] ∉ memfs.denied fs ->
  memfs.nodes fs !! (romsDir env ++ [buildFolderName pos d t; shortcutMarkerFile])
  <> Some memfs.Dir ->
  memfs.nodeAt fs' (romsDir env) = Some memfs.Dir
  /\ memfs.nodes fs' !! (romsDir env ++ [buildFolderName pos d t]) = Some memfs.Dir
  /\ memfs.nodes fs' !! ((romsDir env ++ [buildFolderName pos d t])
                         ++ [shortcutMarkerFile]) = Some (memfs.File d)
  /\ memfs.ReadFile
       (filepath.Join (romsDir env ++ [buildFolderName pos d t])
          (buildFolderName pos d t ++ str ".m3u")) fs'
     = inr (createROMShortcut_relPath console rom).
Proof.
  intros H Hd Ht Hden Hdir.
  set (folderName := buildFolderName pos d t) in *.
  set (folderPath := romsDir env ++ [folderName]).
  replace (romsDir env ++ [folderName; shortcutMarkerFile])
    with (folderPath ++ [shortcutMarkerFile]) in Hden, Hdir
    by (unfold folderPath; by rewrite <- app_assoc).
  pose proof (createROMShortcut_result env _ _ _ _ _ _ _ _ H) as (R1 & R2 & _).
  destruct (createROMShortcut_steps env _ _ _ _ _ _ _ _ H)
    as (fs1 & fs2 & H1 & H2 & H3).
  rewrite (Join_buildFolderName _ pos d t) in * by done.
  fold folderName folderPath in H1, H2, H3, R1, R2.
  pose proof (m3u_elem pos d t Hd Ht folderPath) as Em. fold folderName in Em.
  rewrite Em in H2.
  pose proof (WriteFile_keeps (folderPath ++ [folderName ++ str ".m3u"])
                (createROMShortcut_relPath console rom) fs1) as K2.
  pose proof (fun k Hk => WriteFile_only (folderPath ++ [folderName ++ str ".m3u"])
                (createROMShortcut_relPath console rom) fs1 k Hk) as O2.
  rewrite H2 in K2, O2. cbn [snd] in K2, O2.
  split; [|split; [|split]].
  - eapply keeps_dir; [apply H3|]. eapply keeps_dir; [apply WriteFile_keeps|].
    eapply keeps_dir; [apply K2|]. by eapply MkdirAll_ok_prefix.
  - rewrite <- R1. symmetry. apply nodeAt_snoc.
  - eapply (marker_written folderPath); try done.
    apply snoc_ne_last, m3u_name_ne.
  - done.
Qed.

Lemma createToolShortcut_marked d pak pos settings fs fs' :
  createToolShortcut env d pak pos settings fs = (None, fs') ->
  ("/"%char ∉ d) ->
  romsDir env ++ [buildFolderName pos d bridgeEmuTag; shortcutMarkerFile]
  ∉ memfs.denied fs ->
  memfs.nodes fs
  !! (romsDir env ++ [buildFolderName pos d bridgeEmuTag; shortcutMarkerFile])
  <> Some memfs.Dir ->
  memfs.nodeAt fs' (romsDir env) = Some memfs.Dir
  /\ memfs.nodes fs' !! (romsDir env ++ [buildFolderName pos d bridgeEmuTag])
     = Some memfs.Dir
  /\ memfs.nodes fs' !! ((romsDir env ++ [buildFolderName pos d bridgeEmuTag])
                         ++ [shortcutMarkerFile]) = Some (memfs.File d)
  /\ memfs.ReadFile
       ((romsDir env ++ [buildFolderName pos d bridgeEmuTag]) ++ [str "target"]) fs'
     = inr pak.
Proof.
  intros H Hd Hden Hdir.
  assert (Ht : "/"%char ∉ bridgeEmuTag) by (vm_compute; set_solver).
  set (folderName := buildFolderName pos d bridgeEmuTag) in *.
  set (folderPath := romsDir env ++ [folderName]).
  replace (romsDir env ++ [folderName; shortcutMarkerFile])
    with (folderPath ++ [shortcutMarkerFile]) in Hden, Hdir
    by (unfold folderPath; by rewrite <- app_assoc).
  pose proof (createToolShortcut_result env _ _ _ _ _ _ H) as (R1 & _ & R3 & _).
  destruct (createToolShortcut_steps env _ _ _ _ _ _ H)
    as (fs1 & fs2 & fs3 & H1 & H2 & H3 & H4).
  rewrite (Join_buildFolderName _ pos d bridgeEmuTag) in * by done.
  fold folderName folderPath in H1, H2, H3, H4, R1, R3.
  pose proof (m3u_elem pos d bridgeEmuTag Hd Ht folderPath) as Em.
  fold folderName in Em. rewrite Em in H3.
  pose proof (WriteFile_keeps (folderPath ++ [str "target"]) pak fs1) as K2.
  pose proof (fun k Hk => WriteFile_only (folderPath ++ [str "target"])
                pak fs1 k Hk) as O2.
  rewrite H2 in K2, O2. cbn [snd] in K2, O2.
  pose proof (WriteFile_keeps (folderPath ++ [folderName ++ str ".m3u"])
                (str "target") fs2) as K3.
  pose proof (fun k Hk => WriteFile_only (folderPath ++ [folderName ++ str ".m3u"])
                (str "target") fs2 k Hk) as O3.
  rewrite H3 in K3, O3. cbn [snd] in K3, O3.
  pose proof (MkdirAll_keeps folderPath fs) as K1. rewrite H1 in K1.
  cbn [snd] in K1.
  assert (Hdir3 : memfs.nodeAt fs3 folderPath = Some memfs.Dir).
  { eapply keeps_dir; [apply K3|]. eapply created_folder_is_dir; [apply H1|apply K2]. }
  assert (Hm3 : memfs.nodes fs3 !! (folderPath ++ [shortcutMarkerFile])
                = memfs.nodes fs !! (folderPath ++ [shortcutMarkerFile])).
  { rewrite O3 by (apply not_eq_sym, snoc_ne_last, m3u_name_ne).
    rewrite O2 by (by apply snoc_ne_last).
    pose proof (mkdirAllFrom_only [] folderPath fs
                  (folderPath ++ [shortcutMarkerFile])) as Ho.
    unfold memfs.MkdirAll in H1. rewrite H1 in Ho. apply Ho.
    intros [r Hr]. apply (f_equal length) in Hr.
    rewrite !length_app in Hr. cbn in Hr. lia. }
  split; [|split; [|split]].
  - eapply keeps_dir; [apply H4|]. eapply keeps_dir; [apply WriteFile_keeps|].
    eapply keeps_dir; [apply K3|]. eapply keeps_dir; [apply K2|].
    by eapply MkdirAll_ok_prefix.
  - rewrite <- R1. symmetry. apply nodeAt_snoc.
  - rewrite WriteFile_succeeds in H4; [|done| |].
    + eapply keeps_file; [apply H4|apply marker_ne_bg|]. cbn.
      apply lookup_insert_eq.
    + destruct K1 as [E1 _], K2 as [E2 _], K3 as [E3 _]. by rewrite E3, E2, E1.
    + by rewrite Hm3.
  - by rewrite Join_target in R3.
Qed.

End CreateThenScan.

(** Creation and scanning fit together.  After a ROM shortcut has been
    created with a display name and a tag the codec can carry, on a card
    that does not refuse the marker file, [scanShortcuts] lists the
    shortcut at every position with the folder name, the tag, the display
    name and the folder path of the creation, as a ROM shortcut, and with
    the pointer resolved against the shortcut folder as its target. *)
Theorem created_rom_shortcut_listed {ext : Extern} (env : Env)
    (d t console : gostring) (rom : ROMFile.t) (pos : ShortcutPosition)
    (settings : AppSettings.t) (fs fs' : memfs.t) :
  let folderName := buildFolderName pos d t in
  let folderPath := romsDir env ++ [folderName] in
  createROMShortcut env d t console rom pos settings fs = (None, fs') ->
  ("/"%char ∉ d) -> ("/"%char ∉ t) -> ("("%char ∉ t) ->
  strings.TrimSpace t = t -> t <> bridgeEmuTag ->
  strings.TrimSpace d = d -> d <> [] ->
  folderPath ++ [shortcutMarkerFile] ∉ memfs.denied fs ->
  memfs.nodes fs !! (folderPath ++ [shortcutMarkerFile]) <> Some memfs.Dir ->
  Shortcut.mk folderName t d folderPath false
    (filepath.String
       (filepath.Join folderPath
          (strings.TrimSpace (createROMShortcut_relPath console rom))))
  ∈ fst (scanShortcuts env fs').
Proof.
  intros folderName folderPath H Hd Ht Hp Htt Htool Hdd Hdne Hden Hdir.
  unfold folderPath in Hden, Hdir. rewrite <- app_assoc in Hden, Hdir.
  destruct (createROMShortcut_marked env _ _ _ _ _ _ _ _ H Hd Ht Hden Hdir)
    as (Hroms & R1 & Hmark & R2).
  fold folderName in Hroms, R1, Hmark, R2.
  assert (Htag : extractTag folderName = t) by (by apply extractTag_buildFolderName).
  pose proof (scanShortcuts_marked env folderName d fs'
                (Join_buildFolderName _ pos d t Hd Ht) Hdd Hdne Hroms R1 Hmark)
    as Hin.
  unfold markedShortcut in Hin. fold folderPath in Hin, R2.
  by rewrite Htag, (bool_decide_eq_false_2 _ Htool), R2 in Hin.
Qed.

Lemma created_rom_shortcut_listed_witness :
  Shortcut.mk (buildFolderName ShortcutPositionTop (str "Battletoads") (str "MD"))
    (str "MD") (str "Battletoads")
    (romsDir deviceEnv
     ++ [buildFolderName ShortcutPositionTop (str "Battletoads") (str "MD")])
    false
    (filepath.String
       (filepath.Join
          (romsDir deviceEnv
           ++ [buildFolderName ShortcutPositionTop (str "Battletoads") (str "MD")])
          (strings.TrimSpace
             (createROMShortcut_relPath (str "Sega Genesis (MD)") battletoads))))
  ∈ fst (scanShortcuts (ext := refExtern) deviceEnv
           (snd (createROMShortcut (ext := refExtern) deviceEnv
                   (str "Battletoads") (str "MD") (str "Sega Genesis (MD)")
                   battletoads ShortcutPositionTop noArtwork sdcard0))).
Proof.
  apply (created_rom_shortcut_listed (ext := refExtern) deviceEnv
           (str "Battletoads") (str "MD") (str "Sega Genesis (MD)") battletoads
           ShortcutPositionTop noArtwork sdcard0).
  - apply pair_fst. by vm_compute.
  - vm_compute; set_solver.
  - vm_compute; set_solver.
  - vm_compute; set_solver.
  - by vm_compute.
  - done.
  - by vm_compute.
  - done.
  - apply not_elem_of_empty.
  - by vm_compute.
Defined.

(** The same for a tool shortcut: it is listed as a tool shortcut with the
    tag SHORTCUT, and its target is the pak path without the white space
    at its ends. *)
Theorem created_tool_shortcut_listed {ext : Extern} (env : Env)
    (d pak : gostring) (pos : ShortcutPosition)
    (settings : AppSettings.t) (fs fs' : memfs.t) :
  let folderName := buildFolderName pos d bridgeEmuTag in
  let folderPath := romsDir env ++ [folderName] in
  createToolShortcut env d pak pos settings fs = (None, fs') ->
  ("/"%char ∉ d) -> strings.TrimSpace d = d -> d <> [] ->
  folderPath ++ [shortcutMarkerFile] ∉ memfs.denied fs ->
  memfs.nodes fs !! (folderPath ++ [shortcutMarkerFile]) <> Some memfs.Dir ->
  Shortcut.mk folderName bridgeEmuTag d folderPath true (strings.TrimSpace pak)
  ∈ fst (scanShortcuts env fs').
Proof.
  intros folderName folderPath H Hd Hdd Hdne Hden Hdir.
  assert (Ht : "/"%char ∉ bridgeEmuTag) by (vm_compute; set_solver).
  assert (Hp : "("%char ∉ bridgeEmuTag) by (vm_compute; set_solver).
  unfold folderPath in Hden, Hdir. rewrite <- app_assoc in Hden, Hdir.
  destruct (createToolShortcut_marked env _ _ _ _ _ _ H Hd Hden Hdir)
    as (Hroms & R1 & Hmark & R3).
  fold folderName in Hroms, R1, Hmark, R3.
  assert (Htag : extractTag folderName = bridgeEmuTag)
    by (by apply extractTag_buildFolderName).
  pose proof (scanShortcuts_marked env folderName d fs'
                (Join_buildFolderName _ pos d bridgeEmuTag Hd Ht)
                Hdd Hdne Hroms R1 Hmark) as Hin.
  unfold markedShortcut in Hin. fold folderPath in Hin, R3.
  by rewrite Htag, bool_decide_eq_true_2, R3 in Hin.
Qed.

Lemma created_tool_shortcut_listed_witness :
  Shortcut.mk (buildFolderName ShortcutPositionAlpha (str "Clock") bridgeEmuTag)
    bridgeEmuTag (str "Clock")
    (romsDir deviceEnv
     ++ [buildFolderName ShortcutPositionAlpha (str "Clock") bridgeEmuTag])
    true (strings.TrimSpace (str "/mnt/SDCARD/Tools/tg5040/Clock.pak"))
  ∈ fst (scanShortcuts (ext := refExtern) deviceEnv
           (snd (createToolShortcut (ext := refExtern) deviceEnv (str "Clock")
                   (str "/mnt/SDCARD/Tools/tg5040/Clock.pak")
                   ShortcutPositionAlpha noArtwork sdcardFull))).
Proof.
  apply (created_tool_shortcut_listed (ext := refExtern) deviceEnv (str "Clock")
           (str "/mnt/SDCARD/Tools/tg5040/Clock.pak") ShortcutPositionAlpha
           noArtwork sdcardFull).
  - apply pair_fst. by vm_compute.
  - vm_compute; set_solver.
  - by vm_compute.
  - done.
  - apply not_elem_of_empty.
  - by vm_compute.
Defined.

Section BridgeFacts.

Implicit Types (fs : memfs.t) (pre : path).

(** Making a path again changes nothing and ends as the first time. *)
Lemma mkdirAllFrom_again pre rest fs :
  memfs.mkdirAllFrom pre rest (snd (memfs.mkdirAllFrom pre rest fs))
  = memfs.mkdirAllFrom pre rest fs.
Proof.
  revert pre fs. induction rest as [|e rest IH]; intros pre fs; [reflexivity|].
  cbn [memfs.mkdirAllFrom].
  destruct (memfs.nodes fs !! (pre ++ [e])) as [[d|]|] eqn:E.
  - cbn [snd memfs.mkdirAllFrom]. by rewrite E.
  - pose proof (mkdirAllFrom_keeps (pre ++ [e]) rest fs) as [_ K].
    cbn [memfs.mkdirAllFrom]. rewrite (K _ _ E) by (by left). apply IH.
  - case_bool_decide as Hden.
    + cbn [snd memfs.mkdirAllFrom]. rewrite E. by rewrite bool_decide_eq_true_2.
    + pose proof (mkdirAllFrom_keeps (pre ++ [e]) rest
                    (memfs.put (pre ++ [e]) memfs.Dir fs)) as [_ K].
      cbn [memfs.mkdirAllFrom].
      rewrite (K (pre ++ [e]) memfs.Dir) by (by left || apply lookup_insert_eq).
      apply IH.
Qed.

Lemma Stat_absent p fs :
  memfs.Stat p fs <> None <-> memfs.nodeAt fs p = None.
Proof. unfold memfs.Stat. by destruct (memfs.nodeAt fs p). Qed.

Lemma ensureBridgeEmu_device {FS : Type} {os : OS FS} (env : Env) (fs : FS) :
  platform env <> PlatformMac ->
  ensureBridgeEmu env fs
  = let pakDir := filepath.Join (emusDir env) (str "SHORTCUT.pak") in
    match os_Stat (pakDir ++ [str "launch.sh"]) fs with
    | None => fs
    | Some _ =>
        match os_MkdirAll pakDir fs with
        | (Some _, fs) => fs
        | (None, fs) =>
            snd (os_WriteFile (pakDir ++ [str "launch.sh"]) bridgeLaunchScript fs)
        end
    end.
Proof. intros H. unfold ensureBridgeEmu. by destruct (platform env). Qed.

End BridgeFacts.

(** [ensureBridgeEmu] does nothing on the Mac, and nothing where there is
    something at the path of the launch script already: a script that is
    there is never written again. *)
Theorem ensureBridgeEmu_keeps_existing {FS : Type} {os : OS FS} (env : Env)
    (fs : FS) :
  platform env = PlatformMac
  \/ os_Stat (filepath.Join (filepath.Join (emusDir env) (str "SHORTCUT.pak"))
                (str "launch.sh")) fs = None ->
  ensureBridgeEmu env fs = fs.
Proof.
  intros [H|H]; unfold ensureBridgeEmu.
  - by rewrite H.
  - rewrite H. by destruct (platform env).
Qed.

Lemma ensureBridgeEmu_keeps_existing_witness :
  ensureBridgeEmu deviceEnv
    (memfs.ofList
       [(emusUserPath, memfs.Dir);
        (emusUserPath ++ [str "tg5040"], memfs.Dir);
        (emusUserPath ++ [str "tg5040"; str "SHORTCUT.pak"], memfs.Dir);
        (emusUserPath ++ [str "tg5040"; str "SHORTCUT.pak"; str "launch.sh"],
         memfs.File (str "#!/bin/sh"))])
  = memfs.ofList
      [(emusUserPath, memfs.Dir);
       (emusUserPath ++ [str "tg5040"], memfs.Dir);
       (emusUserPath ++ [str "tg5040"; str "SHORTCUT.pak"], memfs.Dir);
       (emusUserPath ++ [str "tg5040"; str "SHORTCUT.pak"; str "launch.sh"],
        memfs.File (str "#!/bin/sh"))].
Proof.
  apply (ensureBridgeEmu_keeps_existing deviceEnv). right. by vm_compute.
Defined.

(** Where the launch script is missing on a device and the system lets
    the pak directory and the file be made, the script is there
    afterwards with the content of the constant, every directory is still
    a directory and every other file has its content. *)
Theorem ensureBridgeEmu_installs (env : Env) (fs : memfs.t) :
  let pakDir := filepath.Join (emusDir env) (str "SHORTCUT.pak") in
  platform env <> PlatformMac ->
  memfs.Stat (pakDir ++ [str "launch.sh"]) fs <> None ->
  fst (memfs.MkdirAll pakDir fs) = None ->
  pakDir ++ [str "launch.sh"] ∉ memfs.denied fs ->
  memfs.ReadFile (pakDir ++ [str "launch.sh"]) (ensureBridgeEmu env fs)
  = inr bridgeLaunchScript
  /\ memfs.keeps [] fs (ensureBridgeEmu env fs).
Proof.
  intros pakDir Hp Habs Hmk Hden. rewrite ensureBridgeEmu_device by done.
  cbv zeta. fold pakDir.
  change (os_Stat ?p fs) with (memfs.Stat p fs).
  change (os_MkdirAll ?p fs) with (memfs.MkdirAll p fs).
  pose proof Habs as Habs'. apply Stat_absent in Habs'.
  destruct (memfs.Stat (pakDir ++ [str "launch.sh"]) fs) eqn:Es; [|done].
  pose proof (MkdirAll_keeps pakDir fs) as K1.
  pose proof (mkdirAllFrom_only [] pakDir fs (pakDir ++ [str "launch.sh"])) as O1.
  destruct (memfs.MkdirAll pakDir fs) as [[e1|] fs1] eqn:E1; [done|].
  unfold memfs.MkdirAll in E1. rewrite E1 in O1. cbn [snd] in K1, O1.
  assert (Hl1 : memfs.nodes fs1 !! (pakDir ++ [str "launch.sh"]) = None).
  { rewrite O1; [by rewrite <- nodeAt_snoc|].
    intros [r Hr]. apply (f_equal length) in Hr.
    rewrite !length_app in Hr. cbn in Hr. lia. }
  change (os_WriteFile ?p ?c fs1) with (memfs.WriteFile p c fs1).
  rewrite WriteFile_succeeds.
  - cbn [snd]. split.
    + apply ReadFile_file. unfold memfs.put. cbn [memfs.nodes].
      apply lookup_insert_eq.
    + apply (keeps_trans [] [] fs fs1); [done|]. by apply put_keeps_fresh.
  - by apply (MkdirAll_ok pakDir fs).
  - destruct K1 as [-> _]. done.
  - by rewrite Hl1.
Qed.

Lemma ensureBridgeEmu_installs_witness :
  memfs.ReadFile
    (filepath.Join (emusDir deviceEnv) (str "SHORTCUT.pak") ++ [str "launch.sh"])
    (ensureBridgeEmu deviceEnv sdcard0)
  = inr bridgeLaunchScript
  /\ memfs.keeps [] sdcard0 (ensureBridgeEmu deviceEnv sdcard0).
Proof.
  apply (ensureBridgeEmu_installs deviceEnv sdcard0).
  - done.
  - by vm_compute.
  - by vm_compute.
  - apply not_elem_of_empty.
Defined.

(** Running [ensureBridgeEmu] twice is running it once, also where it
    fails: on every card the second run leaves the card as the first run
    has left it. *)
Theorem ensureBridgeEmu_idempotent (env : Env) (fs : memfs.t) :
  ensureBridgeEmu env (ensureBridgeEmu env fs) = ensureBridgeEmu env fs.
Proof.
  assert (platform env = PlatformMac \/ platform env <> PlatformMac)
    as [Hmac|Hmac] by (destruct (platform env); auto).
  { unfold ensureBridgeEmu. by rewrite Hmac. }
  rewrite !ensureBridgeEmu_device by done. cbv zeta.
  set (pakDir := filepath.Join (emusDir env) (str "SHORTCUT.pak")).
  set (launch := pakDir ++ [str "launch.sh"]).
  cbn [os_Stat os_MkdirAll os_WriteFile memfs_OS].
  destruct (memfs.Stat launch fs) eqn:Es; [|by rewrite ?Es].
  assert (Habs : memfs.nodes fs !! launch = None).
  { unfold launch. rewrite <- nodeAt_snoc. apply Stat_absent.
    fold launch. by rewrite Es. }
  pose proof (mkdirAllFrom_again [] pakDir fs) as Hagain.
  pose proof (mkdirAllFrom_only [] pakDir fs launch) as O1.
  unfold memfs.MkdirAll.
  destruct (memfs.mkdirAllFrom [] pakDir fs) as [r fs1] eqn:E1.
  cbn [snd] in Hagain, O1.
  assert (Hl1 : memfs.nodes fs1 !! launch = None).
  { rewrite O1; [done|]. intros [x Hx]. apply (f_equal length) in Hx.
    unfold launch in Hx. rewrite !length_app in Hx. cbn in Hx. lia. }
  assert (Hs1 : memfs.Stat launch fs1 = Some (PathError "stat" launch ENOENT)).
  { unfold memfs.Stat. unfold launch at 1. rewrite nodeAt_snoc. fold launch.
    by rewrite Hl1. }
  destruct r as [err|].
  - by rewrite Hs1, Hagain.
  - destruct (memfs.WriteFile launch bridgeLaunchScript fs1) as [[werr|] fs2] eqn:E2.
    + pose proof (WriteFile_err _ _ _ _ _ E2) as ->. cbn [snd].
      by rewrite Hs1, Hagain, E2.
    + cbn [snd]. apply WriteFile_ok in E2.
      unfold memfs.Stat. unfold launch at 1. rewrite nodeAt_snoc. fold launch.
      by rewrite E2.
Qed.

Section PointerFacts.

Implicit Types (s e name console : gostring) (dir : path).







End PointerFacts.



Section ArtSourceFacts.

Implicit Types (r q x rest : gostring).








End ArtSourceFacts.



Section WellFormed.

Implicit Types (fs : memfs.t) (k p : path) (e name : gostring).

Lemma properName_spec e :
  properName e = true ->
  ("/"%char ∉ e) /\ e <> [] /\ e <> str "." /\ e <> str "..".
Proof.
  unfold properName. rewrite !andb_true_iff, !negb_true_iff.
  intros [[[H1 H2] H3] H4].
  apply bool_decide_eq_false in H1, H2, H3, H4. done.
Qed.

Lemma wellFormed_spec fs k n :
  wellFormed fs = true -> memfs.nodes fs !! k = Some n ->
  k <> [] /\ Forall (fun e => properName e = true) k
  /\ memfs.nodeAt fs (removelast k) = Some memfs.Dir.
Proof.
  unfold wellFormed. rewrite forallb_forall. intros H Hk.
  specialize (H (k, n)). cbn [fst] in H.
  assert (Hin : In (k, n) (map_to_list (memfs.nodes fs)))
    by (apply list_elem_of_In; by apply elem_of_map_to_list).
  specialize (H Hin).
  destruct k as [|x k]; [done|].
  apply andb_true_iff in H as [H1 H2].
  split; [done|]. split.
  - apply Forall_forall. intros e He. rewrite forallb_forall in H1.
    apply H1. by apply list_elem_of_In.
  - by destruct (memfs.nodeAt fs (removelast (x :: k))) as [[?|]|].
Qed.

(** In a well-formed card nothing lies below a path that does not exist. *)
Lemma wellFormed_absent fs p q n :
  wellFormed fs = true -> p <> [] -> memfs.nodes fs !! p = None ->
  memfs.nodes fs !! (p ++ q) = Some n -> False.
Proof.
  intros Hwf Hp Habs. revert n. induction q as [|e q IH] using rev_ind; intros n Hn.
  - rewrite app_nil_r in Hn. congruence.
  - destruct (wellFormed_spec fs _ _ Hwf Hn) as (_ & _ & Hpar).
    rewrite app_assoc, removelast_last in Hpar.
    destruct (p ++ q) as [|x l] eqn:E; [by destruct p|].
    cbn in Hpar. by eapply IH.
Qed.

(** The entries [ReadDir] returns are the children of the directory. *)
Lemma elem_of_ReadDir p fs entries (e : DirEntry.t) :
  memfs.ReadDir p fs = inr entries ->
  e ∈ entries <->
  exists n, memfs.nodes fs !! (p ++ [DirEntry.Name e]) = Some n
            /\ DirEntry.IsDir e = match n with memfs.Dir => true | _ => false end.
Proof.
  unfold memfs.ReadDir. destruct (memfs.nodeAt fs p) as [[?|]|]; try done.
  intros [= <-]. rewrite elem_of_Slice, list_elem_of_omap. split.
  - intros ([k n] & Hin%elem_of_map_to_list & Hc).
    unfold memfs.childEntry in Hc. cbn [fst snd] in Hc.
    destruct k as [|x k]; [done|]. case_bool_decide as Hp; [|done].
    apply (inj Some) in Hc. rewrite <- Hc. cbn [DirEntry.Name DirEntry.IsDir].
    exists n. split; [|done].
    rewrite <- Hp, <- app_removelast_last by done. done.
  - intros (n & Hn & Hd). exists (p ++ [DirEntry.Name e], n).
    split; [by apply elem_of_map_to_list|].
    unfold memfs.childEntry. cbn [fst snd].
    destruct (p ++ [DirEntry.Name e]) as [|x l] eqn:E; [by destruct p|].
    rewrite <- E, removelast_last, bool_decide_eq_true_2, last_last by done.
    rewrite <- Hd. by destruct e.
Qed.

Lemma ReadDir_ok p fs :
  memfs.nodeAt fs p = Some memfs.Dir -> exists entries, memfs.ReadDir p fs = inr entries.
Proof. unfold memfs.ReadDir. intros ->. by eexists. Qed.

End WellFormed.

Section NewFolder.

Context {ext : Extern} (env : Env).

Variables (fs fs' : memfs.t) (name : gostring).

Hypothesis Hwf : wellFormed fs = true.
Hypothesis Hroms : memfs.nodeAt fs (romsDir env) = Some memfs.Dir.
Hypothesis Hroms' : memfs.nodeAt fs' (romsDir env) = Some memfs.Dir.
Hypothesis Hnew : memfs.nodes fs !! (romsDir env ++ [name]) = None.
Hypothesis Hdir' : memfs.nodes fs' !! (romsDir env ++ [name]) = Some memfs.Dir.
Hypothesis Hout :
  forall k, ~ k `prefix_of` romsDir env ++ [name] ->
            ~ romsDir env ++ [name] `prefix_of` k ->
            memfs.nodes fs' !! k = memfs.nodes fs !! k.

Lemma below_other n q :
  n <> name ->
  memfs.nodes fs' !! (romsDir env ++ n :: q) = memfs.nodes fs !! (romsDir env ++ n :: q).
Proof.
  intros Hn. apply Hout.
  - intros H%prefix_app_inv%prefix_cons_inv_1. done.
  - intros H%prefix_app_inv%prefix_cons_inv_1. done.
Qed.

Lemma nodeAt_below_other n q :
  n <> name ->
  memfs.nodeAt fs' (romsDir env ++ n :: q) = memfs.nodeAt fs (romsDir env ++ n :: q).
Proof.
  intros Hn. pose proof (below_other n q Hn) as H.
  unfold memfs.nodeAt. by destruct (romsDir env ++ n :: q) eqn:E.
Qed.

(** The listing of the roms directory gains the new folder and nothing
    else. *)
Lemma entries_new entries entries' (e : DirEntry.t) :
  memfs.ReadDir (romsDir env) fs = inr entries ->
  memfs.ReadDir (romsDir env) fs' = inr entries' ->
  e ∈ entries' <-> e = DirEntry.mk name true \/ e ∈ entries.
Proof.
  intros HR HR'.
  rewrite (elem_of_ReadDir _ _ _ e HR), (elem_of_ReadDir _ _ _ e HR').
  destruct (decide (DirEntry.Name e = name)) as [He|He].
  - rewrite He, Hdir', Hnew. split.
    + intros (n & [= <-] & Hd). left. destruct e. cbn in *. congruence.
    + intros [->|(n & ? & _)]; [|done]. by exists memfs.Dir.
  - rewrite below_other by done. split; [by right|].
    intros [->|?]; done.
Qed.

Lemma entries_old entries (e : DirEntry.t) :
  memfs.ReadDir (romsDir env) fs = inr entries -> e ∈ entries ->
  DirEntry.Name e <> name
  /\ filepath.Join (romsDir env) (DirEntry.Name e)
     = romsDir env ++ [DirEntry.Name e]
  /\ ("/"%char ∉ DirEntry.Name e).
Proof.
  intros HR (n & Hn & _)%(elem_of_ReadDir _ _ _ e HR).
  split; [intros E; rewrite E in Hn; congruence|].
  destruct (wellFormed_spec fs _ _ Hwf Hn) as (_ & Hp & _).
  apply Forall_app in Hp as [_ Hp]. apply Forall_cons in Hp as [Hp _].
  apply properName_spec in Hp as (P0 & P1 & P2 & P3).
  split; [by apply Join_elem|done].
Qed.

Lemma isShortcutFolder_old n :
  n <> name ->
  isShortcutFolder (romsDir env ++ [n]) fs' = isShortcutFolder (romsDir env ++ [n]) fs.
Proof.
  intros Hn. unfold isShortcutFolder.
  rewrite Join_shortcutMarkerFile, <- app_assoc. cbn [app].
  change (os_Stat ?p fs') with (memfs.Stat p fs').
  change (os_Stat ?p fs) with (memfs.Stat p fs).
  unfold memfs.Stat. by rewrite nodeAt_below_other.
Qed.

Lemma ReadFile_old n q :
  n <> name ->
  memfs.ReadFile (romsDir env ++ n :: q) fs' = memfs.ReadFile (romsDir env ++ n :: q) fs.
Proof. intros Hn. unfold memfs.ReadFile. by rewrite nodeAt_below_other. Qed.

Lemma scanShortcuts_entry_old entries (e : DirEntry.t) :
  memfs.ReadDir (romsDir env) fs = inr entries -> e ∈ entries ->
  scanShortcuts_entry env fs' e = scanShortcuts_entry env fs e.
Proof.
  intros HR He. destruct (entries_old _ _ HR He) as (Hn & Hj & Hs).
  unfold scanShortcuts_entry. rewrite Hj, isShortcutFolder_old by done.
  destruct (negb (DirEntry.IsDir e)); [done|].
  destruct (negb (isShortcutFolder _ fs)); [done|].
  unfold readShortcutMarker. rewrite Join_shortcutMarkerFile, Join_target.
  rewrite (Join_elem _ (DirEntry.Name e ++ str ".m3u")).
  2: { intros [?|?]%elem_of_app; [done|set_solver]. }
  2-4: intros E; apply (f_equal (@rev ascii)) in E;
       rewrite rev_app_distr in E; discriminate E.
  change (os_ReadFile ?p fs') with (memfs.ReadFile p fs').
  change (os_ReadFile ?p fs) with (memfs.ReadFile p fs).
  rewrite <- !app_assoc. cbn [app]. by rewrite !ReadFile_old.
Qed.

Lemma dirHasVisibleContent_old n :
  n <> name ->
  dirHasVisibleContent (romsDir env ++ [n]) fs'
  = dirHasVisibleContent (romsDir env ++ [n]) fs.
Proof.
  intros Hn. unfold dirHasVisibleContent.
  change (os_ReadDir ?p fs') with (memfs.ReadDir p fs').
  change (os_ReadDir ?p fs) with (memfs.ReadDir p fs).
  pose proof (nodeAt_below_other n [] Hn) as Hd.
  destruct (memfs.ReadDir (romsDir env ++ [n]) fs) as [err|entries] eqn:HR;
    destruct (memfs.ReadDir (romsDir env ++ [n]) fs') as [err'|entries'] eqn:HR'.
  - done.
  - unfold memfs.ReadDir in HR, HR'. rewrite Hd in HR'.
    by destruct (memfs.nodeAt fs (romsDir env ++ [n])) as [[?|]|].
  - unfold memfs.ReadDir in HR, HR'. rewrite Hd in HR'.
    by destruct (memfs.nodeAt fs (romsDir env ++ [n])) as [[?|]|].
  - apply eq_true_iff_eq. rewrite !existsb_exists.
    assert (forall x, In x entries' <-> In x entries) as Hin.
    { intros x. rewrite <- !list_elem_of_In.
      rewrite (elem_of_ReadDir _ _ _ x HR), (elem_of_ReadDir _ _ _ x HR').
      rewrite <- !app_assoc. cbn [app]. by rewrite below_other. }
    split; intros (x & Hx & Hv); exists x; (split; [by apply Hin|done]).
Qed.

Lemma scanConsoleDirs_entry_old showHidden entries (e : DirEntry.t) :
  memfs.ReadDir (romsDir env) fs = inr entries -> e ∈ entries ->
  scanConsoleDirs_entry env showHidden fs' e
  = scanConsoleDirs_entry env showHidden fs e.
Proof.
  intros HR He. destruct (entries_old _ _ HR He) as (Hn & Hj & Hs).
  unfold scanConsoleDirs_entry.
  by rewrite Hj, isShortcutFolder_old, dirHasVisibleContent_old.
Qed.

(** The two lists after a folder has appeared in the roms directory. *)
Lemma scans_after_new (new : Shortcut.t) showHidden :
  scanShortcuts_entry env fs' (DirEntry.mk name true) = Some new ->
  isShortcutFolder (romsDir env ++ [name]) fs' = true ->
  filepath.Join (romsDir env) name = romsDir env ++ [name] ->
  (forall s, s ∈ fst (scanShortcuts env fs')
             <-> s = new \/ s ∈ fst (scanShortcuts env fs))
  /\ (forall c, c ∈ fst (scanConsoleDirs env showHidden fs')
                <-> c ∈ fst (scanConsoleDirs env showHidden fs)).
Proof.
  intros Hentry Hsc Hj.
  destruct (ReadDir_ok _ _ Hroms) as [entries HR].
  destruct (ReadDir_ok _ _ Hroms') as [entries' HR'].
  split.
  - intros s. rewrite !elem_of_scanShortcuts.
    change (os_ReadDir ?p fs') with (memfs.ReadDir p fs').
    change (os_ReadDir ?p fs) with (memfs.ReadDir p fs). split.
    + intros (l & e & Hl & He & Hs). rewrite HR' in Hl. injection Hl as <-.
      apply (entries_new _ _ e HR HR') in He as [->|He].
      * left. congruence.
      * right. exists entries, e. rewrite <- (scanShortcuts_entry_old entries) by done.
        done.
    + intros [->|(l & e & Hl & He & Hs)].
      * exists entries', (DirEntry.mk name true). split; [done|].
        split; [|done]. apply (entries_new _ _ _ HR HR'). by left.
      * rewrite HR in Hl. injection Hl as <-.
        exists entries', e. split; [done|]. split.
        -- apply (entries_new _ _ _ HR HR'). by right.
        -- by rewrite (scanShortcuts_entry_old entries).
  - intros c. rewrite !elem_of_scanConsoleDirs.
    change (os_ReadDir ?p fs') with (memfs.ReadDir p fs').
    change (os_ReadDir ?p fs) with (memfs.ReadDir p fs). split.
    + intros (l & e & Hl & He & Hc). rewrite HR' in Hl. injection Hl as <-.
      apply (entries_new _ _ e HR HR') in He as [->|He].
      * exfalso. unfold scanConsoleDirs_entry in Hc.
        cbn [DirEntry.IsDir DirEntry.Name negb] in Hc.
        by rewrite Hj, Hsc in Hc.
      * exists entries, e.
        rewrite <- (scanConsoleDirs_entry_old showHidden entries) by done. done.
    + intros (l & e & Hl & He & Hc). rewrite HR in Hl. injection Hl as <-.
      exists entries', e. split; [done|]. split.
      * apply (entries_new _ _ _ HR HR'). by right.
      * by rewrite (scanConsoleDirs_entry_old showHidden entries).
Qed.

End NewFolder.

Lemma properName_buildFolderName pos d t :
  ("/"%char ∉ d) -> ("/"%char ∉ t) -> properName (buildFolderName pos d t) = true.
Proof.
  intros Hd Ht. pose proof (buildFolderName_noslash pos d t Hd Ht) as H0.
  destruct (buildFolderName_last pos d t) as [x Hx].
  unfold properName. rewrite !andb_true_iff, !negb_true_iff.
  repeat split; apply bool_decide_eq_false_2; [done|..]; rewrite Hx.
  - by destruct x.
  - intros E. apply (f_equal (@rev ascii)) in E. rewrite rev_app_distr in E.
    discriminate E.
  - intros E. apply (f_equal (@rev ascii)) in E. rewrite rev_app_distr in E.
    discriminate E.
Qed.

(** What creation does to the two lists of the main menu.  On a
    well-formed card with a roms directory on which no shortcut of that
    display name and tag exists at any position, which is what the menu
    checks before it creates one, a successful [createROMShortcut] adds
    exactly one entry to the list of [scanShortcuts], the shortcut as it
    was asked for, keeps every other shortcut with all its fields, and
    leaves the list of [scanConsoleDirs] as it was. *)
Theorem create_adds_one_shortcut {ext : Extern} (env : Env)
    (d t console : gostring) (rom : ROMFile.t) (pos : ShortcutPosition)
    (settings : AppSettings.t) (showHidden : bool) (fs fs' : memfs.t) :
  let folderName := buildFolderName pos d t in
  let folderPath := romsDir env ++ [folderName] in
  wellFormed fs = true ->
  memfs.nodeAt fs (romsDir env) = Some memfs.Dir ->
  shortcutExists env d t fs = false ->
  createROMShortcut env d t console rom pos settings fs = (None, fs') ->
  ("/"%char ∉ d) -> ("/"%char ∉ t) -> ("("%char ∉ t) ->
  strings.TrimSpace t = t -> t <> bridgeEmuTag ->
  strings.TrimSpace d = d -> d <> [] ->
  folderPath ++ [shortcutMarkerFile] ∉ memfs.denied fs ->
  (forall s,
     s ∈ fst (scanShortcuts env fs')
     <-> s = Shortcut.mk folderName t d folderPath false
               (filepath.String
                  (filepath.Join folderPath
                     (strings.TrimSpace (createROMShortcut_relPath console rom))))
         \/ s ∈ fst (scanShortcuts env fs))
  /\ (forall c, c ∈ fst (scanConsoleDirs env showHidden fs')
                <-> c ∈ fst (scanConsoleDirs env showHidden fs)).
Proof.
  intros folderName folderPath Hwf Hroms Hex H Hd Ht Hp Htt Htool Hdd Hdne Hden.
  assert (Hnew : memfs.nodes fs !! folderPath = None).
  { destruct (memfs.nodes fs !! folderPath) as [n|] eqn:E; [exfalso|done].
    assert (shortcutExists env d t fs = true); [|congruence].
    apply (shortcutExists_probe env fs d t pos).
    rewrite (Join_buildFolderName _ pos d t) by done.
    change (os_Stat ?p fs) with (memfs.Stat p fs). apply Stat_None.
    fold folderName folderPath. unfold folderPath at 1.
    rewrite nodeAt_snoc. fold folderPath. by rewrite E. }
  assert (Hmdir : memfs.nodes fs !! (romsDir env ++ [folderName; shortcutMarkerFile])
                  <> Some memfs.Dir).
  { intros E. apply (wellFormed_absent fs folderPath [shortcutMarkerFile] memfs.Dir);
      try done.
    - by destruct (romsDir env).
    - unfold folderPath. by rewrite <- app_assoc. }
  unfold folderPath in Hden. rewrite <- app_assoc in Hden.
  destruct (createROMShortcut_marked env _ _ _ _ _ _ _ _ H Hd Ht Hden Hmdir)
    as (Hroms' & R1 & Hmark & R2).
  fold folderName in Hroms', R1, Hmark, R2.
  assert (Htag : extractTag folderName = t) by (by apply extractTag_buildFolderName).
  pose proof (Join_buildFolderName (romsDir env) pos d t Hd Ht) as Hj.
  fold folderName in Hj.
  apply (scans_after_new env fs fs' folderName); try done.
  - intros k Hk1 Hk2.
    pose proof (createROMShortcut_only env d t console rom pos settings fs k
                  Hd Ht Hk1 Hk2) as Ho.
    by rewrite H in Ho.
  - rewrite (scanShortcuts_entry_marked env folderName d fs') by done.
    unfold markedShortcut. fold folderPath. fold folderPath in R2.
    by rewrite Htag, (bool_decide_eq_false_2 _ Htool), R2.
  - apply isShortcutFolder_stat.
    change (os_Stat ?p fs') with (memfs.Stat p fs'). apply Stat_None.
    rewrite nodeAt_snoc, Hmark. by eexists.
Qed.

Lemma create_adds_one_shortcut_witness :
  let folderName :=
    buildFolderName ShortcutPositionAlpha (str "Battletoads") (str "MD") in
  let folderPath := romsDir deviceEnv ++ [folderName] in
  let fs' :=
    snd (createROMShortcut (ext := refExtern) deviceEnv (str "Battletoads")
           (str "MD") (str "Sega Genesis (MD)") battletoads
           ShortcutPositionAlpha noArtwork sdcard0) in
  (forall s,
     s ∈ fst (scanShortcuts (ext := refExtern) deviceEnv fs')
     <-> s = Shortcut.mk folderName (str "MD") (str "Battletoads") folderPath false
               (filepath.String
                  (filepath.Join folderPath
                     (strings.TrimSpace
                        (createROMShortcut_relPath (str "Sega Genesis (MD)")
                           battletoads))))
         \/ s ∈ fst (scanShortcuts (ext := refExtern) deviceEnv sdcard0))
  /\ (forall c, c ∈ fst (scanConsoleDirs (ext := refExtern) deviceEnv false fs')
                <-> c ∈ fst (scanConsoleDirs (ext := refExtern) deviceEnv false
                               sdcard0)).
Proof.
  intros folderName folderPath fs'.
  apply (create_adds_one_shortcut (ext := refExtern) deviceEnv
           (str "Battletoads") (str "MD") (str "Sega Genesis (MD)") battletoads
           ShortcutPositionAlpha noArtwork false sdcard0 fs').
  - by vm_compute.
  - by vm_compute.
  - by vm_compute.
  - apply pair_fst. by vm_compute.
  - apply (bool_decide_unpack _). by vm_compute.
  - apply (bool_decide_unpack _). by vm_compute.
  - apply (bool_decide_unpack _). by vm_compute.
  - by vm_compute.
  - done.
  - by vm_compute.
  - done.
  - apply not_elem_of_empty.
Defined.

(** The same for a tool shortcut: [createToolShortcut] adds exactly the
    tool shortcut asked for to the list of [scanShortcuts] and leaves the
    other shortcuts and the list of consoles as they were. *)
Theorem create_adds_one_tool_shortcut {ext : Extern} (env : Env)
    (d pak : gostring) (pos : ShortcutPosition)
    (settings : AppSettings.t) (showHidden : bool) (fs fs' : memfs.t) :
  let folderName := buildFolderName pos d bridgeEmuTag in
  let folderPath := romsDir env ++ [folderName] in
  wellFormed fs = true ->
  memfs.nodeAt fs (romsDir env) = Some memfs.Dir ->
  shortcutExists env d bridgeEmuTag fs = false ->
  createToolShortcut env d pak pos settings fs = (None, fs') ->
  ("/"%char ∉ d) -> strings.TrimSpace d = d -> d <> [] ->
  folderPath ++ [shortcutMarkerFile] ∉ memfs.denied fs ->
  (forall s,
     s ∈ fst (scanShortcuts env fs')
     <-> s = Shortcut.mk folderName bridgeEmuTag d folderPath true
               (strings.TrimSpace pak)
         \/ s ∈ fst (scanShortcuts env fs))
  /\ (forall c, c ∈ fst (scanConsoleDirs env showHidden fs')
                <-> c ∈ fst (scanConsoleDirs env showHidden fs)).
Proof.
  intros folderName folderPath Hwf Hroms Hex H Hd Hdd Hdne Hden.
  assert (Ht : "/"%char ∉ bridgeEmuTag) by (vm_compute; set_solver).
  assert (Hp : "("%char ∉ bridgeEmuTag) by (vm_compute; set_solver).
  assert (Hnew : memfs.nodes fs !! folderPath = None).
  { destruct (memfs.nodes fs !! folderPath) as [n|] eqn:E; [exfalso|done].
    assert (shortcutExists env d bridgeEmuTag fs = true); [|congruence].
    apply (shortcutExists_probe env fs d bridgeEmuTag pos).
    rewrite (Join_buildFolderName _ pos d bridgeEmuTag) by done.
    change (os_Stat ?p fs) with (memfs.Stat p fs). apply Stat_None.
    fold folderName folderPath. unfold folderPath at 1.
    rewrite nodeAt_snoc. fold folderPath. by rewrite E. }
  assert (Hmdir : memfs.nodes fs !! (romsDir env ++ [folderName; shortcutMarkerFile])
                  <> Some memfs.Dir).
  { intros E. apply (wellFormed_absent fs folderPath [shortcutMarkerFile] memfs.Dir);
      try done.
    - by destruct (romsDir env).
    - unfold folderPath. by rewrite <- app_assoc. }
  unfold folderPath in Hden. rewrite <- app_assoc in Hden.
  destruct (createToolShortcut_marked env _ _ _ _ _ _ H Hd Hden Hmdir)
    as (Hroms' & R1 & Hmark & R3).
  fold folderName in Hroms', R1, Hmark, R3.
  assert (Htag : extractTag folderName = bridgeEmuTag)
    by (by apply extractTag_buildFolderName).
  pose proof (Join_buildFolderName (romsDir env) pos d bridgeEmuTag Hd Ht) as Hj.
  fold folderName in Hj.
  apply (scans_after_new env fs fs' folderName); try done.
  - intros k Hk1 Hk2.
    pose proof (createToolShortcut_only env d pak pos settings fs k
                  Hd Hk1 Hk2) as Ho.
    by rewrite H in Ho.
  - rewrite (scanShortcuts_entry_marked env folderName d fs') by done.
    unfold markedShortcut. fold folderPath. fold folderPath in R3.
    by rewrite Htag, bool_decide_eq_true_2, R3.
  - apply isShortcutFolder_stat.
    change (os_Stat ?p fs') with (memfs.Stat p fs'). apply Stat_None.
    rewrite nodeAt_snoc, Hmark. by eexists.
Qed.

Lemma create_adds_one_tool_shortcut_witness :
  let folderName := buildFolderName ShortcutPositionTop (str "Clock") bridgeEmuTag in
  let folderPath := romsDir deviceEnv ++ [folderName] in
  let fs' :=
    snd (createToolShortcut (ext := refExtern) deviceEnv (str "Clock")
           (str "/mnt/SDCARD/Tools/tg5040/Clock.pak") ShortcutPositionTop
           noArtwork sdcardFull) in
  (forall s,
     s ∈ fst (scanShortcuts (ext := refExtern) deviceEnv fs')
     <-> s = Shortcut.mk folderName bridgeEmuTag (str "Clock") folderPath true
               (strings.TrimSpace (str "/mnt/SDCARD/Tools/tg5040/Clock.pak"))
         \/ s ∈ fst (scanShortcuts (ext := refExtern) deviceEnv sdcardFull))
  /\ (forall c, c ∈ fst (scanConsoleDirs (ext := refExtern) deviceEnv true fs')
                <-> c ∈ fst (scanConsoleDirs (ext := refExtern) deviceEnv true
                               sdcardFull)).
Proof.
  intros folderName folderPath fs'.
  apply (create_adds_one_tool_shortcut (ext := refExtern) deviceEnv
           (str "Clock") (str "/mnt/SDCARD/Tools/tg5040/Clock.pak")
           ShortcutPositionTop noArtwork true sdcardFull fs').
  - by vm_compute.
  - by vm_compute.
  - by vm_compute.
  - apply pair_fst. by vm_compute.
  - apply (bool_decide_unpack _). by vm_compute.
  - by vm_compute.
  - done.
  - apply not_elem_of_empty.
Defined.

Section RemovalFacts.

Implicit Types (fs g : memfs.t) (p k : path).

Lemma Remove_denied p fs :
  memfs.denied (snd (memfs_Remove p fs)) = memfs.denied fs.
Proof.
  unfold memfs_Remove. destruct p as [|x p]; [done|].
  destruct (memfs.nodes fs !! (x :: p)) as [[?|]|]; [| |done].
  - by case_bool_decide.
  - case_bool_decide; [done|]. by destruct (memfs_hasChild _ fs).
Qed.

Lemma Remove_other p fs k :
  k <> p -> memfs.nodes (snd (memfs_Remove p fs)) !! k = memfs.nodes fs !! k.
Proof.
  intros Hk. unfold memfs_Remove. destruct p as [|x p]; [done|].
  destruct (memfs.nodes fs !! (x :: p)) as [[?|]|]; [| |done].
  - case_bool_decide; [done|]. cbn. by apply lookup_delete_ne.
  - case_bool_decide; [done|]. destruct (memfs_hasChild _ fs); [done|].
    cbn. by apply lookup_delete_ne.
Qed.

Lemma Remove_shrinks p fs k :
  memfs.nodes (snd (memfs_Remove p fs)) !! k = None
  \/ memfs.nodes (snd (memfs_Remove p fs)) !! k = memfs.nodes fs !! k.
Proof.
  destruct (decide (k = p)) as [->|Hk]; [|right; by apply Remove_other].
  unfold memfs_Remove. destruct p as [|x p]; [by right|].
  destruct (memfs.nodes fs !! (x :: p)) as [[?|]|] eqn:E; [| |by right].
  - case_bool_decide; [by right|]. left. cbn. apply lookup_delete_eq.
  - case_bool_decide; [by right|]. destruct (memfs_hasChild _ fs); [by right|].
    left. cbn. apply lookup_delete_eq.
Qed.

Lemma Remove_file p e data fs :
  memfs.nodes fs !! (p ++ [e]) = None
  \/ memfs.nodes fs !! (p ++ [e]) = Some (memfs.File data) ->
  p ++ [e] ∉ memfs.denied fs ->
  memfs.nodes (snd (memfs_Remove (p ++ [e]) fs)) !! (p ++ [e]) = None.
Proof.
  intros Hn Hd. unfold memfs_Remove.
  destruct (p ++ [e]) as [|x l] eqn:E; [by destruct p|].
  destruct Hn as [Hn|Hn]; rewrite Hn; [exact Hn|].
  rewrite bool_decide_eq_false_2 by done. cbn. apply lookup_delete_eq.
Qed.

Lemma hasChild_false p fs :
  (forall k n, memfs.nodes fs !! k = Some n -> k <> [] -> removelast k <> p) ->
  memfs_hasChild p fs = false.
Proof.
  intros H. unfold memfs_hasChild. apply not_true_is_false.
  intros ([k n] & Hin & Hc)%existsb_exists.
  apply list_elem_of_In, elem_of_map_to_list in Hin. cbn [fst] in Hc.
  destruct k as [|x k]; [done|]. apply bool_decide_eq_true in Hc.
  by apply (H _ _ Hin).
Qed.

Lemma Remove_dir p e fs :
  memfs.nodes fs !! (p ++ [e]) = None
  \/ memfs.nodes fs !! (p ++ [e]) = Some memfs.Dir ->
  p ++ [e] ∉ memfs.denied fs ->
  (forall k n, memfs.nodes fs !! k = Some n -> k <> [] ->
               removelast k <> p ++ [e]) ->
  memfs.nodes (snd (memfs_Remove (p ++ [e]) fs)) !! (p ++ [e]) = None.
Proof.
  intros Hn Hd Hc. unfold memfs_Remove.
  destruct (p ++ [e]) as [|x l] eqn:E; [by destruct p|].
  destruct Hn as [Hn|Hn]; rewrite Hn; [exact Hn|].
  rewrite bool_decide_eq_false_2 by done.
  rewrite hasChild_false by done. cbn. apply lookup_delete_eq.
Qed.

End RemovalFacts.

Section RemoveAllMedia.

Context {ext : Extern} (env : Env).

Implicit Types (fs g : memfs.t) (k : path) (s : Shortcut.t) (l : list Shortcut.t).

Lemma step_paths g s :
  removeAllMedia_step g s
  = snd (memfs_Remove (Shortcut.Path s ++ [str ".media"])
           (snd (memfs_Remove ((Shortcut.Path s ++ [str ".media"]) ++ [str "bg.png"])
                   g))).
Proof. reflexivity. Qed.

Lemma step_denied g s : memfs.denied (removeAllMedia_step g s) = memfs.denied g.
Proof. by rewrite step_paths, !Remove_denied. Qed.

Lemma step_shrinks g s k :
  memfs.nodes (removeAllMedia_step g s) !! k = None
  \/ memfs.nodes (removeAllMedia_step g s) !! k = memfs.nodes g !! k.
Proof.
  rewrite step_paths.
  destruct (Remove_shrinks (Shortcut.Path s ++ [str ".media"])
              (snd (memfs_Remove ((Shortcut.Path s ++ [str ".media"])
                                  ++ [str "bg.png"]) g)) k) as [H|H];
    [by left|].
  rewrite H. apply Remove_shrinks.
Qed.

Lemma step_other g s k :
  k <> (Shortcut.Path s ++ [str ".media"]) ++ [str "bg.png"] ->
  k <> Shortcut.Path s ++ [str ".media"] ->
  memfs.nodes (removeAllMedia_step g s) !! k = memfs.nodes g !! k.
Proof. intros H1 H2. by rewrite step_paths, !Remove_other. Qed.

Lemma foldl_denied l g :
  memfs.denied (foldl removeAllMedia_step g l) = memfs.denied g.
Proof.
  revert g; induction l as [|s l IH]; intros g; [done|].
  cbn [foldl]. by rewrite IH, step_denied.
Qed.

Lemma foldl_shrinks l g k :
  memfs.nodes (foldl removeAllMedia_step g l) !! k = None
  \/ memfs.nodes (foldl removeAllMedia_step g l) !! k = memfs.nodes g !! k.
Proof.
  revert g; induction l as [|s l IH]; intros g; [by right|].
  cbn [foldl]. destruct (IH (removeAllMedia_step g s)) as [H|H]; [by left|].
  rewrite H. apply step_shrinks.
Qed.

Lemma foldl_other l g k :
  (forall s, s ∈ l ->
     k <> (Shortcut.Path s ++ [str ".media"]) ++ [str "bg.png"]
     /\ k <> Shortcut.Path s ++ [str ".media"]) ->
  memfs.nodes (foldl removeAllMedia_step g l) !! k = memfs.nodes g !! k.
Proof.
  revert g; induction l as [|s l IH]; intros g Hk; [done|].
  cbn [foldl]. rewrite IH by (intros; apply Hk; by right).
  destruct (Hk s) as [H1 H2]; [by left|]. by apply step_other.
Qed.

(** Once its turn has come, the background of a listed shortcut is gone,
    and so is the folder [.media] when the background was all it held. *)
Lemma foldl_removes fs l g s data :
  (forall k, memfs.nodes g !! k = None \/ memfs.nodes g !! k = memfs.nodes fs !! k) ->
  memfs.denied g = memfs.denied fs ->
  s ∈ l ->
  let media := Shortcut.Path s ++ [str ".media"] in
  media ++ [str "bg.png"] ∉ memfs.denied fs ->
  memfs.nodes fs !! (media ++ [str "bg.png"]) = Some (memfs.File data) ->
  memfs.nodes (foldl removeAllMedia_step g l) !! (media ++ [str "bg.png"]) = None
  /\ (media ∉ memfs.denied fs ->
      memfs.nodes fs !! media = Some memfs.Dir ->
      (forall k n, memfs.nodes fs !! k = Some n -> k <> [] ->
                   removelast k = media -> k = media ++ [str "bg.png"]) ->
      memfs.nodes (foldl removeAllMedia_step g l) !! media = None).
Proof.
  intros Hsub Hden Hin media Hbd Hbg. revert g Hsub Hden.
  induction l as [|s' l IH]; intros g Hsub Hden; [by apply elem_of_nil in Hin|].
  cbn [foldl].
  assert (Hsub' : forall k, memfs.nodes (removeAllMedia_step g s') !! k = None
                            \/ memfs.nodes (removeAllMedia_step g s') !! k
                               = memfs.nodes fs !! k).
  { intros k. destruct (step_shrinks g s' k) as [H|H]; [by left|].
    rewrite H. apply Hsub. }
  assert (Hden' : memfs.denied (removeAllMedia_step g s') = memfs.denied fs)
    by (by rewrite step_denied).
  apply elem_of_cons in Hin as [<-|Hin]; [|by apply IH].
  clear IH. fold media in Hsub', Hden'.
  set (g1 := snd (memfs_Remove (media ++ [str "bg.png"]) g)).
  assert (Hb1 : memfs.nodes g1 !! (media ++ [str "bg.png"]) = None).
  { apply (Remove_file media (str "bg.png") data).
    - destruct (Hsub (media ++ [str "bg.png"])) as [H|H]; [by left|right].
      by rewrite H.
    - by rewrite Hden. }
  assert (Hb2 : memfs.nodes (removeAllMedia_step g s) !! (media ++ [str "bg.png"])
                = None).
  { rewrite step_paths. fold media g1. rewrite Remove_other; [done|].
    intros E. apply (f_equal length) in E. rewrite length_app in E.
    cbn in E. lia. }
  split.
  - destruct (foldl_shrinks l (removeAllMedia_step g s) (media ++ [str "bg.png"]))
      as [H|H]; [done|]. by rewrite H.
  - intros Hmd Hm Honly.
    assert (Hm2 : memfs.nodes (removeAllMedia_step g s) !! media = None).
    { rewrite step_paths. fold media g1.
      apply (Remove_dir (Shortcut.Path s) (str ".media")).
      - fold media. destruct (Remove_shrinks (media ++ [str "bg.png"]) g media)
          as [H|H]; fold g1 in H; [by left|].
        rewrite H. destruct (Hsub media) as [H'|H']; [by left|right].
        by rewrite H'.
      - fold media. unfold g1. by rewrite Remove_denied, Hden.
      - fold media. intros k n Hk Hk0 Hrl.
        assert (Hkfs : memfs.nodes fs !! k = Some n).
        { destruct (Remove_shrinks (media ++ [str "bg.png"]) g k) as [H|H];
            fold g1 in H; [congruence|].
          rewrite H in Hk. destruct (Hsub k) as [H'|H']; congruence. }
        rewrite (Honly _ _ Hkfs Hk0 Hrl) in Hk. congruence. }
    destruct (foldl_shrinks l (removeAllMedia_step g s) media) as [H|H]; [done|].
    by rewrite H.
Qed.

End RemoveAllMedia.

(** [removeAllMedia] only removes, and only backgrounds: on every card
    no path is created or changed, the refused places stay the same, and
    every path other than [.media/bg.png] and [.media] of a listed
    shortcut is as it was. *)
Theorem removeAllMedia_confined {ext : Extern} (env : Env) (fs : memfs.t) :
  memfs.denied (snd (removeAllMedia env fs)) = memfs.denied fs
  /\ (forall k,
        memfs.nodes (snd (removeAllMedia env fs)) !! k = None
        \/ memfs.nodes (snd (removeAllMedia env fs)) !! k = memfs.nodes fs !! k)
  /\ (forall k,
        (forall s, s ∈ fst (scanShortcuts env fs) ->
           k <> Shortcut.Path s ++ [str ".media"; str "bg.png"]
           /\ k <> Shortcut.Path s ++ [str ".media"]) ->
        memfs.nodes (snd (removeAllMedia env fs)) !! k = memfs.nodes fs !! k).
Proof.
  unfold removeAllMedia.
  destruct (scanShortcuts env fs) as [l [err|]]; cbn [fst snd].
  - split; [done|]. split; [by right|done].
  - split; [apply foldl_denied|]. split; [apply foldl_shrinks|].
    intros k Hk. apply foldl_other. intros s Hs.
    rewrite <- app_assoc. cbn [app]. by apply Hk.
Qed.

(** It removes what it is for: the background of every listed shortcut
    is gone afterwards, when it was a file the system lets go of, and the
    folder [.media] is gone with it when the background was all it held. *)
Theorem removeAllMedia_removes {ext : Extern} (env : Env) (fs : memfs.t)
    (s : Shortcut.t) (data : gostring) :
  let media := Shortcut.Path s ++ [str ".media"] in
  s ∈ fst (scanShortcuts env fs) ->
  media ++ [str "bg.png"] ∉ memfs.denied fs ->
  memfs.nodes fs !! (media ++ [str "bg.png"]) = Some (memfs.File data) ->
  fst (removeAllMedia env fs) = None
  /\ memfs.nodes (snd (removeAllMedia env fs)) !! (media ++ [str "bg.png"]) = None
  /\ (media ∉ memfs.denied fs ->
      memfs.nodes fs !! media = Some memfs.Dir ->
      (forall k n, memfs.nodes fs !! k = Some n -> k <> [] ->
                   removelast k = media -> k = media ++ [str "bg.png"]) ->
      memfs.nodes (snd (removeAllMedia env fs)) !! media = None).
Proof.
  intros media Hin Hbd Hbg. unfold removeAllMedia.
  destruct (scanShortcuts env fs) as [l [err|]] eqn:Es; cbn [fst snd] in *.
  - assert (l = []) as ->; [|by apply elem_of_nil in Hin].
    unfold scanShortcuts in Es. by destruct (os_ReadDir _ fs); injection Es as <-.
  - split; [done|]. apply (foldl_removes fs l fs s data); try done. by right.
Qed.

Lemma removeAllMedia_removes_witness :
  let s := Shortcut.mk (shortcutPrefix ++ str "Battletoads (MD)") (str "MD")
             (str "Battletoads") battletoadsFolder false
             (str "/mnt/SDCARD/Roms/Sega Genesis (MD)/Battletoads.md") in
  let media := Shortcut.Path s ++ [str ".media"] in
  fst (removeAllMedia (ext := refExtern) deviceEnv sdcardMedia) = None
  /\ memfs.nodes (snd (removeAllMedia (ext := refExtern) deviceEnv sdcardMedia))
     !! (media ++ [str "bg.png"]) = None
  /\ (media ∉ memfs.denied sdcardMedia ->
      memfs.nodes sdcardMedia !! media = Some memfs.Dir ->
      (forall k n, memfs.nodes sdcardMedia !! k = Some n -> k <> [] ->
                   removelast k = media -> k = media ++ [str "bg.png"]) ->
      memfs.nodes (snd (removeAllMedia (ext := refExtern) deviceEnv sdcardMedia))
      !! media = None).
Proof.
  intros s media.
  apply (removeAllMedia_removes (ext := refExtern) deviceEnv sdcardMedia s
           (str "bg")).
  - vm_compute. apply list_elem_of_here.
  - apply not_elem_of_empty.
  - by vm_compute.
Defined.

(** Artwork that is there but cannot be read suppresses the background
    altogether: when the artwork path exists and the image cannot be
    loaded from it, [generateArtworkBg] returns without touching the file
    system, with the wallpaper on or off, and also in the always-emit
    mode that writes a background when there is no artwork at all. *)
Lemma generateArtworkBg_unreadable_art {FS : Type} {os : OS FS} {ext : Extern}
    (env : Env) (artSrcPath destFolder : path) (useGlobalBg forceBlack : bool)
    (fs : FS) (err : error) :
  os_Stat artSrcPath fs = None ->
  loadPNGImage artSrcPath fs = inl err ->
  generateArtworkBg env artSrcPath destFolder useGlobalBg forceBlack fs = fs.
Proof. intros Hs Hl. unfold generateArtworkBg. by rewrite Hs, Hl. Qed.

Section ArtPlacement.

Context {ext : Extern} (env : Env).

Lemma thumbnailFit_bounds (srcW srcH maxW maxH : Z) :
  0 < srcW < 2 ^ 31 -> 0 < srcH < 2 ^ 31 ->
  0 <= maxW < 2 ^ 31 -> 0 <= maxH < 2 ^ 31 ->
  0 <= (thumbnailFit srcW srcH maxW maxH).1 <= maxW
  /\ 0 <= (thumbnailFit srcW srcH maxW maxH).2 <= maxH.
Proof.
  intros HW HH HmW HmH. rewrite thumbnailFit_unfold by done.
  pose proof (Z.div_pos (srcH * maxW) srcW ltac:(lia) ltac:(lia)) as Hq1.
  pose proof (Z.div_pos (srcW * maxH) srcH ltac:(lia) ltac:(lia)) as Hq2.
  destruct (Z.ltb_spec maxH (srcH * maxW / srcW)) as [Hgt|Hle]; cbn [fst snd].
  - assert (srcW * maxH / srcH <= maxW); [|lia].
    apply Z.div_le_upper_bound; [lia|].
    pose proof (Z.mul_div_le (srcH * maxW) srcW ltac:(lia)). nia.
  - lia.
Qed.

Lemma screenDimensions_cases :
  screenDimensions env = (1280, 720) \/ screenDimensions env = (1024, 768).
Proof. unfold screenDimensions. destruct (isBrick env); auto. Qed.

(** The rectangle of the thumbnail, once the sizes are known to fit. *)
Lemma art_rect (screenW screenH artW artH : Z) :
  0 <= artW -> artW + 30 <= screenW -> 0 <= artH <= screenH ->
  screenW < 2 ^ 31 -> screenH < 2 ^ 31 ->
  let targetX := Z.max 0 (int.sub (int.sub screenW artW) 30) in
  let centerY := int.sub (int.quo screenH 2) (int.quo artH 2) in
  image.Rect targetX centerY (int.add targetX artW) (int.add centerY artH)
  = image.Rectangle.mk
      (image.Point.mk (screenW - artW - 30) (screenH / 2 - artH / 2))
      (image.Point.mk (screenW - 30) (screenH / 2 - artH / 2 + artH))
  /\ 0 <= screenH / 2 - artH / 2
  /\ screenH / 2 - artH / 2 + artH <= screenH.
Proof.
  intros Hw0 Hw Hh Hsw Hsh. cbv zeta.
  assert (Hq1 : Z.quot screenH 2 = screenH / 2) by (apply Z.quot_div_nonneg; lia).
  assert (Hq2 : Z.quot artH 2 = artH / 2) by (apply Z.quot_div_nonneg; lia).
  pose proof (Z.div_mod screenH 2 ltac:(lia)) as D1.
  pose proof (Z.mod_pos_bound screenH 2 ltac:(lia)) as M1.
  pose proof (Z.div_mod artH 2 ltac:(lia)) as D2.
  pose proof (Z.mod_pos_bound artH 2 ltac:(lia)) as M2.
  unfold int.sub, int.add, int.quo. rewrite Hq1, Hq2.
  rewrite (wrap64_small (screenW - artW)) by lia.
  rewrite (wrap64_small (screenW - artW - 30)) by lia.
  rewrite (wrap64_small (screenH / 2)), (wrap64_small (artH / 2)) by lia.
  rewrite (wrap64_small (screenH / 2 - artH / 2)) by lia.
  rewrite Z.max_r by lia.
  rewrite (wrap64_small (screenW - artW - 30 + artW)) by lia.
  rewrite (wrap64_small (screenH / 2 - artH / 2 + artH)) by lia.
  split; [|lia]. unfold image.Rect.
  destruct (Z.ltb_spec (screenW - artW - 30 + artW) (screenW - artW - 30)); [lia|].
  destruct (Z.ltb_spec (screenH / 2 - artH / 2 + artH) (screenH / 2 - artH / 2));
    [lia|].
  do 2 f_equal; lia.
Qed.

(** With artwork and without wallpaper the function draws the thumbnail
    on the black canvas and writes the result. *)
Lemma generateArtworkBg_art {FS : Type} {os : OS FS} artSrc dest useGlobalBg
    forceBlack (fs : FS) (artImg : Image) :
  os_Stat artSrc fs = None ->
  loadPNGImage artSrc fs = inr artImg ->
  (useGlobalBg = false
   \/ exists e, loadPNGImage (globalBgPath env) fs = inl e) ->
  generateArtworkBg env artSrc dest useGlobalBg forceBlack fs
  = let screenW := fst (screenDimensions env) in
    let screenH := snd (screenDimensions env) in
    let black := if isBrick env then image.solidBlack 1024 768
                 else image.solidBlack 1280 720 in
    let fit := thumbnailFit (image.Rectangle.Dx (Image_Bounds artImg))
                 (image.Rectangle.Dy (Image_Bounds artImg))
                 (float_times_045 screenW) (float_times_060 screenH) in
    let scaledArt := image.NewNRGBA (image.Rect 0 0 (fst fit) (snd fit)) in
    let scaledArt :=
      applyRoundedCorners
        (xdraw_Scale scaledArt (image.NRGBA.Bounds scaledArt) artImg
           (Image_Bounds artImg) Over) 40 in
    let targetX := Z.max 0 (int.sub (int.sub screenW (fst fit)) 30) in
    let centerY := int.sub (int.quo screenH 2) (int.quo (snd fit) 2) in
    let canvas :=
      xdraw_Draw black
        (image.Rect targetX centerY (int.add targetX (fst fit))
           (int.add centerY (snd fit)))
        scaledArt (image.Point.mk 0 0) Over in
    let bg := dest ++ [str ".media"; str "bg.png"] in
    match os_MkdirAll (dest ++ [str ".media"]) fs with
    | (Some _, fs1) => fs1
    | (None, fs1) =>
        match os_Create bg fs1 with
        | (Some _, fs2) => fs2
        | (None, fs2) => snd (os_Write bg (png_Encode canvas) fs2)
        end
    end.
Proof.
  intros Hstat Hload Hbg. unfold generateArtworkBg. rewrite Hstat, Hload.
  rewrite (surjective_pairing (screenDimensions env)).
  cbv beta iota zeta. rewrite screenDimensions_black.
  rewrite (surjective_pairing (thumbnailFit _ _ _ _)).
  rewrite Join_media, Join_bg, <- app_assoc.
  change ([str ".media"] ++ [str "bg.png"]) with [str ".media"; str "bg.png"].
  destruct Hbg as [->|[e He]]; [done|].
  destruct useGlobalBg; [|done]. by rewrite He.
Qed.

End ArtPlacement.

(** Where the thumbnail lands.  With artwork that loads, without
    wallpaper, and with the thumbnail box of the compositor inside the
    screen less the margin, the file [.media/bg.png] holds the encoding of
    the black canvas with the scaled and masked artwork drawn into a
    rectangle of the size [thumbnailFit] gives, which lies within the
    canvas, ends 30 pixels from its right edge and is centred
    vertically. *)
Theorem generateArtworkBg_places_art {ext : Extern} (env : Env)
    (artSrc dest : path) (useGlobalBg forceBlack : bool) (fs : memfs.t)
    (artImg : Image) :
  let screenW := fst (screenDimensions env) in
  let screenH := snd (screenDimensions env) in
  let fit := thumbnailFit (image.Rectangle.Dx (Image_Bounds artImg))
               (image.Rectangle.Dy (Image_Bounds artImg))
               (float_times_045 screenW) (float_times_060 screenH) in
  let x := screenW - fst fit - 30 in
  let y := screenH / 2 - snd fit / 2 in
  memfs.Stat artSrc fs = None ->
  loadPNGImage artSrc fs = inr artImg ->
  (useGlobalBg = false
   \/ exists e, loadPNGImage (globalBgPath env) fs = inl e) ->
  0 < image.Rectangle.Dx (Image_Bounds artImg) < 2 ^ 31 ->
  0 < image.Rectangle.Dy (Image_Bounds artImg) < 2 ^ 31 ->
  0 <= float_times_045 screenW <= screenW - 30 ->
  0 <= float_times_060 screenH <= screenH ->
  fst (memfs.MkdirAll (dest ++ [str ".media"]) fs) = None ->
  fst (memfs.Create (dest ++ [str ".media"; str "bg.png"])
         (snd (memfs.MkdirAll (dest ++ [str ".media"]) fs))) = None ->
  memfs.ReadFile (dest ++ [str ".media"; str "bg.png"])
    (generateArtworkBg env artSrc dest useGlobalBg forceBlack fs)
  = inr (png_Encode
           (xdraw_Draw
              (if isBrick env then image.solidBlack 1024 768
               else image.solidBlack 1280 720)
              (image.Rectangle.mk (image.Point.mk x y)
                 (image.Point.mk (x + fst fit) (y + snd fit)))
              (applyRoundedCorners
                 (xdraw_Scale
                    (image.NewNRGBA (image.Rect 0 0 (fst fit) (snd fit)))
                    (image.NRGBA.Bounds
                       (image.NewNRGBA (image.Rect 0 0 (fst fit) (snd fit))))
                    artImg (Image_Bounds artImg) Over) 40)
              (image.Point.mk 0 0) Over))
  /\ 0 <= fst fit <= float_times_045 screenW
  /\ 0 <= snd fit <= float_times_060 screenH
  /\ 0 <= x /\ x + fst fit = screenW - 30
  /\ 0 <= y /\ y + snd fit <= screenH.
Proof.
  intros screenW screenH fit x y Hstat Hload Hbg HW HH HmW HmH H1 H2.
  assert (Hscreen : 0 < screenW < 2 ^ 31 /\ 0 < screenH < 2 ^ 31).
  { unfold screenW, screenH.
    destruct (screenDimensions_cases env) as [-> | ->]; cbn [fst snd]; lia. }
  destruct Hscreen as [Hsw Hsh].
  destruct (thumbnailFit_bounds _ _ (float_times_045 screenW)
              (float_times_060 screenH) HW HH) as [Bw Bh]; [lia|lia|].
  fold fit in Bw, Bh.
  destruct (art_rect screenW screenH (fst fit) (snd fit)) as (ER & Hy0 & Hy1);
    [lia..|].
  cbv zeta in ER. fold x y in Hy0, Hy1.
  split; [|unfold x; repeat split; lia].
  rewrite (generateArtworkBg_art (os := memfs_OS) env artSrc dest useGlobalBg
             forceBlack fs artImg Hstat Hload Hbg).
  cbv zeta. fold screenW screenH. fold fit. rewrite ER.
  replace (screenW - 30) with (x + fst fit) by (unfold x; lia).
  fold x y.
  change (os_MkdirAll (dest ++ [str ".media"]) fs)
    with (memfs.MkdirAll (dest ++ [str ".media"]) fs).
  destruct (memfs.MkdirAll (dest ++ [str ".media"]) fs) as [[e|] fs1];
    [done|]. cbn [fst snd] in H2.
  change (os_Create (dest ++ [str ".media"; str "bg.png"]) fs1)
    with (memfs.Create (dest ++ [str ".media"; str "bg.png"]) fs1).
  destruct (memfs.Create (dest ++ [str ".media"; str "bg.png"]) fs1)
    as [[e|] fs2] eqn:E2; [done|].
  unfold memfs.Create in E2.
  pose proof (WriteFile_not_denied _ _ _ _ E2) as Hden.
  pose proof (WriteFile_keeps (dest ++ [str ".media"; str "bg.png"]) [] fs1) as K.
  rewrite E2 in K. destruct K as [Kd _]. cbn [snd] in Kd.
  apply WriteFile_ok in E2.
  match goal with
  | |- context [os_Write ?p ?c fs2] =>
      change (os_Write p c fs2) with (memfs.Write p c fs2);
      rewrite (Write_ok p c fs2 [] E2)
  end.
  - cbn [snd app].
    change (dest ++ [str ".media"; str "bg.png"])
      with (dest ++ [str ".media"] ++ [str "bg.png"]).
    rewrite app_assoc. apply ReadFile_file. apply lookup_insert_eq.
  - by destruct dest.
  - by rewrite Kd.
Qed.

Lemma generateArtworkBg_places_art_witness :
  let artImg : @Image refExtern := image.Rect 0 0 64 32 in
  let fit := thumbnailFit 64 32 576 432 in
  let x := 1280 - fst fit - 30 in
  let y := 720 / 2 - snd fit / 2 in
  memfs.ReadFile (battletoadsFolder ++ [str ".media"; str "bg.png"])
    (generateArtworkBg (ext := refExtern) deviceEnv battletoadsArt
       battletoadsFolder false false sdcardArt)
  = inr (@png_Encode refExtern
           (@xdraw_Draw refExtern (image.solidBlack 1280 720)
              (image.Rectangle.mk (image.Point.mk x y)
                 (image.Point.mk (x + fst fit) (y + snd fit)))
              (applyRoundedCorners
                 (@xdraw_Scale refExtern
                    (image.NewNRGBA (image.Rect 0 0 (fst fit) (snd fit)))
                    (image.NRGBA.Bounds
                       (image.NewNRGBA (image.Rect 0 0 (fst fit) (snd fit))))
                    artImg artImg Over) 40)
              (image.Point.mk 0 0) Over))
  /\ 0 <= fst fit <= 576
  /\ 0 <= snd fit <= 432
  /\ 0 <= x /\ x + fst fit = 1280 - 30
  /\ 0 <= y /\ y + snd fit <= 720.
Proof.
  intros artImg fit x y.
  apply (generateArtworkBg_places_art (ext := refExtern) deviceEnv battletoadsArt
           battletoadsFolder false false sdcardArt artImg).
  - by vm_compute.
  - by vm_compute.
  - by left.
  - by vm_compute.
  - by vm_compute.
  - by vm_compute.
  - by vm_compute.
  - by vm_compute.
  - by vm_compute.
Defined.
